(** * wordInGemini: extraction, filtering, retry and SQL synthesis

    A shallow embedding of [wordInGemini.py].  Python strings are lists of
    Unicode code points, the JSON values returned by [json.loads] are an
    inductive type, and the effects of the script (the in-memory list of SQL
    statements, the two log files, the console, [time.sleep] and the calls to
    the model endpoint) are threaded through an explicit [world] record. *)

From Stdlib Require Import List NArith ZArith Bool Ascii Lia.
From Stdlib Require String.
Import String.StringSyntax.
From Stdlib Require Import Sorting.Sorted Sorting.Permutation.
From Stdlib Require Import Floats.SpecFloat.
Import ListNotations.

Set Warnings "-register-all".

Open Scope string_scope.
Open Scope list_scope.

(** ** Python strings *)

(** A [str] is a sequence of code points. *)
Definition pystr := list N.

Definition pystr_eq_dec : forall a b : pystr, {a = b} + {a <> b} :=
  list_eq_dec N.eq_dec.

Definition str_eqb (a b : pystr) : bool :=
  if pystr_eq_dec a b then true else false.

(** Source literals are written as UTF-8 text and decoded to code points. *)
Fixpoint utf8_decode (bs : list N) : pystr :=
  match bs with
  | [] => []
  | b0 :: t0 =>
    if (b0 <? 128)%N then b0 :: utf8_decode t0
    else match t0 with
    | [] => [b0]
    | b1 :: t1 =>
      if (b0 <? 224)%N then
        ((b0 mod 32) * 64 + b1 mod 64)%N :: utf8_decode t1
      else match t1 with
      | [] => [b0; b1]
      | b2 :: t2 =>
        if (b0 <? 240)%N then
          ((b0 mod 16) * 4096 + (b1 mod 64) * 64 + b2 mod 64)%N
            :: utf8_decode t2
        else match t2 with
        | [] => [b0; b1; b2]
        | b3 :: t3 =>
          ((b0 mod 8) * 262144 + (b1 mod 64) * 4096
           + (b2 mod 64) * 64 + b3 mod 64)%N :: utf8_decode t3
        end
      end
    end
  end.

Definition u (s : String.string) : pystr :=
  utf8_decode (map N_of_ascii (String.list_ascii_of_string s)).

(** [sep.join(parts)] *)
Fixpoint str_join (sep : pystr) (parts : list pystr) : pystr :=
  match parts with
  | [] => []
  | [p] => p
  | p :: rest => p ++ sep ++ str_join sep rest
  end.

(** [s.startswith(p)] *)
Fixpoint startswith (p s : pystr) : bool :=
  match p, s with
  | [], _ => true
  | _ :: _, [] => false
  | a :: p', b :: s' => (a =? b)%N && startswith p' s'
  end.

(** [s.replace(old, new)] for a non-empty [old]: occurrences are replaced
    from left to right and do not overlap; [skip] counts the characters of
    an occurrence that has just been replaced. *)
Fixpoint replace_from (old new : pystr) (skip : nat) (s : pystr) : pystr :=
  match s with
  | [] => []
  | c :: t =>
    match skip with
    | S k => replace_from old new k t
    | O =>
      if startswith old s
      then new ++ replace_from old new (length old - 1) t
      else c :: replace_from old new 0 t
    end
  end.

Definition str_replace (old new s : pystr) : pystr := replace_from old new 0 s.

(** Comparison of two [str] values: lexicographic on code points. *)
Fixpoint str_ltb (a b : pystr) : bool :=
  match a, b with
  | _, [] => false
  | [], _ :: _ => true
  | x :: a', y :: b' => (x <? y)%N || ((x =? y)%N && str_ltb a' b')
  end.

Definition str_leb (a b : pystr) : bool := negb (str_ltb b a).

(** [sorted(xs)] on strings: a stable sort by [<=]. *)
Fixpoint insert_sorted (x : pystr) (l : list pystr) : list pystr :=
  match l with
  | [] => [x]
  | y :: t => if str_leb x y then x :: l else y :: insert_sorted x t
  end.

Definition sorted (l : list pystr) : list pystr :=
  fold_right insert_sorted [] l.

(** [set(xs)]: the distinct elements.  The iteration order of a Python set
    is unspecified; every use below either sorts it or only tests
    membership. *)
Definition py_set (l : list pystr) : list pystr := nodup pystr_eq_dec l.

Definition set_add (x : pystr) (s : list pystr) : list pystr :=
  if existsb (str_eqb x) s then s else s ++ [x].

Definition set_mem (x : pystr) (s : list pystr) : bool := existsb (str_eqb x) s.

(** ** Word extraction *)

(** The character class [[a-zäöüßA-ZÄÖÜ]] of the token pattern. *)
Definition in_lower_class (c : N) : bool :=
  ((97 <=? c) && (c <=? 122) || (c =? 228) || (c =? 246) || (c =? 252)
   || (c =? 223))%N.

Definition in_upper_class (c : N) : bool :=
  ((65 <=? c) && (c <=? 90) || (c =? 196) || (c =? 214) || (c =? 220))%N.

Definition in_token_class (c : N) : bool :=
  in_lower_class c || in_upper_class c.

Inductive file_read : Type :=
| FileNotFoundError
| ReadException
| FileText (text : pystr).

Section Extraction.

(** The Unicode tables of the Python runtime: [str.lower] and
    [str.isalnum] on one character, which decides [\w]. *)
Variable str_lower : pystr -> pystr.
Variable is_alnum : N -> bool.

Definition word_char (c : option N) : bool :=
  match c with
  | None => false
  | Some c => is_alnum c || (c =? 95)%N
  end.

(** [\b] between two neighbouring positions. *)
Definition at_boundary (prev next : option N) : bool :=
  xorb (word_char prev) (word_char next).

(** [[...]+\b] after the character [last] has been taken: first try to
    take one more character of the class, then fall back to stopping. *)
Fixpoint match_run (last : N) (s : pystr) : option pystr :=
  match s with
  | [] => if at_boundary (Some last) None then Some [] else None
  | c :: t =>
    let stop :=
      if at_boundary (Some last) (Some c) then Some [] else None in
    if in_token_class c then
      match match_run c t with
      | Some m => Some (c :: m)
      | None => stop
      end
    else stop
  end.

(** [\b[...]+\b] at the start of [s], [prev] being the character before. *)
Definition match_here (prev : option N) (s : pystr) : option pystr :=
  match s with
  | [] => None
  | c :: t =>
    if at_boundary prev (Some c) && in_token_class c
    then option_map (cons c) (match_run c t)
    else None
  end.

(** [re.findall]: scan from left to right, resume after each match. *)
Fixpoint findall_from (prev : option N) (skip : nat) (s : pystr)
  : list pystr :=
  match s with
  | [] => []
  | c :: t =>
    match skip with
    | S k => findall_from (Some c) k t
    | O =>
      match match_here prev s with
      | Some m => m :: findall_from (Some c) (length m - 1) t
      | None => findall_from (Some c) 0 t
      end
    end
  end.

Definition findall_words (text : pystr) : list pystr :=
  findall_from None 0 text.

Definition read_and_extract_words_from_text_file
    (fs : pystr -> file_read) (file_path : pystr) : list pystr :=
  match fs file_path with
  | FileText text =>
    let words := findall_words (str_lower text) in
    let unique_words := sorted (py_set words) in
    unique_words
  | FileNotFoundError => []
  | ReadException => []
  end.

(** The order of the specification text: tokenize the file content, then
    lowercase each token. *)
Definition extract_tokenize_then_lower (text : pystr) : list pystr :=
  sorted (py_set (map str_lower (findall_words text))).

End Extraction.

(** The Unicode tables on the Basic Latin and Latin-1 Supplement blocks,
    and on the three code points outside them whose lowercase form contains
    a letter of the token pattern (U+0130, U+1E9E, U+212A). *)
Definition latin_lower_char (c : N) : pystr :=
  if ((65 <=? c) && (c <=? 90))%N then [(c + 32)%N]
  else if ((192 <=? c) && (c <=? 222) && negb (c =? 215))%N then [(c + 32)%N]
  else if (c =? 304)%N then [105%N; 775%N]
  else if (c =? 7838)%N then [223%N]
  else if (c =? 8490)%N then [107%N]
  else [c].

Definition latin_lower (s : pystr) : pystr := flat_map latin_lower_char s.

Definition latin_isalnum (c : N) : bool :=
  ((48 <=? c) && (c <=? 57) || (65 <=? c) && (c <=? 90)
   || (97 <=? c) && (c <=? 122)
   || (c =? 170) || (c =? 178) || (c =? 179) || (c =? 181) || (c =? 185)
   || (c =? 186) || (c =? 188) || (c =? 189) || (c =? 190)
   || (192 <=? c) && (c <=? 255) && negb (c =? 215) && negb (c =? 247)
   || (c =? 304) || (c =? 7838) || (c =? 8490))%N.

Definition latin_isspace (c : N) : bool :=
  ((9 <=? c) && (c <=? 13) || (28 <=? c) && (c <=? 32)
   || (c =? 133) || (c =? 160))%N.

(** ** Filtering against the database *)

(** What [SELECT DISTINCT queried_word FROM words] does on the database at
    [db_path].  The column is [TEXT NOT NULL] in the schema of
    [generate_schema_sql], so a row holds a string. *)
Inductive db_outcome : Type :=
| DbRows (rows : list pystr)
| DbOperationalError
| DbOtherError.

Section Filtering.

Variable str_lower : pystr -> pystr.

Definition get_new_words_not_in_db
    (words_from_text : list pystr)
    (db : pystr -> db_outcome) (db_path : pystr) : list pystr :=
  match words_from_text with
  | [] => []
  | _ :: _ =>
    match db db_path with
    | DbRows rows =>
      let existing_queried_words :=
        fold_left (fun s row => set_add (str_lower row) s) rows [] in
      fold_left
        (fun new_words_to_query word =>
           if negb (set_mem (str_lower word) existing_queried_words)
           then new_words_to_query ++ [word]
           else new_words_to_query)
        words_from_text []
    | DbOperationalError => words_from_text
    | DbOtherError => words_from_text
    end
  end.

End Filtering.

(** ** Python values read from JSON *)

Inductive json : Type :=
| JNull
| JBool (b : bool)
| JInt (z : Z)
| JFloat (f : spec_float)
| JStr (s : pystr)
| JArr (xs : list json)
| JObj (kvs : list (pystr * json)).

(** Truth value of an object in a condition. *)
Definition truthy (v : json) : bool :=
  match v with
  | JNull => false
  | JBool b => b
  | JInt z => negb (z =? 0)%Z
  | JFloat (S754_zero _) => false
  | JFloat _ => true
  | JStr [] => false
  | JStr (_ :: _) => true
  | JArr [] => false
  | JArr (_ :: _) => true
  | JObj [] => false
  | JObj (_ :: _) => true
  end.

Fixpoint dict_lookup (k : pystr) (kvs : list (pystr * json)) : option json :=
  match kvs with
  | [] => None
  | (k', v) :: rest => if str_eqb k k' then Some v else dict_lookup k rest
  end.

Definition dict_keys (kvs : list (pystr * json)) : list pystr := map fst kvs.

(** [sub in s] on strings. *)
Fixpoint str_contains (sub s : pystr) : bool :=
  startswith sub s ||
  match s with
  | [] => false
  | _ :: t => str_contains sub t
  end.

Inductive exn : Type :=
| KeyError (k : pystr)
| TypeError
| AttributeError
| UnicodeEncodeError
| OSError (msg : pystr)
| ApiError (msg : pystr).

Inductive outcome (A : Type) : Type :=
| Ok (a : A)
| Raise (e : exn).
Arguments Ok {A} a.
Arguments Raise {A} e.

(** [v[k]] with a string key. *)
Definition subscript (v : json) (k : pystr) : outcome json :=
  match v with
  | JObj kvs =>
    match dict_lookup k kvs with
    | Some x => Ok x
    | None => Raise (KeyError k)
    end
  | _ => Raise TypeError
  end.

(** [v.get(k, default)]; only a [dict] has the method. *)
Definition method_get (v : json) (k : pystr) (default : json) : outcome json :=
  match v with
  | JObj kvs =>
    match dict_lookup k kvs with
    | Some x => Ok x
    | None => Ok default
    end
  | _ => Raise AttributeError
  end.

(** The elements a [for] loop over [v] visits. *)
Definition py_iter (v : json) : outcome (list json) :=
  match v with
  | JArr xs => Ok xs
  | JObj kvs => Ok (map (fun kv => JStr (fst kv)) kvs)
  | JStr s => Ok (map (fun c => JStr [c]) s)
  | _ => Raise TypeError
  end.

(** [k in v] with a string [k]. *)
Definition py_in (k : pystr) (v : json) : outcome bool :=
  match v with
  | JObj kvs =>
    Ok (match dict_lookup k kvs with Some _ => true | None => false end)
  | JArr xs =>
    Ok (existsb (fun x => match x with JStr s => str_eqb k s | _ => false end)
          xs)
  | JStr s => Ok (str_contains k s)
  | _ => Raise TypeError
  end.

(** ** SQL text *)

Definition QUOTE : N := 39%N.
Definition PIPE : N := 124%N.

Section Escaping.

(** [str(v)] of a value that is not a string. *)
Variable py_repr : json -> pystr.

Definition py_str (v : json) : pystr :=
  match v with
  | JStr s => s
  | _ => py_repr v
  end.

Definition escape_sql_string (value : json) : pystr :=
  match value with
  | JNull => u "NULL"
  | _ => [QUOTE] ++ str_replace [QUOTE] [QUOTE; QUOTE] (py_str value)
         ++ [QUOTE]
  end.

End Escaping.

(** [[^|]*\|] once the group has taken its first character: the group is
    greedy, and it cannot give a character back since the closing [\|] only
    matches where the group cannot grow. *)
Fixpoint span_rest (s : pystr) : option pystr :=
  match s with
  | [] => None
  | c :: t =>
    if (c =? PIPE)%N then Some [] else option_map (cons c) (span_rest t)
  end.

(** [\|([^|]+)\|] at the start of [s]: the text of group 1. *)
Definition match_span (s : pystr) : option pystr :=
  match s with
  | p :: c :: t =>
    if (p =? PIPE)%N && negb (c =? PIPE)%N
    then option_map (cons c) (span_rest t)
    else None
  | _ => None
  end.

(** [re.sub(r'\|([^|]+)\|', r'<em>\1</em>', s)] *)
Fixpoint sub_em_from (skip : nat) (s : pystr) : pystr :=
  match s with
  | [] => []
  | c :: t =>
    match skip with
    | S k => sub_em_from k t
    | O =>
      match match_span s with
      | Some x => u "<em>" ++ x ++ u "</em>" ++ sub_em_from (S (length x)) t
      | None => c :: sub_em_from 0 t
      end
    end
  end.

Definition transform_example_text (text : json) : outcome json :=
  match text with
  | JNull => Ok JNull
  | JStr s => Ok (JStr (sub_em_from 0 s))
  | _ => Raise TypeError
  end.

(** ** Effects *)

Definition MAX_RETRIES : nat := 5.
Definition RETRY_DELAY_SECONDS : nat := 5.

(** The reason given to [log_error]. *)
Inductive reason : Type :=
| NoContentAfterMaxRetries
| ParseFailedAfterMaxRetries
| UnexpectedAfterMaxRetries (e : exn)
| SkippingTranslation
| MissingKey (k : pystr)
| UnexpectedDuringSqlGeneration (e : exn).

(** One call of [log_error]: one block appended to [ERROR_LOG_FILE]. *)
Record error_entry : Type := {
  err_word : pystr;
  err_reason : reason;
  err_data : json
}.

(** The lines printed on the console. *)
Inductive message : Type :=
| MsgProcessingAttempt (word : pystr) (attempt : nat)
| MsgNoContent (word : pystr) (attempt : nat)
| MsgRetrying
| MsgParsed (word : pystr) (attempt : nat)
| MsgJsonLogWarning (log_e : exn)
| MsgSqlFailed (word : pystr)
| MsgParseFailed (word : pystr) (attempt : nat)
| MsgRetryingApiCall
| MsgUnexpectedError (word : pystr) (attempt : nat) (e : exn)
| MsgJsonDecodeFailed (raw : pystr)
| MsgUnexpectedParsingError
| MsgLoggedError (word : pystr)
| MsgProcessingWord (index total : nat) (word : pystr)
| MsgWordProcessed (word : pystr)
| MsgWordFailed (word : pystr)
| MsgPausing.

(** What the script does to the outside, in the order it happens.  Writes
    to the console and to the error log are taken to succeed; a write to
    the log of successful responses may fail, which the source handles. *)
Inductive event : Type :=
| Printed (m : message)
| Slept (seconds : nat)
| ErrorLogged (e : error_entry)
| SuccessLogged (word : pystr) (response : json)
| ModelQueried (word : pystr).

Record world : Type := {
  sql_insert_statements : list pystr;
  trace : list event;
  api_calls : nat
}.

Definition emit (e : event) (st : world) : world :=
  {| sql_insert_statements := sql_insert_statements st;
     trace := trace st ++ [e];
     api_calls := api_calls st |}.

Definition print (m : message) : world -> world := emit (Printed m).
Definition sleep (seconds : nat) : world -> world := emit (Slept seconds).

Definition append_sql (stmt : pystr) (st : world) : world :=
  {| sql_insert_statements := sql_insert_statements st ++ [stmt];
     trace := trace st;
     api_calls := api_calls st |}.

(** One block appended to ERROR_LOG_FILE and one line on the console.  The
    source has no handler for a failure of this write; it is taken to
    succeed. *)
Definition log_error (word_query : pystr) (r : reason) (raw_output_data : json)
    (st : world) : world :=
  print (MsgLoggedError word_query)
    (emit (ErrorLogged {| err_word := word_query; err_reason := r;
                          err_data := raw_output_data |}) st).

Definition is_error_logged (e : event) : bool :=
  match e with ErrorLogged _ => true | _ => false end.
Definition is_success_logged (e : event) : bool :=
  match e with SuccessLogged _ _ => true | _ => false end.
Definition is_slept (e : event) : bool :=
  match e with Slept _ => true | _ => false end.
Definition is_model_queried (e : event) : bool :=
  match e with ModelQueried _ => true | _ => false end.

(** The entries of the error log, of the successful-responses log, and the
    pauses, as read off a trace. *)
Definition error_log (t : list event) : list event := filter is_error_logged t.
Definition success_log (t : list event) : list event :=
  filter is_success_logged t.
Definition sleeps (t : list event) : list event := filter is_slept t.
Definition model_queries (t : list event) : list event :=
  filter is_model_queried t.

(** Statements that raise and write: the world is kept when an exception
    leaves a statement. *)
Definition M (A : Type) : Type := world -> outcome A * world.

Definition ret {A} (a : A) : M A := fun st => (Ok a, st).
Definition bind {A B} (m : M A) (k : A -> M B) : M B :=
  fun st =>
    match m st with
    | (Ok a, st') => k a st'
    | (Raise e, st') => (Raise e, st')
    end.
Definition lift {A} (o : outcome A) : M A := fun st => (o, st).
Definition effect (f : world -> world) : M unit := fun st => (Ok tt, f st).

Declare Scope py_scope.
Delimit Scope py_scope with py.
Notation "x <- m ;; k" := (bind m (fun x => k))
  (at level 61, m at next level, right associativity) : py_scope.
Notation "m ;;; k" := (bind m (fun _ => k))
  (at level 61, right associativity) : py_scope.

(** [for x in xs: body] *)
Fixpoint for_each {A} (xs : list A) (body : A -> M unit) : M unit :=
  match xs with
  | [] => ret tt
  | x :: rest => bind (body x) (fun _ => for_each rest body)
  end.

(** ** SQL synthesis *)

Definition WORDS_INSERT : pystr :=
  u "INSERT OR IGNORE INTO words (queried_word, base_form_json, primary_type, info_json) VALUES ".
Definition TRANSLATIONS_INSERT : pystr :=
  u "INSERT INTO word_translations (word_id, meaning, additional_info, meta_type) VALUES ".
Definition EXAMPLES_INSERT : pystr :=
  u "INSERT INTO translation_examples (translation_id, source_text, target_text) VALUES ".

Open Scope py_scope.

Section SqlGeneration.

(** [json.dumps] and [str] of the Python runtime. *)
Variable json_dumps : json -> pystr.
Variable py_repr : json -> pystr.

Local Abbreviation esc := (escape_sql_string py_repr).

Definition primary_type (word_info_from_model : json) : M json :=
  base_form_content <-
    lift (method_get word_info_from_model (u "base_form") JNull) ;;
  db_primary_type <-
    match base_form_content with
    | JObj kvs =>
      let types_present := dict_keys kvs in
      ret (match types_present with
           | [] => JNull
           | _ :: _ => JStr (str_join (u "/") (sorted types_present))
           end)
    | JStr _ =>
      additional_info_content <-
        lift (method_get word_info_from_model (u "additional_info") JNull) ;;
      ret (match additional_info_content with
           | JObj ai =>
             match dict_lookup (u "type") ai with
             | Some t => t
             | None =>
               match dict_lookup (u "usage") ai with
               | Some us => us
               | None => JNull
               end
             end
           | _ => JNull
           end)
    | _ => ret JNull
    end ;;
  ret (if truthy db_primary_type then db_primary_type
       else JStr (u "unknown")).

Definition word_statement
    (db_queried_word db_base_form_json_str : pystr) (db_primary_type : json)
    (db_info_json_str : pystr) : pystr :=
  WORDS_INSERT ++ u "(" ++ esc (JStr db_queried_word) ++ u ", "
  ++ esc (JStr db_base_form_json_str) ++ u ", " ++ esc db_primary_type
  ++ u ", " ++ esc (JStr db_info_json_str) ++ u ");".

Definition word_id_subquery_of (db_queried_word : pystr) : pystr :=
  u "(SELECT word_id FROM words WHERE queried_word = "
  ++ esc (JStr db_queried_word) ++ u ")".

Definition translation_statement
    (word_id_subquery : pystr)
    (meaning additional_info_trans meta_type_trans : json) : pystr :=
  TRANSLATIONS_INSERT ++ u "(" ++ word_id_subquery ++ u ", " ++ esc meaning
  ++ u ", " ++ esc additional_info_trans ++ u ", " ++ esc meta_type_trans
  ++ u ");".

Definition translation_id_subquery_of
    (word_id_subquery : pystr)
    (meaning additional_info_trans meta_type_trans : json) : pystr :=
  u "(SELECT translation_id FROM word_translations WHERE word_id = "
  ++ word_id_subquery ++ u " "
  ++ u "AND meaning = " ++ esc meaning ++ u " "
  ++ u "AND COALESCE(additional_info, 'NULL_MARKER') = COALESCE("
  ++ esc additional_info_trans ++ u ", 'NULL_MARKER') "
  ++ u "AND COALESCE(meta_type, 'NULL_MARKER') = COALESCE("
  ++ esc meta_type_trans ++ u ", 'NULL_MARKER') "
  ++ u "ORDER BY translation_id DESC LIMIT 1)".

Definition example_statement
    (translation_id_subquery : pystr)
    (source_text_transformed target_text_transformed : json) : pystr :=
  EXAMPLES_INSERT ++ u "(" ++ translation_id_subquery ++ u ", "
  ++ esc source_text_transformed ++ u ", " ++ esc target_text_transformed
  ++ u ");".

(** Body of the loop over [trans_data.get('examples', [])]. *)
Definition for_example (translation_id_subquery : pystr) (ex_data : json)
  : M unit :=
  source_text_raw <- lift (method_get ex_data (u "source") JNull) ;;
  target_text_raw <- lift (method_get ex_data (u "target") JNull) ;;
  if truthy source_text_raw && truthy target_text_raw then
    source_text_transformed <-
      lift (transform_example_text source_text_raw) ;;
    target_text_transformed <-
      lift (transform_example_text target_text_raw) ;;
    effect (append_sql
              (example_statement translation_id_subquery
                 source_text_transformed target_text_transformed))
  else ret tt.

(** Body of the loop over the translations. *)
Definition for_translation
    (original_queried_word word_id_subquery : pystr) (trans_data : json)
  : M unit :=
  meaning <- lift (method_get trans_data (u "meaning") JNull) ;;
  additional_info_trans <-
    lift (method_get trans_data (u "additionalInfo") JNull) ;;
  meta_type_trans <- lift (method_get trans_data (u "type") JNull) ;;
  match meaning with
  | JNull =>
    effect (log_error original_queried_word SkippingTranslation trans_data)
  | _ =>
    effect (append_sql
              (translation_statement word_id_subquery meaning
                 additional_info_trans meta_type_trans)) ;;;
    let translation_id_subquery :=
      translation_id_subquery_of word_id_subquery meaning
        additional_info_trans meta_type_trans in
    examples <- lift (method_get trans_data (u "examples") (JArr [])) ;;
    ex_list <- lift (py_iter examples) ;;
    for_each ex_list (for_example translation_id_subquery)
  end.

(** The [try] block of [extract_and_generate_sql_for_word]. *)
Definition generate_sql
    (assistant_content_json : json) (original_queried_word : pystr)
  : M unit :=
  word_info_from_model <-
    lift (subscript assistant_content_json (u "word_info")) ;;
  all_translations_from_model <-
    lift (method_get assistant_content_json (u "translations") (JArr [])) ;;
  let db_queried_word := original_queried_word in
  base_form <- lift (method_get word_info_from_model (u "base_form") JNull) ;;
  let db_base_form_json_str := json_dumps base_form in
  additional_info <-
    lift (method_get word_info_from_model (u "additional_info") JNull) ;;
  let db_info_json_str := json_dumps additional_info in
  db_primary_type <- primary_type word_info_from_model ;;
  effect (append_sql
            (word_statement db_queried_word db_base_form_json_str
               db_primary_type db_info_json_str)) ;;;
  let word_id_subquery := word_id_subquery_of db_queried_word in
  translations <- lift (py_iter all_translations_from_model) ;;
  for_each translations
    (for_translation original_queried_word word_id_subquery).

Definition extract_and_generate_sql_for_word
    (assistant_content_json : json) (original_queried_word : pystr)
    (st : world) : bool * world :=
  match generate_sql assistant_content_json original_queried_word st with
  | (Ok _, st') => (true, st')
  | (Raise (KeyError k), st') =>
    (false,
     log_error original_queried_word (MissingKey k) assistant_content_json
       st')
  | (Raise e, st') =>
    (false,
     log_error original_queried_word (UnexpectedDuringSqlGeneration e)
       assistant_content_json st')
  end.

End SqlGeneration.

(** ** Parsing the model output *)

Section Parsing.

(** [json.loads]; [None] stands for [json.JSONDecodeError]. *)
Variable json_loads : pystr -> option json.

(** The result is [JNull] where the source returns [None]. *)
Definition parse_model_output_for_assistant_content
    (raw_streamed_output : pystr) (st : world) : json * world :=
  match json_loads raw_streamed_output with
  | None => (JNull, print (MsgJsonDecodeFailed raw_streamed_output) st)
  | Some inner_json_data =>
    match py_in (u "word_info") inner_json_data with
    | Ok true => (inner_json_data, st)
    | Ok false => (JNull, st)
    | Raise _ => (JNull, print MsgUnexpectedParsingError st)
    end
  end.

End Parsing.

(** ** Querying the model with retries *)

(** What one streamed request to the endpoint does: it raises, or it yields
    the texts of the chunks. *)
Inductive api_result : Type :=
| ApiRaises (e : exn)
| ApiChunks (chunks : list pystr).

(** How an iteration of a [for] loop ends. *)
Inductive control : Type :=
| Next
| Return (b : bool).

Section Retry.

Variable json_loads : pystr -> option json.
Variable json_dumps : json -> pystr.
Variable py_repr : json -> pystr.
Variable is_space : N -> bool.

(** The endpoint: its answer to the request for a word, given how many
    requests were made before. *)
Variable model : pystr -> nat -> api_result.

(** Appending an entry to SUCCESSFUL_JSON_LOG_FILE: the exception that
    [open] or [f_json_log.write] raises for the word and the response, if
    any.  At most one entry is written for a word, so the outcome is given
    by the word and the response. *)
Variable json_log_write : pystr -> json -> option exn.

Fixpoint str_lstrip (s : pystr) : pystr :=
  match s with
  | [] => []
  | c :: t => if is_space c then str_lstrip t else s
  end.

Definition str_strip (s : pystr) : pystr :=
  rev (str_lstrip (rev (str_lstrip s))).

Definition get_translation_from_model (original_word_to_query : pystr)
  : M pystr :=
  fun st =>
    let st' :=
      {| sql_insert_statements := sql_insert_statements st;
         trace := trace st ++ [ModelQueried original_word_to_query];
         api_calls := S (api_calls st) |} in
    match model original_word_to_query (api_calls st) with
    | ApiRaises e => (Raise e, st')
    | ApiChunks raw_model_output_chunks =>
      (Ok (concat raw_model_output_chunks), st')
    end.

(** [not raw or not raw.strip()] *)
Definition no_content (raw : pystr) : bool :=
  negb (truthy (JStr raw)) || negb (truthy (JStr (str_strip raw))).

(** One iteration of the loop over [range(1, MAX_RETRIES + 1)];
    [raw_for_logging] is [full_raw_streamed_output_for_logging].  Of the
    statements in the [try] block the request is the one that raises: the
    parser and SQL generation catch what is raised in them, and the write
    to the log of successful responses has a handler of its own. *)
Definition attempt_once
    (original_word_to_query : pystr) (attempt : nat)
    (raw_for_logging : pystr) (st : world) : control * pystr * world :=
  let st := print (MsgProcessingAttempt original_word_to_query attempt) st in
  match get_translation_from_model original_word_to_query st with
  | (Ok full_raw_streamed_output, st) =>
    let raw_for_logging := full_raw_streamed_output in
    if no_content full_raw_streamed_output then
      let st := print (MsgNoContent original_word_to_query attempt) st in
      if attempt <? MAX_RETRIES then
        (Next, raw_for_logging,
         sleep RETRY_DELAY_SECONDS (print MsgRetrying st))
      else
        (Return false, raw_for_logging,
         log_error original_word_to_query NoContentAfterMaxRetries
           (JStr raw_for_logging) st)
    else
      let (assistant_content_json, st) :=
        parse_model_output_for_assistant_content json_loads
          full_raw_streamed_output st in
      if truthy assistant_content_json then
        let st := print (MsgParsed original_word_to_query attempt) st in
        let (generated, st) :=
          extract_and_generate_sql_for_word json_dumps py_repr
            assistant_content_json original_word_to_query st in
        if generated then
          match json_log_write original_word_to_query assistant_content_json
          with
          | None =>
            (Return true, raw_for_logging,
             emit
               (SuccessLogged original_word_to_query assistant_content_json)
               st)
          | Some log_e =>
            (Return true, raw_for_logging,
             print (MsgJsonLogWarning log_e) st)
          end
        else
          (Return false, raw_for_logging,
           print (MsgSqlFailed original_word_to_query) st)
      else
        let st := print (MsgParseFailed original_word_to_query attempt) st in
        if attempt <? MAX_RETRIES then
          (Next, raw_for_logging,
           sleep RETRY_DELAY_SECONDS (print MsgRetryingApiCall st))
        else
          (Return false, raw_for_logging,
           log_error original_word_to_query ParseFailedAfterMaxRetries
             (JStr raw_for_logging) st)
  | (Raise e, st) =>
    let st :=
      print (MsgUnexpectedError original_word_to_query attempt e) st in
    if attempt <? MAX_RETRIES then
      (Next, raw_for_logging,
       sleep RETRY_DELAY_SECONDS (print MsgRetrying st))
    else
      (Return false, raw_for_logging,
       log_error original_word_to_query (UnexpectedAfterMaxRetries e)
         (JStr (if truthy (JStr raw_for_logging) then raw_for_logging
                else u "No raw output captured due to early exception."))
         st)
  end.

Fixpoint retry_loop
    (original_word_to_query : pystr) (attempts : list nat)
    (raw_for_logging : pystr) (st : world) : bool * world :=
  match attempts with
  | [] => (false, st)
  | attempt :: rest =>
    match attempt_once original_word_to_query attempt raw_for_logging st with
    | (Return b, _, st') => (b, st')
    | (Next, raw_for_logging', st') =>
      retry_loop original_word_to_query rest raw_for_logging' st'
    end
  end.

Definition process_word_with_retries
    (original_word_to_query : pystr) (st : world) : bool * world :=
  retry_loop original_word_to_query (seq 1 MAX_RETRIES) [] st.

(** ** The main processing loop *)

(** The body of [for i, word_query in enumerate(words_to_process_query)];
    [total] is [len(words_to_process_query)]. *)
Definition process_indexed_word
    (total i : nat) (word_query : pystr)
    (counts : nat * nat) (st : world) : (nat * nat) * world :=
  let '(successful_words, failed_words_count) := counts in
  let st := print (MsgProcessingWord (i + 1) total word_query) st in
  let (processed, st) := process_word_with_retries word_query st in
  let (counts, st) :=
    if processed
    then ((S successful_words, failed_words_count),
          print (MsgWordProcessed word_query) st)
    else ((successful_words, S failed_words_count),
          print (MsgWordFailed word_query) st) in
  if ((i + 1) mod 10 =? 0) && (10 <? total)
  then (counts, sleep RETRY_DELAY_SECONDS (print MsgPausing st))
  else (counts, st).

Fixpoint main_loop
    (total i : nat) (words : list pystr)
    (counts : nat * nat) (st : world) : (nat * nat) * world :=
  match words with
  | [] => (counts, st)
  | word_query :: rest =>
    let (counts, st) := process_indexed_word total i word_query counts st in
    main_loop total (S i) rest counts st
  end.

Definition process_all_words (words_to_process_query : list pystr)
    (st : world) : (nat * nat) * world :=
  main_loop (length words_to_process_query) 0 words_to_process_query (0, 0)
    st.

End Retry.

(** The indices after which the main loop paused, as read off a trace.
    A pause of the main loop is a [Slept] event between the line that
    reports the result for a word and the line that announces the next
    word; it is attributed to the word announced last.  The pauses between
    the attempts for a word come before its result is reported
    ([processed] is false) and are not counted. *)
Fixpoint pauses_after (current : nat) (processed : bool) (t : list event)
  : list nat :=
  match t with
  | [] => []
  | Printed (MsgProcessingWord index _ _) :: rest =>
    pauses_after index false rest
  | Printed (MsgWordProcessed _) :: rest => pauses_after current true rest
  | Printed (MsgWordFailed _) :: rest => pauses_after current true rest
  | Slept _ :: rest =>
    if processed then current :: pauses_after current processed rest
    else pauses_after current processed rest
  | _ :: rest => pauses_after current processed rest
  end.

(** * Vocabulary of the properties *)

(** ** Order and markup *)

Definition str_le (a b : pystr) : Prop := str_leb a b = true.

Definition str_lt (a b : pystr) : Prop := str_ltb a b = true.

Definition no_pipe (s : pystr) : Prop := Forall (fun c => c <> PIPE) s.

(** The pieces of a text between its pipes: the text up to the first
    pipe, and then the text behind each pipe up to the next one. *)
Fixpoint split_pipes (s : pystr) : list pystr :=
  match s with
  | [] => [[]]
  | c :: t =>
    if (c =? PIPE)%N then [] :: split_pipes t
    else
      match split_pipes t with
      | p :: pieces => (c :: p) :: pieces
      | [] => [[c]]
      end
  end.

(** The text behind a pipe with its spans rewritten, given as the pieces
    behind that pipe and behind the pipes after it.  A first piece that is
    not empty and is followed by a pipe is a span, and the piece behind
    the closing pipe is plain text; otherwise the pipe stays, and the scan
    goes on with the first piece as plain text up to the next pipe. *)
Fixpoint render_after_pipe (pieces : list pystr) : pystr :=
  match pieces with
  | [] => []
  | [p] => PIPE :: p
  | [] :: ((_ :: _) as more) => PIPE :: render_after_pipe more
  | ((_ :: _) as x) :: q :: rest =>
    u "<em>" ++ x ++ u "</em>" ++ q ++ render_after_pipe rest
  end.

(** A text with every span |x|, x not empty and without a pipe, rewritten
    to <em>x</em>, the spans being taken from left to right. *)
Definition rewrite_spans (text : pystr) : pystr :=
  match split_pipes text with
  | [] => []
  | p0 :: pieces => p0 ++ render_after_pipe pieces
  end.

(** ** Worlds and traces *)

(** [advances st st' d n]: from [st] to [st'] the events [d] happened,
    [n] requests were sent, and no SQL statement was added. *)
Definition advances (st st' : world) (d : list event) (n : nat) : Prop :=
  sql_insert_statements st' = sql_insert_statements st /\
  trace st' = trace st ++ d /\
  api_calls st' = api_calls st + n.

(** Events that neither pause, nor query the model, nor write to the log of
    successful responses. *)
Definition only_logs (d : list event) : Prop :=
  sleeps d = [] /\ success_log d = [] /\ model_queries d = [].

Definition logs_only (e : event) : bool :=
  negb (is_slept e || is_success_logged e || is_model_queried e).

(** Events other than the console lines of the main loop, which announce
    a word, report its result and announce a pause. *)
Definition plain (e : event) : bool :=
  match e with
  | Printed MsgPausing => false
  | Printed (MsgProcessingWord _ _ _) => false
  | Printed (MsgWordProcessed _) => false
  | Printed (MsgWordFailed _) => false
  | _ => true
  end.

(** [st] with statements and events added to it. *)
Definition grow (st : world) (stmts : list pystr) (d : list event) : world :=
  {| sql_insert_statements := sql_insert_statements st ++ stmts;
     trace := trace st ++ d;
     api_calls := api_calls st |}.

(** A computation that does the same in every world. *)
Definition uniform {A} (m : M A) : Prop :=
  exists o stmts d, forall st, m st = (o, grow st stmts d).

(** Two worlds in which the same statements were generated, the same
    requests sent, the same pauses made and the same entries written to
    the log of successful responses, and whose error logs have as many
    entries: they differ at most in console lines and in what the entries
    of the error log say. *)
Definition same_course (st1 st2 : world) : Prop :=
  sql_insert_statements st1 = sql_insert_statements st2 /\
  api_calls st1 = api_calls st2 /\
  model_queries (trace st1) = model_queries (trace st2) /\
  sleeps (trace st1) = sleeps (trace st2) /\
  success_log (trace st1) = success_log (trace st2) /\
  length (error_log (trace st1)) = length (error_log (trace st2)).

(** A computation that sends no request and adds only events of [P]. *)
Definition confined (P : event -> bool) {A} (m : M A) : Prop :=
  forall st,
    api_calls (snd (m st)) = api_calls st /\
    exists d, trace (snd (m st)) = trace st ++ d /\ forallb P d = true.

(** ** Replies of the model *)

Section Replies.

Variable json_loads : pystr -> option json.
Variable is_space : N -> bool.

(** The value [parse_model_output_for_assistant_content] returns. *)
Definition parse_result (raw : pystr) : json :=
  match json_loads raw with
  | None => JNull
  | Some j =>
    match py_in (u "word_info") j with
    | Ok true => j
    | _ => JNull
    end
  end.

(** A reply that ends an attempt in an unexpected exception, an empty
    response or a parse failure. *)
Definition retryable (reply : api_result) : bool :=
  match reply with
  | ApiRaises _ => true
  | ApiChunks chunks =>
    no_content is_space (concat chunks)
    || negb (truthy (parse_result (concat chunks)))
  end.

End Replies.

(** ** Statements generated for a response *)

(** The three kinds of statement, told apart by how they begin. *)
Definition is_word_insert (stmt : pystr) : bool :=
  startswith (u "INSERT OR IGNORE INTO words ") stmt.

Definition is_translation_insert (stmt : pystr) : bool :=
  startswith (u "INSERT INTO word_translations ") stmt.

Definition is_example_insert (stmt : pystr) : bool :=
  startswith (u "INSERT INTO translation_examples ") stmt.

Definition count_where {A} (f : A -> bool) (l : list A) : nat :=
  length (filter f l).

(** The member [k] of an object, [default] when it is absent. *)
Definition field (k : pystr) (default : json) (v : json) : json :=
  match method_get v k default with
  | Ok x => x
  | Raise _ => default
  end.

Definition elements (v : json) : list json :=
  match py_iter v with
  | Ok xs => xs
  | Raise _ => []
  end.

(** The translations of a response, and the examples of a translation. *)
Definition translations_of (response : json) : list json :=
  elements (field (u "translations") (JArr []) response).

Definition examples_of (translation : json) : list json :=
  elements (field (u "examples") (JArr []) translation).

(** The meaning of a translation is present and not null. *)
Definition has_meaning (translation : json) : bool :=
  match field (u "meaning") JNull translation with
  | JNull => false
  | _ => true
  end.

Definition is_nonempty_str (v : json) : bool :=
  match v with
  | JStr (_ :: _) => true
  | _ => false
  end.

(** Source and target text of an example are both non-empty. *)
Definition example_complete (example : json) : bool :=
  is_nonempty_str (field (u "source") JNull example)
  && is_nonempty_str (field (u "target") JNull example).

Definition is_skip_entry (word : pystr) (e : event) : bool :=
  match e with
  | ErrorLogged {| err_word := w; err_reason := SkippingTranslation |} =>
    str_eqb w word
  | _ => false
  end.

Definition example_form (stmt : pystr) : Prop :=
  is_word_insert stmt = false /\ is_translation_insert stmt = false /\
  is_example_insert stmt = true.

(** What a round of the loop over the translations appends when it does
    not raise. *)
Definition translation_outcome (w : pystr) (t : json)
    (stmts : list pystr) (d : list event) : Prop :=
  count_where is_word_insert stmts = 0 /\
  count_where is_translation_insert stmts
  = (if has_meaning t then 1 else 0) /\
  count_where is_example_insert stmts
  = (if has_meaning t then count_where example_complete (examples_of t)
     else 0) /\
  length stmts
  = (if has_meaning t then 1 + count_where example_complete (examples_of t)
     else 0) /\
  length (error_log d) = (if has_meaning t then 0 else 1) /\
  forallb (is_skip_entry w) (error_log d) = true.

(** The number of examples with non-empty source and target text among
    the translations that have a meaning. *)
Definition complete_examples (ts : list json) : nat :=
  list_sum
    (map (fun t => count_where example_complete (examples_of t))
       (filter has_meaning ts)).

Definition translations_outcome (w : pystr) (ts : list json)
    (stmts : list pystr) (d : list event) : Prop :=
  count_where is_word_insert stmts = 0 /\
  count_where is_translation_insert stmts = count_where has_meaning ts /\
  count_where is_example_insert stmts = complete_examples ts /\
  length stmts = count_where has_meaning ts + complete_examples ts /\
  length (error_log d) = count_where (fun t => negb (has_meaning t)) ts /\
  forallb (is_skip_entry w) (error_log d) = true.

(** ** Sample runs *)

Definition empty_world : world :=
  {| sql_insert_statements := []; trace := []; api_calls := 0 |}.

(** [json.dumps] and [str] on the values the sample runs reach: [None] and
    strings without characters to escape. *)
Definition sample_json_dumps (v : json) : pystr :=
  match v with
  | JStr s => [34%N] ++ s ++ [34%N]
  | _ => u "null"
  end.

Definition sample_py_repr (v : json) : pystr :=
  match v with
  | JBool true => u "True"
  | JBool false => u "False"
  | _ => u "None"
  end.

(** The text of the JSON object whose only member is a null word_info. *)
Definition null_info_text : pystr :=
  [123%N; 34%N] ++ u "word_info" ++ [34%N] ++ u ": null}".

Definition null_info_json : json := JObj [(u "word_info", JNull)].

(** [json.loads] on the text above; other texts are taken not to be JSON. *)
Definition sample_json_loads (raw : pystr) : option json :=
  if str_eqb raw null_info_text then Some null_info_json else None.

(** Every entry can be appended to the log of successful responses. *)
Definition json_log_writable : pystr -> json -> option exn :=
  fun _ _ => None.

Definition silent_model : pystr -> nat -> api_result :=
  fun _ _ => ApiChunks [].

Definition failing_model : pystr -> nat -> api_result :=
  fun _ _ => ApiRaises (ApiError (u "deadline exceeded")).

Definition null_info_model : pystr -> nat -> api_result :=
  fun _ _ => ApiChunks [null_info_text].

(** A response for "haus": one translation with an example, and one
    translation without a meaning. *)
Definition haus_json : json :=
  JObj
    [(u "word_info", JObj [(u "base_form", JStr (u "Haus"))]);
     (u "translations",
      JArr
        [JObj
           [(u "meaning", JStr (u "house"));
            (u "examples",
             JArr
               [JObj [(u "source", JStr (u "Das |Haus| ist groß"));
                      (u "target", JStr (u "The |house| is big"))];
                JObj [(u "source", JStr (u "Haus")); (u "target", JStr [])]])];
         JObj [(u "meaning", JNull)]])].

(** A response whose only translation has no meaning but carries an
    example with source and target text. *)
Definition orphan_example_json : json :=
  JObj
    [(u "word_info", JObj [(u "base_form", JStr (u "Haus"))]);
     (u "translations",
      JArr
        [JObj
           [(u "meaning", JNull);
            (u "examples",
             JArr
               [JObj [(u "source", JStr (u "Das Haus"));
                      (u "target", JStr (u "The house"))]])]])].

(** * Vocabulary of the further properties *)

(** ** Tokens in their context *)

(** A non-empty run of letters of the token pattern. *)
Definition letters (w : pystr) : Prop :=
  w <> [] /\ Forall (fun c => in_token_class c = true) w.

(** The character before the position reached after reading [a], [prev]
    being the character before [a]. *)
Definition prev_after (prev : option N) (a : pystr) : option N :=
  fold_left (fun _ c => Some c) a prev.

(** ** Reading a SQL string literal *)

(** The text between the quotes of a SQL string literal: two quotes stand
    for one, a single quote closes the literal, and nothing may follow. *)
Fixpoint sql_literal_body (s : pystr) : option pystr :=
  match s with
  | [] => None
  | c :: t =>
    if (c =? QUOTE)%N then
      match t with
      | [] => Some []
      | d :: t' =>
        if (d =? QUOTE)%N
        then option_map (cons QUOTE) (sql_literal_body t')
        else None
      end
    else option_map (cons c) (sql_literal_body t)
  end.

Definition sql_literal_value (s : pystr) : option pystr :=
  match s with
  | [] => None
  | q :: t => if (q =? QUOTE)%N then sql_literal_body t else None
  end.

(** ** Responses that follow the data model *)

Definition text_or_absent (v : json) : bool :=
  match v with
  | JStr _ | JNull => true
  | _ => false
  end.

(** An example is an object whose source and target are strings, null or
    absent. *)
Definition wf_example (example : json) : bool :=
  match example with
  | JObj _ =>
    text_or_absent (field (u "source") JNull example)
    && text_or_absent (field (u "target") JNull example)
  | _ => false
  end.

(** A translation is an object whose examples, when present, are a list
    of examples. *)
Definition wf_translation (translation : json) : bool :=
  match translation with
  | JObj _ =>
    match field (u "examples") (JArr []) translation with
    | JArr exs => forallb wf_example exs
    | _ => false
    end
  | _ => false
  end.

(** A response is an object whose word_info is an object and whose
    translations, when present, are a list of translations. *)
Definition wf_response (response : json) : bool :=
  match response with
  | JObj _ =>
    match field (u "word_info") JNull response with
    | JObj _ =>
      match field (u "translations") (JArr []) response with
      | JArr ts => forallb wf_translation ts
      | _ => false
      end
    | _ => false
    end
  | _ => false
  end.

(** A computation that leaves the statements it finds in place and only
    adds statements after them. *)
Definition appending {A} (m : M A) : Prop :=
  forall st,
    exists stmts,
      sql_insert_statements (snd (m st)) = sql_insert_statements st ++ stmts.

(** A computation that, whatever the world, ends without raising, without
    a request and without an event: it prints nothing and writes to no
    log. *)
Definition silent (m : M unit) : Prop :=
  forall st,
    exists st',
      m st = (Ok tt, st') /\ trace st' = trace st /\
      api_calls st' = api_calls st.

(** ** What an attempt did *)

Definition is_json_log_warning (e : event) : bool :=
  match e with
  | Printed (MsgJsonLogWarning _) => true
  | _ => false
  end.

(** The warnings that an entry could not be written to the log of
    successful responses. *)
Definition json_log_warnings (t : list event) : list event :=
  filter is_json_log_warning t.

(** Events that are neither a pause, a request, an entry of the log of
    successful responses nor a warning about that log. *)
Definition traced (e : event) : bool :=
  logs_only e && negb (is_json_log_warning e).

Section Recorded.

Variable json_log_write : pystr -> json -> option exn.

(** The events [d] record one success for [word]: a response was written
    to the log of successful responses, or the write failed and the
    warning was printed instead. *)
Definition recorded (word : pystr) (d : list event) : Prop :=
  exists response,
    match json_log_write word response with
    | None =>
      success_log d = [SuccessLogged word response] /\
      json_log_warnings d = []
    | Some log_e =>
      success_log d = [] /\
      json_log_warnings d = [Printed (MsgJsonLogWarning log_e)]
    end.

(** What an attempt for [word] did, read off how it ended. *)
Definition attempt_summary (word : pystr) (attempt : nat) (ctl : control)
    (d : list event) : Prop :=
  length (model_queries d) = 1 /\
  Forall (fun e => e = Slept RETRY_DELAY_SECONDS) (sleeps d) /\
  match ctl with
  | Next =>
    attempt < MAX_RETRIES /\ length (sleeps d) = 1 /\ success_log d = [] /\
    json_log_warnings d = []
  | Return true => sleeps d = [] /\ recorded word d
  | Return false =>
    sleeps d = [] /\ success_log d = [] /\ json_log_warnings d = [] /\
    1 <= length (error_log d)
  end.

End Recorded.

(** ** The script *)

Definition NEWLINE : pystr := [10%N].

(** A string literal that spans lines, given line by line. *)
Definition lines (ls : list pystr) : pystr := str_join NEWLINE ls.

Definition schema_sqls : list pystr :=
  [u "PRAGMA foreign_keys = ON;";
   lines
      [([] : pystr);
       u "        CREATE TABLE IF NOT EXISTS words (";
       u "            word_id INTEGER PRIMARY KEY,";
       u "            queried_word TEXT NOT NULL,";
       u "            base_form_json JSON NOT NULL,";
       u "            primary_type TEXT, ";
       u "            info_json JSON,";
       u "            UNIQUE(queried_word)";
       u "        );";
       u "        "];
   lines
      [([] : pystr);
       u "        CREATE TABLE IF NOT EXISTS word_translations (";
       u "            translation_id INTEGER PRIMARY KEY,";
       u "            word_id INTEGER NOT NULL,";
       u "            meaning TEXT NOT NULL,";
       u "            additional_info TEXT,";
       u "            meta_type TEXT, ";
       u "            FOREIGN KEY (word_id) REFERENCES words(word_id) ON DELETE CASCADE";
       u "        );";
       u "        "];
   lines
      [([] : pystr);
       u "        CREATE TABLE IF NOT EXISTS translation_examples (";
       u "            example_id INTEGER PRIMARY KEY,";
       u "            translation_id INTEGER NOT NULL,";
       u "            source_text TEXT NOT NULL,";
       u "            target_text TEXT NOT NULL,";
       u "            FOREIGN KEY (translation_id) REFERENCES word_translations(translation_id) ON DELETE CASCADE";
       u "        );";
       u "        "];
   u "CREATE INDEX IF NOT EXISTS idx_words_queried_word ON words(queried_word);";
   u "CREATE INDEX IF NOT EXISTS idx_word_translations_word_id ON word_translations(word_id);";
   u "CREATE INDEX IF NOT EXISTS idx_translation_examples_translation_id ON translation_examples(translation_id);"].

Definition generate_schema_sql : pystr :=
  str_join NEWLINE schema_sqls ++ NEWLINE ++ NEWLINE.

Definition DB_NAME : pystr := u "MudadibFullGemini.db".
Definition TEXT_FILE_PATH : pystr :=
  u "C:\Dev\Application\book-prepare\third_book_all_chapters.txt".

(** How the script ends: it runs to its last line, or a name that was
    never assigned is read. *)
Inductive script_end : Type :=
| Finished
| NameError (name : pystr).

(** What a run of the script leaves behind: the world after the words
    were processed, the exception logged as CRITICAL SCRIPT ERROR if any,
    the strings written to SQL_OUTPUT_FILE, and how the run ended.  The
    console lines of the script outside the loop over the words are left
    out. *)
Record script_run : Type := {
  run_world : world;
  run_critical : option exn;
  run_sql_file : list pystr;
  run_end : script_end
}.

(** [for stmt in sql_insert_statements: f_sql.write(stmt + newline)] *)
Definition write_sql_file (st : world) : list pystr :=
  map (fun stmt => stmt ++ NEWLINE) (sql_insert_statements st).

Section Script.

Variable str_lower : pystr -> pystr.
Variable is_alnum : N -> bool.
Variable json_loads : pystr -> option json.
Variable json_dumps : json -> pystr.
Variable py_repr : json -> pystr.
Variable is_space : N -> bool.
Variable model : pystr -> nat -> api_result.
Variable json_log_write : pystr -> json -> option exn.

(** The block under [if __name__ == '__main__'].  [client_init] is the
    exception that [genai.Client] raises, if it raises one. *)
Definition script
    (fs : pystr -> file_read) (db : pystr -> db_outcome)
    (client_init : option exn) : script_run :=
  let st := append_sql generate_schema_sql empty_world in
  let all_words_from_text :=
    read_and_extract_words_from_text_file str_lower is_alnum fs
      TEXT_FILE_PATH in
  match all_words_from_text with
  | [] =>
    {| run_world := st; run_critical := None;
       run_sql_file := write_sql_file st;
       run_end := NameError (u "words_to_process_query") |}
  | _ :: _ =>
    let words_to_process_query :=
      get_new_words_not_in_db str_lower all_words_from_text db DB_NAME in
    match words_to_process_query with
    | [] =>
      {| run_world := st; run_critical := None;
         run_sql_file := write_sql_file st; run_end := Finished |}
    | _ :: _ =>
      match client_init with
      | Some e =>
        {| run_world := st; run_critical := Some e;
           run_sql_file := write_sql_file st; run_end := Finished |}
      | None =>
        let (_, st) :=
          process_all_words json_loads json_dumps py_repr is_space
            model json_log_write
            words_to_process_query st in
        {| run_world := st; run_critical := None;
           run_sql_file := write_sql_file st; run_end := Finished |}
      end
    end
  end.

End Script.

(** ** Further sample runs *)

(** A response for "hund" in which every translation has a meaning. *)
Definition hund_json : json :=
  JObj
    [(u "word_info", JObj [(u "base_form", JStr (u "Hund"))]);
     (u "translations",
      JArr
        [JObj
           [(u "meaning", JStr (u "dog"));
            (u "examples",
             JArr
               [JObj [(u "source", JStr (u "Der |Hund| bellt"));
                      (u "target", JStr (u "The |dog| barks"))]])]])].

(** The text of [hund_json], its double quotes written as code points. *)
Definition hund_text : pystr :=
  str_join [34%N]
    [u "{";
     u "word_info";
     u ": {";
     u "base_form";
     u ": ";
     u "Hund";
     u "}, ";
     u "translations";
     u ": [{";
     u "meaning";
     u ": ";
     u "dog";
     u ", ";
     u "examples";
     u ": [{";
     u "source";
     u ": ";
     u "Der |Hund| bellt";
     u ", ";
     u "target";
     u ": ";
     u "The |dog| barks";
     u "}]}]}"].

Definition hund_json_loads (raw : pystr) : option json :=
  if str_eqb raw hund_text then Some hund_json else None.

(** An endpoint that is silent twice and then answers with [hund_text]. *)
Definition slow_hund_model : pystr -> nat -> api_result :=
  fun _ n => if n <? 2 then ApiChunks [] else ApiChunks [hund_text].

(** No entry can be appended to the log of successful responses. *)
Definition json_log_unwritable : pystr -> json -> option exn :=
  fun _ _ => Some (OSError (u "No space left on device")).

(** * Properties *)

Ltac to_prop :=
  repeat rewrite ?orb_true_iff, ?andb_true_iff, ?orb_false_iff,
    ?andb_false_iff, ?negb_true_iff, ?negb_false_iff, ?N.ltb_lt, ?N.ltb_ge,
    ?N.leb_le, ?N.leb_gt, ?N.eqb_eq, ?N.eqb_neq in *.

(** ** Strings and their order *)

Lemma str_eqb_eq a b : str_eqb a b = true <-> a = b.
Proof. unfold str_eqb; destruct (pystr_eq_dec a b); split; congruence. Qed.

Lemma str_eqb_refl a : str_eqb a a = true.
Proof. now apply str_eqb_eq. Qed.

Lemma str_ltb_irrefl a : str_ltb a a = false.
Proof.
  induction a as [|x a IH]; simpl; [reflexivity|].
  rewrite IH, N.ltb_irrefl, andb_false_r. reflexivity.
Qed.

Lemma str_ltb_trans a b c :
  str_ltb a b = true -> str_ltb b c = true -> str_ltb a c = true.
Proof.
  revert b c. induction a as [|x a IH]; intros [|y b] [|z c]; simpl;
    try discriminate; auto.
  intros Hab Hbc. to_prop.
  destruct Hab as [Hxy|[Hxy Hab]], Hbc as [Hyz|[Hyz Hbc]];
    try (left; lia).
  right. split; [lia|]. eapply IH; eauto.
Qed.

Lemma str_ltb_asym a b : str_ltb a b = true -> str_ltb b a = false.
Proof.
  intros H. destruct (str_ltb b a) eqn:E; [|reflexivity].
  pose proof (str_ltb_trans _ _ _ H E) as F.
  rewrite str_ltb_irrefl in F. discriminate.
Qed.

Lemma str_trichotomy a b :
  str_ltb a b = false -> str_ltb b a = false -> a = b.
Proof.
  revert b. induction a as [|x a IH]; intros [|y b]; simpl;
    try discriminate; auto.
  intros Hab Hba. to_prop.
  destruct Hab as [Hab1 Hab2], Hba as [Hba1 Hba2].
  assert (x = y) by lia. subst y. f_equal.
  apply IH; [destruct Hab2 | destruct Hba2]; auto; congruence.
Qed.

Lemma str_leb_total a b : str_leb a b = false -> str_leb b a = true.
Proof.
  unfold str_leb. to_prop. apply str_ltb_asym.
Qed.

Lemma str_leb_trans a b c :
  str_leb a b = true -> str_leb b c = true -> str_leb a c = true.
Proof.
  unfold str_leb. to_prop. intros Hba Hcb.
  destruct (str_ltb c a) eqn:Hca; [|reflexivity].
  destruct (str_ltb a b) eqn:Hab.
  - rewrite (str_ltb_trans _ _ _ Hca Hab) in Hcb. discriminate.
  - rewrite (str_trichotomy _ _ Hab Hba) in Hca. congruence.
Qed.

Lemma str_leb_neq_ltb a b : str_leb a b = true -> a <> b -> str_ltb a b = true.
Proof.
  unfold str_leb. to_prop. intros Hba Hne.
  destruct (str_ltb a b) eqn:Hab; [reflexivity|].
  elim Hne. now apply str_trichotomy.
Qed.

(** ** Sorting *)

Lemma insert_sorted_In x y l : In x (insert_sorted y l) <-> x = y \/ In x l.
Proof.
  induction l as [|z l IH]; simpl.
  - intuition.
  - destruct (str_leb y z); simpl; rewrite ?IH; intuition.
Qed.

Lemma insert_sorted_sorted y l :
  StronglySorted str_le l -> StronglySorted str_le (insert_sorted y l).
Proof.
  induction 1 as [|z l Hs IH Hz]; simpl.
  - repeat constructor.
  - destruct (str_leb y z) eqn:E.
    + constructor; [constructor; assumption|].
      constructor; [exact E|].
      rewrite Forall_forall in *. intros w Hw.
      eapply str_leb_trans; [exact E|]. now apply Hz.
    + constructor; [assumption|].
      rewrite Forall_forall in *. intros w Hw.
      apply insert_sorted_In in Hw as [->|Hw]; [|now apply Hz].
      now apply str_leb_total.
Qed.

Lemma insert_sorted_NoDup y l :
  ~ In y l -> NoDup l -> NoDup (insert_sorted y l).
Proof.
  intros Hy Hl. induction Hl as [|z l Hz Hl IH]; simpl.
  - repeat constructor. auto.
  - destruct (str_leb y z).
    + constructor; [exact Hy|]. now constructor.
    + constructor.
      * rewrite insert_sorted_In. simpl in Hy. intuition.
      * apply IH. simpl in Hy. intuition.
Qed.

Lemma sorted_In x l : In x (sorted l) <-> In x l.
Proof.
  induction l as [|y l IH]; simpl; [tauto|].
  rewrite insert_sorted_In, IH. intuition.
Qed.

Lemma sorted_sorted l : StronglySorted str_le (sorted l).
Proof.
  induction l as [|y l IH]; simpl; [constructor|].
  now apply insert_sorted_sorted.
Qed.

Lemma sorted_NoDup l : NoDup l -> NoDup (sorted l).
Proof.
  induction 1 as [|y l Hy Hl IH]; simpl; [constructor|].
  apply insert_sorted_NoDup; [|assumption]. now rewrite sorted_In.
Qed.

Lemma sorted_strict l :
  StronglySorted str_le l -> NoDup l -> StronglySorted str_lt l.
Proof.
  induction 1 as [|z l Hs IH Hz]; intros Hnd; [constructor|].
  inversion Hnd as [|? ? Hnotin Hnd']; subst.
  constructor; [now apply IH|].
  rewrite Forall_forall in *. intros w Hw.
  apply str_leb_neq_ltb; [now apply Hz|].
  intros ->. contradiction.
Qed.

Lemma sorted_set_strict l : StronglySorted str_lt (sorted (py_set l)).
Proof.
  apply sorted_strict; [apply sorted_sorted|].
  apply sorted_NoDup, NoDup_nodup.
Qed.

Lemma sorted_set_In x l : In x (sorted (py_set l)) <-> In x l.
Proof. unfold py_set. now rewrite sorted_In, nodup_In. Qed.

(** ** Tokens *)

Section TokenFacts.

Variable is_alnum : N -> bool.

(** A match of the run is a prefix of the text made of class letters. *)
Lemma match_run_prefix last s m :
  match_run is_alnum last s = Some m ->
  Forall (fun c => in_token_class c = true) m /\ exists r, s = m ++ r.
Proof.
  revert last m. induction s as [|c t IH]; intros last m; simpl.
  - destruct (at_boundary _ _ _); [|discriminate].
    intros [= <-]. split; [constructor | now exists []].
  - assert (Hstop :
      (if at_boundary is_alnum (Some last) (Some c)
       then Some [] else None) = Some m ->
      Forall (fun c => in_token_class c = true) m /\
      exists r, c :: t = m ++ r).
    { destruct (at_boundary _ _ _); [|discriminate].
      intros [= <-]. split; [constructor | now exists (c :: t)]. }
    destruct (in_token_class c) eqn:Hc; [|exact Hstop].
    destruct (match_run is_alnum c t) as [m'|] eqn:Hm; [|exact Hstop].
    intros [= <-]. destruct (IH _ _ Hm) as [Hall [r ->]].
    split; [now constructor | now exists r].
Qed.

Lemma match_here_prefix prev s m :
  match_here is_alnum prev s = Some m ->
  m <> [] /\ Forall (fun c => in_token_class c = true) m /\
  exists r, s = m ++ r.
Proof.
  destruct s as [|c t]; simpl; [discriminate|].
  destruct (at_boundary is_alnum prev (Some c)); simpl; [|discriminate].
  destruct (in_token_class c) eqn:Hc; [|discriminate].
  destruct (match_run is_alnum c t) as [m'|] eqn:Hm; simpl; [|discriminate].
  intros [= <-]. destruct (match_run_prefix _ _ _ Hm) as [Hall [r ->]].
  split; [discriminate|]. split; [now constructor | now exists r].
Qed.

Lemma findall_from_tokens prev skip s w :
  In w (findall_from is_alnum prev skip s) ->
  w <> [] /\ Forall (fun c => in_token_class c = true) w /\ incl w s.
Proof.
  revert prev skip.
  induction s as [|c t IH]; intros prev skip; cbn [findall_from];
    [intros []|].
  assert (Hrec : forall p k,
    In w (findall_from is_alnum p k t) ->
    w <> [] /\ Forall (fun c => in_token_class c = true) w /\
    incl w (c :: t)).
  { intros p k Hw. destruct (IH _ _ Hw) as (H1 & H2 & H3).
    repeat split; auto. now apply incl_tl. }
  destruct skip as [|k]; [|apply Hrec].
  destruct (match_here is_alnum prev (c :: t)) as [m|] eqn:Hm;
    [|apply Hrec].
  intros [<-|Hw]; [|eapply Hrec; eauto].
  destruct (match_here_prefix _ _ _ Hm) as (H1 & H2 & r & Hr).
  repeat split; auto. rewrite Hr. now apply incl_appl, incl_refl.
Qed.

End TokenFacts.

Lemma lower_class_of_token c :
  in_token_class c = true -> in_upper_class c = false ->
  in_lower_class c = true.
Proof.
  unfold in_token_class. intros H1 H2. rewrite H2, orb_false_r in H1.
  exact H1.
Qed.

Lemma latin_lower_char_no_upper c0 c :
  In c (latin_lower_char c0) -> in_upper_class c = false.
Proof.
  unfold latin_lower_char, in_upper_class.
  repeat match goal with
  | |- context [if ?b then _ else _] => destruct b eqn:?
  end; simpl; intros H; repeat destruct H as [H|H]; try contradiction;
    subst; to_prop; lia.
Qed.

Lemma latin_lower_no_upper s c :
  In c (latin_lower s) -> in_upper_class c = false.
Proof.
  unfold latin_lower. rewrite in_flat_map. intros (c0 & _ & Hc).
  eapply latin_lower_char_no_upper; eauto.
Qed.

(** C10.  Whatever the file holds, the extracted list is strictly ascending
    in the lexicographic order of code points, hence without duplicates, and
    each of its words is non-empty and made of the letters a-z, ä, ö, ü, ß
    only; when the file is missing or cannot be read the list is empty.
    [str.lower] is assumed never to produce one of A-Z, Ä, Ö, Ü. *)
Theorem extracted_words_strictly_sorted_lowercase
    (str_lower : pystr -> pystr) (is_alnum : N -> bool)
    (lower_no_upper :
       forall s c, In c (str_lower s) -> in_upper_class c = false)
    (fs : pystr -> file_read) (file_path : pystr) :
  let unique_words :=
    read_and_extract_words_from_text_file str_lower is_alnum fs file_path in
  StronglySorted str_lt unique_words /\
  NoDup unique_words /\
  (forall w, In w unique_words ->
     w <> [] /\ Forall (fun c => in_lower_class c = true) w) /\
  (match fs file_path with
   | FileText _ => True
   | FileNotFoundError | ReadException => unique_words = []
   end).
Proof.
  unfold read_and_extract_words_from_text_file.
  destruct (fs file_path) as [| |text]; cbv zeta.
  - split; [constructor|]. split; [constructor|].
    split; [intros w []|reflexivity].
  - split; [constructor|]. split; [constructor|].
    split; [intros w []|reflexivity].
  - split; [apply sorted_set_strict|].
    split; [apply sorted_NoDup, NoDup_nodup|].
    split; [|exact I].
    intros w Hw. apply (proj1 (sorted_set_In _ _)) in Hw.
    apply findall_from_tokens in Hw as (Hne & Hcls & Hincl).
    split; [exact Hne|].
    rewrite Forall_forall in *. intros c Hc.
    apply lower_class_of_token; [now apply Hcls|].
    eapply lower_no_upper, Hincl, Hc.
Qed.

Lemma extracted_words_strictly_sorted_lowercase_witness :
  (forall s c, In c (latin_lower s) -> in_upper_class c = false) /\
  let unique_words :=
    read_and_extract_words_from_text_file latin_lower latin_isalnum
      (fun _ => FileText (u "Der Hund läuft. der HUND")) (u "book.txt") in
  StronglySorted str_lt unique_words /\
  NoDup unique_words /\
  (forall w, In w unique_words ->
     w <> [] /\ Forall (fun c => in_lower_class c = true) w) /\
  True.
Proof.
  split; [exact latin_lower_no_upper|].
  exact (extracted_words_strictly_sorted_lowercase latin_lower latin_isalnum
           latin_lower_no_upper
           (fun _ => FileText (u "Der Hund läuft. der HUND")) (u "book.txt")).
Defined.

(** C6 (amended).  Extraction lowercases the file content, tokenizes the
    lowercased text with the letter pattern, removes duplicates and sorts:
    the result is the strictly ascending list of the tokens of the
    lowercased text.  For the text "Der Hund läuft. der HUND" it is
    "der", "hund", "läuft". *)
Theorem extraction_tokenizes_lowercased_text :
  (forall (str_lower : pystr -> pystr) (is_alnum : N -> bool)
          (text file_path : pystr),
     let unique_words :=
       read_and_extract_words_from_text_file str_lower is_alnum
         (fun _ => FileText text) file_path in
     StronglySorted str_lt unique_words /\
     forall w, In w unique_words <->
               In w (findall_words is_alnum (str_lower text))) /\
  read_and_extract_words_from_text_file latin_lower latin_isalnum
    (fun _ => FileText (u "Der Hund läuft. der HUND")) (u "book.txt")
  = [u "der"; u "hund"; u "läuft"].
Proof.
  split.
  - intros str_lower is_alnum text file_path. cbv zeta.
    unfold read_and_extract_words_from_text_file.
    split; [apply sorted_set_strict | intros w; apply sorted_set_In].
  - vm_compute. reflexivity.
Qed.

(** C6 as stated fails: on the text "STRAẞE" tokenizing the file content
    and lowercasing the tokens finds no word, while the code, which
    lowercases first, returns "straße". *)
Lemma tokenize_then_lower_differs :
  extract_tokenize_then_lower latin_lower latin_isalnum (u "STRAẞE") = [] /\
  read_and_extract_words_from_text_file latin_lower latin_isalnum
    (fun _ => FileText (u "STRAẞE")) (u "book.txt") = [u "straße"].
Proof. split; vm_compute; reflexivity. Qed.

(** ** Filtering *)

Lemma set_mem_add x y s : set_mem x (set_add y s) = str_eqb x y || set_mem x s.
Proof.
  unfold set_add, set_mem.
  destruct (existsb (str_eqb y) s) eqn:E.
  - destruct (str_eqb x y) eqn:Exy; [|reflexivity].
    apply str_eqb_eq in Exy. subst. now rewrite E.
  - rewrite existsb_app. simpl. rewrite orb_false_r. apply orb_comm.
Qed.

Lemma set_mem_fold (f : pystr -> pystr) rows : forall s0 x,
  set_mem x (fold_left (fun s row => set_add (f row) s) rows s0)
  = set_mem x s0 || existsb (fun r => str_eqb x (f r)) rows.
Proof.
  induction rows as [|r rows IH]; intros s0 x; simpl.
  - now rewrite orb_false_r.
  - rewrite IH, set_mem_add.
    destruct (str_eqb x (f r)), (set_mem x s0); reflexivity.
Qed.

Lemma fold_left_append_filter (p : pystr -> bool) ws : forall acc,
  fold_left (fun acc w => if p w then acc ++ [w] else acc) ws acc
  = acc ++ filter p ws.
Proof.
  induction ws as [|w ws IH]; intros acc; simpl.
  - now rewrite app_nil_r.
  - rewrite IH. destruct (p w); [|reflexivity].
    now rewrite <- app_assoc.
Qed.

(** C1.  With the rows of the words table at hand, the result is the
    sublist, in input order, of the words whose lowercased form equals the
    lowercased form of no stored queried_word; when the query raises an
    operational error (the table is missing) the input list comes back
    unchanged. *)
Theorem new_words_are_the_unknown_words
    (str_lower : pystr -> pystr) (words_from_text : list pystr)
    (db_path : pystr) :
  (forall rows,
     get_new_words_not_in_db str_lower words_from_text
       (fun _ => DbRows rows) db_path
     = filter
         (fun w =>
            negb (existsb (fun r => str_eqb (str_lower w) (str_lower r)) rows))
         words_from_text) /\
  get_new_words_not_in_db str_lower words_from_text
    (fun _ => DbOperationalError) db_path
  = words_from_text.
Proof.
  split.
  - intros rows. unfold get_new_words_not_in_db.
    destruct words_from_text as [|w ws] eqn:E; [reflexivity|].
    rewrite <- E. clear E.
    rewrite fold_left_append_filter. simpl.
    apply filter_ext. intros a. now rewrite set_mem_fold.
  - unfold get_new_words_not_in_db.
    destruct words_from_text; reflexivity.
Qed.

(** ** Escaping *)

Lemma replace_quote_doubles s :
  str_replace [QUOTE] [QUOTE; QUOTE] s
  = flat_map (fun c => if (c =? QUOTE)%N then [QUOTE; QUOTE] else [c]) s.
Proof.
  unfold str_replace. induction s as [|c t IH]; [reflexivity|].
  cbn [replace_from startswith flat_map length Nat.sub].
  rewrite andb_true_r, N.eqb_sym.
  destruct (c =? QUOTE)%N; rewrite IH; reflexivity.
Qed.

(** C7.  [None] is rendered as NULL; any other value as its string form
    between single quotes, each single quote of the string form written
    twice.  O'Brien is rendered as 'O''Brien'. *)
Theorem escape_sql_string_doubles_quotes (py_repr : json -> pystr) :
  (forall value,
     escape_sql_string py_repr value
     = match value with
       | JNull => u "NULL"
       | _ =>
         [QUOTE]
         ++ flat_map (fun c => if (c =? QUOTE)%N then [QUOTE; QUOTE] else [c])
              (py_str py_repr value)
         ++ [QUOTE]
       end) /\
  escape_sql_string py_repr (JStr (u "O'Brien")) = u "'O''Brien'".
Proof.
  split.
  - intros value. unfold escape_sql_string.
    destruct value; try reflexivity; now rewrite replace_quote_doubles.
  - vm_compute. reflexivity.
Qed.

(** ** Inline markup *)

Lemma span_rest_closed x post :
  no_pipe x -> span_rest (x ++ PIPE :: post) = Some x.
Proof.
  induction 1 as [|c x Hc Hx IH]; cbn [app span_rest].
  - now rewrite N.eqb_refl.
  - apply N.eqb_neq in Hc. rewrite Hc, IH. reflexivity.
Qed.

Lemma sub_em_skip a k r :
  sub_em_from (length a + k) (a ++ r) = sub_em_from k r.
Proof. induction a as [|c a IH]; simpl; auto. Qed.

Lemma sub_em_skip_span x post :
  sub_em_from (S (length x)) (x ++ PIPE :: post) = sub_em_from 0 post.
Proof.
  replace (S (length x)) with (length (x ++ [PIPE]) + 0)
    by (rewrite length_app; simpl; lia).
  replace (x ++ PIPE :: post) with ((x ++ [PIPE]) ++ post)
    by (now rewrite <- app_assoc).
  apply sub_em_skip.
Qed.

Lemma match_span_not_pipe c t : c <> PIPE -> match_span (c :: t) = None.
Proof.
  intros Hc. apply N.eqb_neq in Hc. destruct t; cbn [match_span];
    [reflexivity|].
  now rewrite Hc.
Qed.

Lemma sub_em_plain pre r :
  no_pipe pre -> sub_em_from 0 (pre ++ r) = pre ++ sub_em_from 0 r.
Proof.
  induction 1 as [|c pre Hc Hpre IH]; [reflexivity|].
  cbn [app sub_em_from]. rewrite (match_span_not_pipe _ _ Hc), IH.
  reflexivity.
Qed.

Lemma sub_em_span x post :
  x <> [] -> no_pipe x ->
  sub_em_from 0 (PIPE :: x ++ PIPE :: post)
  = u "<em>" ++ x ++ u "</em>" ++ sub_em_from 0 post.
Proof.
  intros Hne Hx. destruct x as [|c x]; [congruence|].
  inversion Hx as [|? ? Hc Hx']; subst.
  cbn [app sub_em_from match_span].
  rewrite N.eqb_refl. apply N.eqb_neq in Hc. rewrite Hc. cbn [negb andb].
  rewrite (span_rest_closed _ _ Hx'). cbn [option_map length].
  now rewrite sub_em_skip_span.
Qed.

Lemma span_rest_open t : no_pipe t -> span_rest t = None.
Proof.
  induction 1 as [|c t Hc Ht IH]; [reflexivity|].
  cbn [span_rest]. apply N.eqb_neq in Hc. now rewrite Hc, IH.
Qed.

Lemma join_pipes_cons p pieces :
  p ++ concat (map (cons PIPE) pieces)
  = match pieces with
    | [] => p
    | q :: more => p ++ PIPE :: q ++ concat (map (cons PIPE) more)
    end.
Proof. destruct pieces; simpl; [apply app_nil_r|reflexivity]. Qed.

(** A text is its pieces with a pipe between two of them, and no piece
    holds a pipe. *)
Lemma split_pipes_pieces text :
  exists p0 pieces,
    split_pipes text = p0 :: pieces /\
    text = p0 ++ concat (map (cons PIPE) pieces) /\
    Forall no_pipe (p0 :: pieces).
Proof.
  induction text as [|c t (p0 & pieces & E & J & F)]; cbn [split_pipes].
  - exists [], []. repeat split. repeat constructor.
  - destruct (c =? PIPE)%N eqn:Hc.
    + apply N.eqb_eq in Hc. subst c.
      exists [], (p0 :: pieces). rewrite E. split; [reflexivity|].
      split; [simpl; now rewrite <- J|].
      constructor; [constructor|exact F].
    + apply N.eqb_neq in Hc. rewrite E.
      exists (c :: p0), pieces. split; [reflexivity|].
      split; [simpl; now rewrite <- J|].
      inversion F; subst. constructor; [now constructor|assumption].
Qed.

Lemma sub_em_lone_pipe p :
  no_pipe p -> sub_em_from 0 (PIPE :: p) = PIPE :: p.
Proof.
  intros Hp. cbn [sub_em_from].
  replace (match_span (PIPE :: p)) with (@None pystr).
  - f_equal. rewrite <- (app_nil_r p) at 1.
    rewrite (sub_em_plain _ _ Hp). simpl. apply app_nil_r.
  - destruct p as [|c p]; [reflexivity|].
    inversion Hp as [|? ? Hc Hp']; subst.
    cbn [match_span]. rewrite N.eqb_refl.
    apply N.eqb_neq in Hc. rewrite Hc. cbn [negb andb].
    now rewrite (span_rest_open _ Hp').
Qed.

Lemma sub_em_double_pipe r :
  sub_em_from 0 (PIPE :: PIPE :: r) = PIPE :: sub_em_from 0 (PIPE :: r).
Proof. reflexivity. Qed.

(** The scan of the text behind a pipe gives what the pieces say. *)
Lemma sub_em_pieces n : forall pieces,
  length pieces <= n ->
  Forall no_pipe pieces ->
  sub_em_from 0 (concat (map (cons PIPE) pieces))
  = render_after_pipe pieces.
Proof.
  induction n as [|n IH]; intros pieces Hn F.
  - destruct pieces; [reflexivity|simpl in Hn; lia].
  - destruct pieces as [|p [|q rest]]; [reflexivity| |].
    + inversion F; subst. cbn [map concat app render_after_pipe].
      rewrite app_nil_r, sub_em_lone_pipe by assumption. now destruct p.
    + inversion F as [|? ? Hp F']; subst.
      inversion F' as [|? ? Hq F'']; subst.
      destruct p as [|c p].
      * change (concat (map (cons PIPE) ([] :: q :: rest)))
          with (PIPE :: concat (map (cons PIPE) (q :: rest))).
        cbn [render_after_pipe].
        change (concat (map (cons PIPE) (q :: rest)))
          with (PIPE :: q ++ concat (map (cons PIPE) rest)).
        rewrite sub_em_double_pipe. f_equal.
        apply (IH (q :: rest)); [simpl in *; lia|exact F'].
      * change (concat (map (cons PIPE) ((c :: p) :: q :: rest)))
          with (PIPE :: (c :: p)
                ++ PIPE :: (q ++ concat (map (cons PIPE) rest))).
        rewrite sub_em_span; [|discriminate|exact Hp].
        rewrite (sub_em_plain _ _ Hq).
        rewrite (IH rest); [|simpl in *; lia|exact F''].
        reflexivity.
Qed.

Lemma sub_em_rewrite_spans text : sub_em_from 0 text = rewrite_spans text.
Proof.
  unfold rewrite_spans.
  destruct (split_pipes_pieces text) as (p0 & pieces & E & J & F).
  rewrite E. rewrite J at 1. inversion F; subst.
  rewrite sub_em_plain by assumption. f_equal.
  now apply (sub_em_pieces (length pieces)).
Qed.

(** C8.  For every example text, [transform_example_text] returns the text
    with its spans rewritten: cut at its pipes, the text is a first piece
    followed by pieces that each follow a pipe, and a piece that is not
    empty and is followed by another pipe is rendered <em>piece</em>, the
    piece behind its closing pipe being plain text again, so that a pipe
    that opens no span stays as it is.  "Das |Haus| ist groß" becomes
    "Das <em>Haus</em> ist groß".  An example, whatever the order of its
    members, whose source and target are non-empty strings yields the
    statement built from the escaped forms of the transformed texts. *)
Theorem transform_example_text_rewrites_spans (text : pystr) :
  transform_example_text (JStr text) = Ok (JStr (rewrite_spans text)) /\
  (exists p0 pieces,
     split_pipes text = p0 :: pieces /\
     text = p0 ++ concat (map (cons PIPE) pieces) /\
     Forall no_pipe (p0 :: pieces)) /\
  (forall pre x post,
     no_pipe pre -> x <> [] -> no_pipe x ->
     rewrite_spans (pre ++ [PIPE] ++ x ++ [PIPE] ++ post)
     = pre ++ u "<em>" ++ x ++ u "</em>" ++ rewrite_spans post) /\
  transform_example_text (JStr (u "Das |Haus| ist groß"))
  = Ok (JStr (u "Das <em>Haus</em> ist groß")) /\
  forall (py_repr : json -> pystr) (translation_id_subquery : pystr)
         (ex_data : list (pystr * json)) (source target : pystr)
         (st : world),
    dict_lookup (u "source") ex_data = Some (JStr source) ->
    dict_lookup (u "target") ex_data = Some (JStr target) ->
    source <> [] -> target <> [] ->
    for_example py_repr translation_id_subquery (JObj ex_data) st
    = (Ok tt,
       append_sql
         (EXAMPLES_INSERT ++ u "(" ++ translation_id_subquery ++ u ", "
          ++ escape_sql_string py_repr (JStr (rewrite_spans source))
          ++ u ", "
          ++ escape_sql_string py_repr (JStr (rewrite_spans target))
          ++ u ");") st).
Proof.
  split; [|split; [|split; [|split]]].
  - unfold transform_example_text. now rewrite sub_em_rewrite_spans.
  - apply split_pipes_pieces.
  - intros pre x post Hpre Hx Hnp.
    rewrite <- !sub_em_rewrite_spans, (sub_em_plain _ _ Hpre).
    f_equal. cbn [app]. now apply sub_em_span.
  - vm_compute. reflexivity.
  - intros py_repr subq ex_data source target st Hs Ht Hns Hnt.
    unfold for_example, bind, lift, method_get. rewrite Hs, Ht.
    destruct source as [|c source]; [congruence|].
    destruct target as [|d target]; [congruence|].
    cbn [truthy andb transform_example_text].
    now rewrite !sub_em_rewrite_spans.
Qed.

(** The texts '||a||' and 'a||b| |c|', in which a pipe that opens no span
    comes before a span. *)
Lemma transform_example_text_rewrites_spans_witness :
  transform_example_text (JStr (u "||a||")) = Ok (JStr (u "|<em>a</em>|")) /\
  transform_example_text (JStr (u "a||b| |c|"))
  = Ok (JStr (u "a|<em>b</em> <em>c</em>")).
Proof.
  split.
  - rewrite (proj1 (transform_example_text_rewrites_spans (u "||a||"))).
    vm_compute. reflexivity.
  - rewrite (proj1 (transform_example_text_rewrites_spans (u "a||b| |c|"))).
    vm_compute. reflexivity.
Defined.

(** ** Worlds *)

Lemma advances_trans st st1 st2 d1 d2 n1 n2 :
  advances st st1 d1 n1 -> advances st1 st2 d2 n2 ->
  advances st st2 (d1 ++ d2) (n1 + n2).
Proof.
  intros (A1 & A2 & A3) (B1 & B2 & B3). repeat split.
  - congruence.
  - rewrite B2, A2. now rewrite app_assoc.
  - lia.
Qed.

Lemma error_log_app a b : error_log (a ++ b) = error_log a ++ error_log b.
Proof. apply filter_app. Qed.
Lemma success_log_app a b :
  success_log (a ++ b) = success_log a ++ success_log b.
Proof. apply filter_app. Qed.
Lemma sleeps_app a b : sleeps (a ++ b) = sleeps a ++ sleeps b.
Proof. apply filter_app. Qed.
Lemma model_queries_app a b :
  model_queries (a ++ b) = model_queries a ++ model_queries b.
Proof. apply filter_app. Qed.

(** ** Statements that raise and write *)

Lemma bind_ok {A B} (m : M A) (k : A -> M B) st b st' :
  bind m k st = (Ok b, st') ->
  exists a st1, m st = (Ok a, st1) /\ k a st1 = (Ok b, st').
Proof.
  unfold bind. destruct (m st) as [[a|e] st1]; [|discriminate].
  intros H. now exists a, st1.
Qed.

Lemma lift_ok {A} (o : outcome A) st a st' :
  lift o st = (Ok a, st') -> o = Ok a /\ st' = st.
Proof. unfold lift. intros [= -> ->]. now split. Qed.

Lemma forallb_logs_only d : forallb logs_only d = true -> only_logs d.
Proof.
  unfold only_logs. induction d as [|e d IH]; simpl; [auto|].
  rewrite andb_true_iff. intros [He Hd]. destruct (IH Hd) as (A & B & C).
  unfold logs_only in He. destruct e; simpl in *; try discriminate; auto.
Qed.

Section Confined.

(** The events a computation may add to the trace. *)
Variable P : event -> bool.
Hypothesis P_error : forall e, P (ErrorLogged e) = true.
Hypothesis P_logged : forall w, P (Printed (MsgLoggedError w)) = true.

Lemma confined_ret {A} (a : A) : confined P (ret a).
Proof.
  intros st. split; [reflexivity|]. exists []. simpl.
  now rewrite app_nil_r.
Qed.

Lemma confined_lift {A} (o : outcome A) : confined P (lift o).
Proof.
  intros st. split; [reflexivity|]. exists []. simpl.
  now rewrite app_nil_r.
Qed.

Lemma confined_append_sql stmt : confined P (effect (append_sql stmt)).
Proof.
  intros st. split; [reflexivity|]. exists []. simpl.
  now rewrite app_nil_r.
Qed.

Lemma log_error_trace w r data st :
  trace (log_error w r data st)
  = trace st
    ++ [ErrorLogged {| err_word := w; err_reason := r; err_data := data |};
        Printed (MsgLoggedError w)].
Proof. unfold log_error, print, emit. simpl. now rewrite <- app_assoc. Qed.

Lemma confined_log_error w r data :
  confined P (effect (log_error w r data)).
Proof.
  intros st. split; [reflexivity|]. eexists. cbn [effect snd].
  rewrite log_error_trace. split; [reflexivity|].
  simpl. now rewrite P_error, P_logged.
Qed.

Lemma confined_bind {A B} (m : M A) (k : A -> M B) :
  confined P m -> (forall a, confined P (k a)) -> confined P (bind m k).
Proof.
  intros Hm Hk st. unfold bind.
  destruct (Hm st) as (C1 & d1 & T1 & L1).
  destruct (m st) as [[a|e] st1]; simpl in *.
  - destruct (Hk a st1) as (C2 & d2 & T2 & L2).
    split; [congruence|]. exists (d1 ++ d2).
    split; [rewrite T2, T1; now rewrite app_assoc|].
    rewrite forallb_app. now rewrite L1, L2.
  - split; [assumption|]. now exists d1.
Qed.

Lemma confined_for_each {A} (xs : list A) (body : A -> M unit) :
  (forall x, confined P (body x)) -> confined P (for_each xs body).
Proof.
  intros Hb. induction xs as [|x xs IH]; simpl.
  - apply confined_ret.
  - apply confined_bind; auto.
Qed.

Ltac confined_steps :=
  repeat first
    [ apply confined_bind; [|intros]
    | apply confined_ret
    | apply confined_lift
    | apply confined_append_sql
    | apply confined_log_error
    | match goal with
      | |- confined P (match ?x with _ => _ end) => destruct x
      | |- confined P (if ?b then _ else _) => destruct b
      end ].

Variable json_dumps : json -> pystr.
Variable py_repr : json -> pystr.

Lemma confined_for_example subq ex :
  confined P (for_example py_repr subq ex).
Proof. unfold for_example. confined_steps. Qed.

Lemma confined_for_translation w wid t :
  confined P (for_translation py_repr w wid t).
Proof.
  unfold for_translation. confined_steps;
    apply confined_for_each; intros; apply confined_for_example.
Qed.

Lemma confined_primary_type wi : confined P (primary_type wi).
Proof. unfold primary_type. confined_steps. Qed.

Lemma confined_generate_sql j w :
  confined P (generate_sql json_dumps py_repr j w).
Proof.
  unfold generate_sql. confined_steps; try apply confined_primary_type.
  apply confined_for_each; intros; apply confined_for_translation.
Qed.

Lemma extract_confined j w st :
  let st' := snd (extract_and_generate_sql_for_word json_dumps py_repr j w st)
  in
  api_calls st' = api_calls st /\
  exists d, trace st' = trace st ++ d /\ forallb P d = true.
Proof.
  cbv zeta. unfold extract_and_generate_sql_for_word.
  destruct (confined_generate_sql j w st) as (C & d & T & L).
  destruct (generate_sql json_dumps py_repr j w st) as [[[]|e] st1];
    simpl in *.
  - split; [assumption|]. now exists d.
  - assert (E : forall r,
      api_calls (log_error w r j st1) = api_calls st /\
      exists d0, trace (log_error w r j st1) = trace st ++ d0 /\
                 forallb P d0 = true).
    { intros r. split; [assumption|]. eexists.
      rewrite log_error_trace, T, <- app_assoc. split; [reflexivity|].
      rewrite forallb_app, L. simpl. now rewrite P_error, P_logged. }
    destruct e; simpl; apply E.
Qed.

End Confined.

(** SQL generation sends no request, does not pause and leaves the log of
    successful responses alone. *)
Lemma extract_only_logs json_dumps py_repr j w st :
  let st' := snd (extract_and_generate_sql_for_word json_dumps py_repr j w st)
  in
  api_calls st' = api_calls st /\
  exists d, trace st' = trace st ++ d /\ only_logs d.
Proof.
  cbv zeta.
  destruct (extract_confined logs_only (fun _ => eq_refl) (fun _ => eq_refl)
              json_dumps py_repr j w st) as (C & d & T & L).
  split; [assumption|]. exists d. split; [assumption|].
  now apply forallb_logs_only.
Qed.

(** ** Statements that do the same in every world *)

Lemma grow_grow st s1 d1 s2 d2 :
  grow (grow st s1 d1) s2 d2 = grow st (s1 ++ s2) (d1 ++ d2).
Proof. unfold grow. simpl. now rewrite !app_assoc. Qed.

Lemma grow_nil st : grow st [] [] = st.
Proof. destruct st. unfold grow. simpl. now rewrite !app_nil_r. Qed.

Lemma uniform_ret {A} (a : A) : uniform (ret a).
Proof. exists (Ok a), [], []. intros st. unfold ret. now rewrite grow_nil. Qed.

Lemma uniform_lift {A} (o : outcome A) : uniform (lift o).
Proof. exists o, [], []. intros st. unfold lift. now rewrite grow_nil. Qed.

Lemma uniform_append_sql stmt : uniform (effect (append_sql stmt)).
Proof.
  exists (Ok tt), [stmt], []. intros st. unfold effect, append_sql, grow.
  simpl. now rewrite app_nil_r.
Qed.

Lemma log_error_grow w r data st :
  log_error w r data st
  = grow st []
      [ErrorLogged {| err_word := w; err_reason := r; err_data := data |};
       Printed (MsgLoggedError w)].
Proof.
  unfold log_error, print, emit, grow. simpl.
  now rewrite app_nil_r, <- app_assoc.
Qed.

Lemma uniform_log_error w r data : uniform (effect (log_error w r data)).
Proof.
  eexists (Ok tt), [], _. intros st. unfold effect.
  now rewrite log_error_grow.
Qed.

Lemma uniform_bind {A B} (m : M A) (k : A -> M B) :
  uniform m -> (forall a, uniform (k a)) -> uniform (bind m k).
Proof.
  intros (o & s1 & d1 & Hm) Hk. destruct o as [a|e].
  - destruct (Hk a) as (o2 & s2 & d2 & Hk2).
    exists o2, (s1 ++ s2), (d1 ++ d2). intros st. unfold bind.
    now rewrite Hm, Hk2, grow_grow.
  - exists (Raise e), s1, d1. intros st. unfold bind. now rewrite Hm.
Qed.

Lemma uniform_for_each {A} (xs : list A) (body : A -> M unit) :
  (forall x, uniform (body x)) -> uniform (for_each xs body).
Proof.
  intros Hb. induction xs as [|x xs IH]; cbn [for_each].
  - apply uniform_ret.
  - apply uniform_bind; auto.
Qed.

Ltac uniform_steps :=
  repeat first
    [ apply uniform_bind; [|intros]
    | apply uniform_ret
    | apply uniform_lift
    | apply uniform_append_sql
    | apply uniform_log_error
    | match goal with
      | |- uniform (match ?x with _ => _ end) => destruct x
      | |- uniform (if ?b then _ else _) => destruct b
      end ].

Section Uniform.

Variable json_dumps : json -> pystr.
Variable py_repr : json -> pystr.

Lemma uniform_for_example subq ex : uniform (for_example py_repr subq ex).
Proof. unfold for_example. uniform_steps. Qed.

Lemma uniform_for_translation w wid t :
  uniform (for_translation py_repr w wid t).
Proof.
  unfold for_translation. uniform_steps;
    apply uniform_for_each; intros; apply uniform_for_example.
Qed.

Lemma uniform_primary_type wi : uniform (primary_type wi).
Proof. unfold primary_type. uniform_steps. Qed.

Lemma uniform_generate_sql j w : uniform (generate_sql json_dumps py_repr j w).
Proof.
  unfold generate_sql. uniform_steps; try apply uniform_primary_type.
  apply uniform_for_each; intros; apply uniform_for_translation.
Qed.

(** Whether SQL generation succeeds, what it appends and what it logs
    depends on the response and the word alone. *)
Lemma extract_uniform j w :
  exists generated stmts d,
    (forall st,
       extract_and_generate_sql_for_word json_dumps py_repr j w st
       = (generated, grow st stmts d)) /\
    only_logs d.
Proof.
  assert (U : exists generated stmts d,
            forall st,
              extract_and_generate_sql_for_word json_dumps py_repr j w st
              = (generated, grow st stmts d)).
  { destruct (uniform_generate_sql j w) as (o & stmts & d & H).
    unfold extract_and_generate_sql_for_word.
    destruct o as [[]|e].
    - exists true, stmts, d. intros st. now rewrite H.
    - destruct e; eexists false, _, _; intros st; rewrite H;
        rewrite log_error_grow, grow_grow; reflexivity. }
  destruct U as (generated & stmts & d & H).
  exists generated, stmts, d. split; [exact H|].
  destruct (extract_only_logs json_dumps py_repr j w empty_world)
    as (_ & d0 & T & L).
  rewrite H in T. simpl in T. now subst d0.
Qed.

(** A failure of SQL generation is the last thing it logs. *)
Lemma extract_failure_logged j w st :
  fst (extract_and_generate_sql_for_word json_dumps py_repr j w st) = false ->
  exists d e,
    trace (snd (extract_and_generate_sql_for_word json_dumps py_repr j w st))
    = trace st ++ d ++ [ErrorLogged e; Printed (MsgLoggedError w)] /\
    err_word e = w /\ err_data e = j /\ only_logs d.
Proof.
  unfold extract_and_generate_sql_for_word.
  destruct (confined_generate_sql logs_only (fun _ => eq_refl)
              (fun _ => eq_refl) json_dumps py_repr j w st)
    as (_ & d & T & L).
  destruct (generate_sql json_dumps py_repr j w st) as [[[]|e] st1];
    simpl in T; [discriminate|].
  intros _. apply forallb_logs_only in L.
  destruct e; cbn [snd]; rewrite log_error_trace, T, <- app_assoc;
    eexists d, _; (split; [reflexivity|]); repeat split; apply L.
Qed.

End Uniform.

Lemma same_course_refl st : same_course st st.
Proof. unfold same_course. repeat split. Qed.

Lemma same_course_step st1 st2 st1' st2' stmts d1 d2 n :
  same_course st1 st2 ->
  sql_insert_statements st1' = sql_insert_statements st1 ++ stmts ->
  sql_insert_statements st2' = sql_insert_statements st2 ++ stmts ->
  trace st1' = trace st1 ++ d1 -> trace st2' = trace st2 ++ d2 ->
  api_calls st1' = api_calls st1 + n -> api_calls st2' = api_calls st2 + n ->
  model_queries d1 = model_queries d2 -> sleeps d1 = sleeps d2 ->
  success_log d1 = success_log d2 ->
  length (error_log d1) = length (error_log d2) ->
  same_course st1' st2'.
Proof.
  intros (A & B & C & D & E & F) Q1 Q2 T1 T2 N1 N2 HQ HS HL HE.
  unfold same_course.
  rewrite Q1, Q2, T1, T2, N1, N2, !model_queries_app, !sleeps_app,
    !success_log_app, !error_log_app, !length_app.
  repeat split; congruence.
Qed.

(** ** Retries *)

Section RetryFacts.

Variable json_loads : pystr -> option json.
Variable json_dumps : json -> pystr.
Variable py_repr : json -> pystr.
Variable is_space : N -> bool.
Variable model : pystr -> nat -> api_result.
Variable json_log_write : pystr -> json -> option exn.

Local Abbreviation attempt_once' :=
  (attempt_once json_loads json_dumps py_repr is_space model json_log_write).
Local Abbreviation retry_loop' :=
  (retry_loop json_loads json_dumps py_repr is_space model json_log_write).
Local Abbreviation process_word' :=
  (process_word_with_retries json_loads json_dumps py_repr is_space model
     json_log_write).

Lemma parse_advances raw st :
  exists st' d,
    parse_model_output_for_assistant_content json_loads raw st
    = (parse_result json_loads raw, st') /\
    advances st st' d 0 /\
    error_log d = [] /\ success_log d = [] /\ sleeps d = [] /\
    model_queries d = [].
Proof.
  unfold parse_model_output_for_assistant_content, parse_result, advances.
  destruct (json_loads raw) as [j|].
  - destruct (py_in (u "word_info") j) as [[|]|e].
    + exists st, []. rewrite app_nil_r, Nat.add_0_r. repeat split.
    + exists st, []. rewrite app_nil_r, Nat.add_0_r. repeat split.
    + eexists _, [_]. simpl. rewrite Nat.add_0_r. repeat split.
  - eexists _, [_]. simpl. rewrite Nat.add_0_r. repeat split.
Qed.

Ltac close_advances :=
  unfold advances; simpl; repeat rewrite <- app_assoc; simpl;
  repeat split; try reflexivity; try lia.

(** An attempt that cannot succeed goes on to the next attempt after one
    pause, or, when it is the last one, fails with one entry in the error
    log. *)
Lemma attempt_once_retryable word attempt raw st :
  retryable json_loads is_space (model word (api_calls st)) = true ->
  exists raw' st' d,
    attempt_once' word attempt raw st
    = (if attempt <? MAX_RETRIES then Next else Return false, raw', st') /\
    advances st st' d 1 /\
    model_queries d = [ModelQueried word] /\
    success_log d = [] /\
    sleeps d
    = (if attempt <? MAX_RETRIES then [Slept RETRY_DELAY_SECONDS] else []) /\
    (if attempt <? MAX_RETRIES then error_log d = []
     else exists e, error_log d = [ErrorLogged e] /\ err_word e = word).
Proof.
  unfold retryable, attempt_once, get_translation_from_model.
  change (api_calls (print (MsgProcessingAttempt word attempt) st))
    with (api_calls st).
  destruct (model word (api_calls st)) as [e|chunks]; intros Hr.
  - destruct (attempt <? MAX_RETRIES); eexists _, _, _;
      (split; [reflexivity|]); (split; [close_advances|]);
      repeat split; try reflexivity; try (eexists; split; reflexivity).
  - destruct (no_content is_space (concat chunks)) eqn:Hnc.
    + destruct (attempt <? MAX_RETRIES); eexists _, _, _;
        (split; [reflexivity|]); (split; [close_advances|]);
        repeat split; try reflexivity; try (eexists; split; reflexivity).
    + simpl in Hr. apply negb_true_iff in Hr.
      match goal with
      | |- context [parse_model_output_for_assistant_content _ _ ?s] =>
        destruct (parse_advances (concat chunks) s)
          as (st1 & d1 & -> & (P1 & P2 & P3) & Q1 & Q2 & Q3 & Q4)
      end.
      rewrite Hr. simpl in P1, P2, P3.
      destruct (attempt <? MAX_RETRIES); eexists _, _, _;
        (split; [reflexivity|]);
        (split; [unfold advances; simpl; rewrite P1, P2, P3;
                 repeat rewrite <- app_assoc; simpl;
                 repeat split; try reflexivity; lia|]);
        repeat split; simpl;
        rewrite ?model_queries_app, ?success_log_app, ?sleeps_app,
          ?error_log_app, ?Q1, ?Q2, ?Q3, ?Q4; simpl;
        try reflexivity; try (eexists; split; reflexivity).
Qed.

Lemma retry_loop_failures word m : forall a n raw st,
  a + m <= MAX_RETRIES ->
  (forall k, k < m -> retryable json_loads is_space (model word (api_calls st + k)) = true) ->
  exists raw' st' d,
    retry_loop' word (seq a (m + n)) raw st
    = retry_loop' word (seq (a + m) n) raw' st' /\
    advances st st' d m /\
    length (model_queries d) = m /\ length (sleeps d) = m /\
    success_log d = [] /\ error_log d = [].
Proof.
  induction m as [|m IH]; intros a n raw st Ha Hfail.
  - exists raw, st, []. rewrite Nat.add_0_r. simpl.
    split; [reflexivity|]. unfold advances.
    rewrite app_nil_r, Nat.add_0_r. repeat split.
  - cbn [Nat.add seq retry_loop].
    destruct (attempt_once_retryable word a raw st)
      as (raw1 & st1 & d1 & E1 & A1 & Q1 & S1 & Z1 & L1).
    { rewrite <- (Nat.add_0_r (api_calls st)). apply Hfail. lia. }
    assert (Hlt : (a <? MAX_RETRIES) = true) by (apply Nat.ltb_lt; lia).
    rewrite Hlt in E1, Z1, L1. rewrite E1.
    destruct (IH (S a) n raw1 st1) as (raw2 & st2 & d2 & E2 & A2 & Q2 & Z2 & S2 & L2).
    { lia. }
    { intros k Hk. destruct A1 as (_ & _ & ->).
      replace (api_calls st + 1 + k) with (api_calls st + S k) by lia.
      apply Hfail. lia. }
    exists raw2, st2, (d1 ++ d2).
    split; [rewrite E2; f_equal; f_equal; lia|].
    split; [apply (advances_trans _ _ _ _ _ _ _ A1 A2)|].
    rewrite model_queries_app, sleeps_app, success_log_app, error_log_app,
      !length_app, Q1, Z1, S1, L1, Q2, Z2, S2, L2.
    repeat split.
Qed.

(** C2.  When each of the MAX_RETRIES attempts for a word ends in an
    exception, an empty response or a parse failure, the word is given up:
    exactly MAX_RETRIES requests are sent, the result is failure, and
    exactly one entry, for that word, is added to the error log. *)
Theorem exhausted_retries_log_one_error (word : pystr) (st : world)
    (all_fail :
       forall k, k < MAX_RETRIES ->
         retryable json_loads is_space (model word (api_calls st + k)) = true) :
  exists st' d,
    process_word_with_retries json_loads json_dumps py_repr is_space model
      json_log_write word st = (false, st') /\
    advances st st' d MAX_RETRIES /\
    length (model_queries d) = MAX_RETRIES /\
    length (sleeps d) = MAX_RETRIES - 1 /\
    success_log d = [] /\
    exists e, error_log d = [ErrorLogged e] /\ err_word e = word.
Proof.
  unfold process_word_with_retries.
  change (seq 1 MAX_RETRIES) with (seq 1 (4 + 1)).
  destruct (retry_loop_failures word 4 1 1 [] st)
    as (raw1 & st1 & d1 & E1 & A1 & Q1 & Z1 & S1 & L1).
  { unfold MAX_RETRIES. lia. }
  { intros k Hk. apply all_fail. unfold MAX_RETRIES. lia. }
  rewrite E1. cbn [Nat.add seq retry_loop].
  destruct (attempt_once_retryable word 5 raw1 st1)
    as (raw2 & st2 & d2 & E2 & A2 & Q2 & S2 & Z2 & e & L2 & W2).
  { destruct A1 as (_ & _ & ->). apply all_fail. unfold MAX_RETRIES. lia. }
  rewrite E2. cbn [Nat.ltb Nat.leb MAX_RETRIES].
  exists st2, (d1 ++ d2).
  split; [reflexivity|].
  split; [apply (advances_trans _ _ _ _ _ _ _ A1 A2)|].
  rewrite model_queries_app, sleeps_app, success_log_app, error_log_app,
    !length_app, Q1, Z1, S1, L1, Q2, Z2, S2, L2.
  repeat split. now exists e.
Qed.

Lemma attempt_once_raises word attempt raw st e :
  model word (api_calls st) = ApiRaises e ->
  attempt_once' word attempt raw st
  = (if attempt <? MAX_RETRIES then Next else Return false, raw,
     {| sql_insert_statements := sql_insert_statements st;
        trace :=
          trace st
          ++ [Printed (MsgProcessingAttempt word attempt);
              ModelQueried word;
              Printed (MsgUnexpectedError word attempt e)]
          ++ (if attempt <? MAX_RETRIES
              then [Printed MsgRetrying; Slept RETRY_DELAY_SECONDS]
              else [ErrorLogged
                      {| err_word := word;
                         err_reason := UnexpectedAfterMaxRetries e;
                         err_data :=
                           JStr (if truthy (JStr raw) then raw
                                 else u "No raw output captured due to early exception.") |};
                    Printed (MsgLoggedError word)]);
        api_calls := S (api_calls st) |}).
Proof.
  intros raises. unfold attempt_once, get_translation_from_model.
  change (api_calls (print (MsgProcessingAttempt word attempt) st))
    with (api_calls st).
  rewrite raises.
  destruct (attempt <? MAX_RETRIES); unfold log_error, sleep, print, emit;
    simpl; repeat rewrite <- app_assoc; reflexivity.
Qed.

(** An attempt whose output is accepted by the parser ends the loop: SQL
    generation decides the result, and the response is appended to the log
    of successful responses when generation succeeded. *)
Lemma attempt_once_parsed word attempt raw st chunks :
  model word (api_calls st) = ApiChunks chunks ->
  no_content is_space (concat chunks) = false ->
  truthy (parse_result json_loads (concat chunks)) = true ->
  exists st_in d,
    advances st st_in d 1 /\
    model_queries d = [ModelQueried word] /\ sleeps d = [] /\
    success_log d = [] /\ error_log d = [] /\
    (exists d0,
       d = Printed (MsgProcessingAttempt word attempt) :: ModelQueried word
           :: d0) /\
    attempt_once' word attempt raw st
    = let j := parse_result json_loads (concat chunks) in
      let (generated, st_sql) :=
        extract_and_generate_sql_for_word json_dumps py_repr j word st_in in
      (Return generated, concat chunks,
       if generated then
         match json_log_write word j with
         | None => emit (SuccessLogged word j) st_sql
         | Some log_e => print (MsgJsonLogWarning log_e) st_sql
         end
       else print (MsgSqlFailed word) st_sql).
Proof.
  intros reply Hnc Hparse.
  unfold attempt_once, get_translation_from_model.
  change (api_calls (print (MsgProcessingAttempt word attempt) st))
    with (api_calls st).
  rewrite reply, Hnc.
  match goal with
  | |- context [parse_model_output_for_assistant_content _ _ ?s] =>
    destruct (parse_advances (concat chunks) s)
      as (st1 & d1 & -> & (P1 & P2 & P3) & Q1 & Q2 & Q3 & Q4)
  end.
  rewrite Hparse. simpl in P1, P2, P3.
  exists (print (MsgParsed word attempt) st1). eexists.
  split.
  { unfold advances. simpl. rewrite P1, P2, P3.
    repeat rewrite <- app_assoc. simpl. repeat split; try reflexivity; lia. }
  simpl. rewrite ?model_queries_app, ?sleeps_app, ?success_log_app,
    ?error_log_app, Q1, Q2, Q3, Q4. simpl.
  repeat split; [eexists; reflexivity|].
  destruct (extract_and_generate_sql_for_word json_dumps py_repr
              (parse_result json_loads (concat chunks)) word
              (print (MsgParsed word attempt) st1)) as [[|] st2];
    [destruct (json_log_write word _)|]; reflexivity.
Qed.

(** C9.  When, after [k] attempts that could not succeed, attempt [k + 1]
    parses the model output but SQL generation fails, the word fails at
    once: [k + 1] requests have been sent in all, the only pauses are the
    [k] ones of the earlier attempts, and nothing is written to the log of
    successful responses.  The failure is logged from within SQL
    generation: the last entry of the error log is the one that SQL
    generation wrote for the word, which carries the parsed response, and
    every entry added to the error log was written by SQL generation. *)
Theorem sql_generation_failure_returns_at_once
    (word : pystr) (st : world) (k : nat) (chunks : list pystr)
    (attempts_remain : k < MAX_RETRIES)
    (earlier_fail :
       forall i, i < k -> retryable json_loads is_space (model word (api_calls st + i)) = true)
    (reply : model word (api_calls st + k) = ApiChunks chunks)
    (has_content : no_content is_space (concat chunks) = false)
    (parses : truthy (parse_result json_loads (concat chunks)) = true)
    (sql_fails :
       forall st_in,
         fst (extract_and_generate_sql_for_word json_dumps py_repr
                (parse_result json_loads (concat chunks)) word st_in) = false) :
  exists st_in d_in,
    advances st st_in d_in (S k) /\
    length (sleeps d_in) = k /\ error_log d_in = [] /\
    let st_sql :=
      snd (extract_and_generate_sql_for_word json_dumps py_repr
             (parse_result json_loads (concat chunks)) word st_in) in
    let st' := print (MsgSqlFailed word) st_sql in
    process_word_with_retries json_loads json_dumps py_repr is_space model
      json_log_write word st = (false, st') /\
    api_calls st' = api_calls st + S k /\
    sleeps (trace st') = sleeps (trace st) ++ sleeps d_in /\
    success_log (trace st') = success_log (trace st) /\
    error_log (trace st') = error_log (trace st_sql) /\
    error_log (trace st_in) = error_log (trace st) /\
    exists d_sql e,
      trace st_sql
      = trace st_in ++ d_sql
        ++ [ErrorLogged e; Printed (MsgLoggedError word)] /\
      err_word e = word /\
      err_data e = parse_result json_loads (concat chunks) /\
      error_log (trace st')
      = error_log (trace st) ++ error_log d_sql ++ [ErrorLogged e].
Proof.
  unfold process_word_with_retries.
  replace (seq 1 MAX_RETRIES) with (seq 1 (k + S (MAX_RETRIES - k - 1)))
    by (f_equal; lia).
  destruct (retry_loop_failures word k 1 (S (MAX_RETRIES - k - 1)) [] st)
    as (raw1 & st1 & d1 & E1 & A1 & Q1 & Z1 & S1 & L1);
    [lia | exact earlier_fail |].
  rewrite E1. cbn [seq retry_loop].
  destruct (attempt_once_parsed word (1 + k) raw1 st1 chunks)
    as (st_in & d2 & A2 & Q2 & Z2 & S2 & L2 & _ & E2); auto.
  { destruct A1 as (_ & _ & ->). exact reply. }
  rewrite E2. cbv zeta.
  pose proof (advances_trans _ _ _ _ _ _ _ A1 A2) as A.
  exists st_in, (d1 ++ d2).
  replace (k + 1) with (S k) in A by lia.
  split; [exact A|].
  rewrite sleeps_app, error_log_app, length_app, Z1, Z2, L1, L2.
  split; [simpl; lia|]. split; [reflexivity|].
  destruct (extract_only_logs json_dumps py_repr
              (parse_result json_loads (concat chunks)) word st_in)
    as (C & d & T & Ls & Lq & Lm).
  destruct (extract_failure_logged json_dumps py_repr
              (parse_result json_loads (concat chunks)) word st_in
              (sql_fails st_in))
    as (d_sql & e & Tf & We & De & _).
  specialize (sql_fails st_in).
  destruct (extract_and_generate_sql_for_word json_dumps py_repr
              (parse_result json_loads (concat chunks)) word st_in)
    as [generated st_sql].
  cbn [fst snd] in *. subst generated.
  destruct A as (_ & AT & AC).
  split; [reflexivity|].
  assert (Hd : d = d_sql ++ [ErrorLogged e; Printed (MsgLoggedError word)]).
  { rewrite T in Tf. now apply app_inv_head in Tf. }
  unfold print, emit. cbn [trace api_calls].
  split; [rewrite C, AC; lia|].
  split; [rewrite T, AT, !sleeps_app, Ls, Z2; simpl;
          now rewrite !app_nil_r|].
  split; [rewrite T, AT, !success_log_app, Lq, S1, S2; simpl;
          now rewrite !app_nil_r|].
  split; [rewrite error_log_app; simpl; now rewrite app_nil_r|].
  split; [rewrite AT, !error_log_app, L1, L2; simpl;
          now rewrite app_nil_r|].
  exists d_sql, e.
  split; [exact Tf|]. split; [exact We|]. split; [exact De|].
  rewrite Tf, AT, !error_log_app, L1, L2. simpl.
  now rewrite !app_nil_r.
Qed.

(** Every attempt starts with its console line and the request. *)
Lemma attempt_once_begins word attempt raw st :
  exists d,
    trace (snd (attempt_once' word attempt raw st))
    = trace st
      ++ Printed (MsgProcessingAttempt word attempt) :: ModelQueried word
         :: d /\
    api_calls (snd (attempt_once' word attempt raw st)) = S (api_calls st).
Proof.
  unfold attempt_once, get_translation_from_model.
  change (api_calls (print (MsgProcessingAttempt word attempt) st))
    with (api_calls st).
  destruct (model word (api_calls st)) as [e|chunks].
  - destruct (attempt <? MAX_RETRIES); eexists;
      (split; [unfold log_error, sleep, print, emit; simpl;
               repeat rewrite <- app_assoc; reflexivity|reflexivity]).
  - destruct (no_content is_space (concat chunks)).
    + destruct (attempt <? MAX_RETRIES); eexists;
        (split; [unfold log_error, sleep, print, emit; simpl;
                 repeat rewrite <- app_assoc; reflexivity|reflexivity]).
    + match goal with
      | |- context [parse_model_output_for_assistant_content _ _ ?s] =>
        destruct (parse_advances (concat chunks) s)
          as (st1 & d1 & -> & (P1 & P2 & P3) & _)
      end.
      simpl in P1, P2, P3.
      destruct (truthy (parse_result json_loads (concat chunks))).
      * destruct (extract_uniform json_dumps py_repr
                    (parse_result json_loads (concat chunks)) word)
          as (generated & stmts & d2 & H & _).
        rewrite H.
        destruct generated; [destruct (json_log_write word _)|]; eexists;
          (split; [unfold print, emit, grow; simpl; rewrite P2;
                   repeat rewrite <- app_assoc; reflexivity
                  |simpl; rewrite P3; lia]).
      * destruct (attempt <? MAX_RETRIES); eexists;
          (split; [unfold log_error, sleep, print, emit; simpl; rewrite P2;
                   repeat rewrite <- app_assoc; reflexivity
                  |simpl; rewrite P3; lia]).
Qed.

Lemma retry_loop_extends word attempts : forall raw st,
  exists d,
    trace (snd (retry_loop' word attempts raw st)) = trace st ++ d /\
    api_calls st <= api_calls (snd (retry_loop' word attempts raw st)).
Proof.
  induction attempts as [|a rest IH]; intros raw st; cbn [retry_loop].
  - exists []. simpl. now rewrite app_nil_r.
  - destruct (attempt_once_begins word a raw st) as (d1 & T1 & N1).
    destruct (attempt_once' word a raw st) as [[[|b] raw1] st1];
      cbn [snd] in T1, N1.
    + destruct (IH raw1 st1) as (d2 & T2 & N2).
      eexists. rewrite T2, T1, <- app_assoc. split; [reflexivity|lia].
    + eexists. split; [exact T1|cbn [snd]; lia].
Qed.

Lemma retry_loop_begins word a rest raw st :
  exists d,
    trace (snd (retry_loop' word (a :: rest) raw st))
    = trace st
      ++ Printed (MsgProcessingAttempt word a) :: ModelQueried word :: d.
Proof.
  cbn [retry_loop].
  destruct (attempt_once_begins word a raw st) as (d1 & T1 & _).
  destruct (attempt_once' word a raw st) as [[[|b] raw1] st1];
    cbn [snd] in T1.
  - destruct (retry_loop_extends word rest raw1 st1) as (d2 & T2 & _).
    exists (d1 ++ d2). rewrite T2, T1, <- app_assoc. reflexivity.
  - now exists d1.
Qed.

End RetryFacts.

(** ** An exception compared with a parse failure *)

Section ExceptionAndParseFailure.

Variable json_loads : pystr -> option json.
Variable json_dumps : json -> pystr.
Variable py_repr : json -> pystr.
Variable is_space : N -> bool.
Variable json_log_write : pystr -> json -> option exn.

Local Abbreviation attempt_with m :=
  (attempt_once json_loads json_dumps py_repr is_space m json_log_write).
Local Abbreviation retry_with m :=
  (retry_loop json_loads json_dumps py_repr is_space m json_log_write).
Local Abbreviation retryable' := (retryable json_loads is_space).

(** Two attempts with the same number run the same course when the
    endpoint gives the same reply in both, and also when it gives two
    replies that cannot succeed. *)
Lemma attempt_once_alike (model1 model2 : pystr -> nat -> api_result)
    word attempt raw1 raw2 st1 st2 :
  same_course st1 st2 ->
  model2 word (api_calls st2) = model1 word (api_calls st1) \/
  (retryable' (model1 word (api_calls st1)) = true /\
   retryable' (model2 word (api_calls st2)) = true) ->
  let r1 := attempt_with model1 word attempt raw1 st1 in
  let r2 := attempt_with model2 word attempt raw2 st2 in
  fst (fst r1) = fst (fst r2) /\ same_course (snd r1) (snd r2) /\
  api_calls (snd r1) = S (api_calls st1).
Proof.
  intros SC H.
  assert (R : (retryable' (model1 word (api_calls st1)) = true /\
               retryable' (model2 word (api_calls st2)) = true) \/
              exists chunks,
                model1 word (api_calls st1) = ApiChunks chunks /\
                model2 word (api_calls st2) = ApiChunks chunks /\
                no_content is_space (concat chunks) = false /\
                truthy (parse_result json_loads (concat chunks)) = true).
  { destruct H as [H|H]; [|left; exact H].
    destruct (retryable' (model1 word (api_calls st1))) eqn:R1.
    - left. split; [reflexivity|]. now rewrite H.
    - right. destruct (model1 word (api_calls st1)) as [e|chunks] eqn:M1;
        [discriminate|].
      exists chunks. cbn [retryable] in R1.
      apply orb_false_iff in R1 as [N P]. apply negb_false_iff in P.
      repeat split; auto. }
  clear H. cbv zeta.
  destruct R as [[R1 R2]|(chunks & M1 & M2 & N & P)].
  - destruct (attempt_once_retryable json_loads json_dumps py_repr is_space
                model1 json_log_write word attempt raw1 st1 R1)
      as (raw1' & st1' & d1 & E1 & (A1 & A2 & A3) & Q1 & S1 & Z1 & L1).
    destruct (attempt_once_retryable json_loads json_dumps py_repr is_space
                model2 json_log_write word attempt raw2 st2 R2)
      as (raw2' & st2' & d2 & E2 & (B1 & B2 & B3) & Q2 & S2 & Z2 & L2).
    rewrite E1, E2. cbn [fst snd].
    split; [reflexivity|]. split; [|lia].
    apply (same_course_step st1 st2 st1' st2' [] d1 d2 1); auto;
      rewrite ?app_nil_r; auto; try congruence.
    destruct (attempt <? MAX_RETRIES); [now rewrite L1, L2|].
    destruct L1 as (e1 & -> & _), L2 as (e2 & -> & _). reflexivity.
  - destruct (attempt_once_parsed json_loads json_dumps py_repr is_space
                model1 json_log_write word attempt raw1 st1 chunks M1 N P)
      as (si1 & d1 & (A1 & A2 & A3) & Q1 & Z1 & S1 & L1 & _ & E1).
    destruct (attempt_once_parsed json_loads json_dumps py_repr is_space
                model2 json_log_write word attempt raw2 st2 chunks M2 N P)
      as (si2 & d2 & (B1 & B2 & B3) & Q2 & Z2 & S2 & L2 & _ & E2).
    rewrite E1, E2. cbv zeta.
    destruct (extract_uniform json_dumps py_repr
                (parse_result json_loads (concat chunks)) word)
      as (generated & stmts & d & H & (Ls & Lq & Lm)).
    rewrite !H. cbn [fst snd].
    split; [reflexivity|].
    destruct generated;
      [destruct (json_log_write word
                   (parse_result json_loads (concat chunks)))|];
      (split; [|simpl; lia]);
      (eapply (same_course_step st1 st2 _ _ stmts (d1 ++ d ++ [_])
                 (d2 ++ d ++ [_]) 1);
       [ exact SC
       | simpl; now rewrite A1
       | simpl; now rewrite B1
       | unfold print, emit; simpl; rewrite A2, <- !app_assoc; reflexivity
       | unfold print, emit; simpl; rewrite B2, <- !app_assoc; reflexivity
       | simpl; lia
       | simpl; lia
       | rewrite !model_queries_app, Q1, Q2; reflexivity
       | rewrite !sleeps_app, Z1, Z2; reflexivity
       | rewrite !success_log_app, S1, S2; reflexivity
       | rewrite !error_log_app, L1, L2; reflexivity ]).
Qed.

Lemma retry_loop_alike (model1 model2 : pystr -> nat -> api_result)
    word attempts : forall raw1 raw2 st1 st2,
  same_course st1 st2 ->
  (forall n, api_calls st1 <= n ->
     model2 word n = model1 word n \/
     (retryable' (model1 word n) = true /\
      retryable' (model2 word n) = true)) ->
  let r1 := retry_with model1 word attempts raw1 st1 in
  let r2 := retry_with model2 word attempts raw2 st2 in
  fst r1 = fst r2 /\ same_course (snd r1) (snd r2).
Proof.
  induction attempts as [|a rest IH]; intros raw1 raw2 st1 st2 SC H;
    cbn [retry_loop]; cbv zeta.
  - now split.
  - destruct (attempt_once_alike model1 model2 word a raw1 raw2 st1 st2 SC)
      as (C & SC' & N).
    { destruct SC as (_ & B & _). rewrite <- B. apply H. lia. }
    destruct (attempt_with model1 word a raw1 st1) as [[c1 r1'] s1'].
    destruct (attempt_with model2 word a raw2 st2) as [[c2 r2'] s2'].
    cbn [fst snd] in C, SC', N. subst c2.
    destruct c1 as [|b]; [|now split].
    apply IH; [exact SC'|]. intros n Hn. apply H. lia.
Qed.

Variable model : pystr -> nat -> api_result.

(** C3.  When, after [k] attempts that could not succeed, the request of
    attempt [k + 1] raises, process_word_with_retries catches the
    exception and prints a line for that attempt.  When attempts remain
    it then pauses for RETRY_DELAY_SECONDS and goes on with attempt
    [k + 2], whose request is sent; when attempt [k + 1] was the last one
    it returns False after one call of log_error for the word.  The run
    takes the same course as with an endpoint that differs only in
    answering that request with output that does not parse: the same
    result, statements, requests, pauses and entries in the log of
    successful responses, and as many entries in the error log. *)
Theorem unexpected_exception_retried_like_parse_failure
    (word : pystr) (st : world) (k : nat) (e : exn)
    (attempts_remain : k < MAX_RETRIES)
    (earlier_fail :
       forall i, i < k ->
         retryable json_loads is_space (model word (api_calls st + i))
         = true)
    (raises : model word (api_calls st + k) = ApiRaises e) :
  exists raw_k st_k d_k,
    advances st st_k d_k k /\ length (sleeps d_k) = k /\
    error_log d_k = [] /\ success_log d_k = [] /\
    let caught :=
      {| sql_insert_statements := sql_insert_statements st_k;
         trace :=
           trace st_k
           ++ [Printed (MsgProcessingAttempt word (S k));
               ModelQueried word;
               Printed (MsgUnexpectedError word (S k) e)];
         api_calls := S (api_calls st_k) |} in
    let result :=
      process_word_with_retries json_loads json_dumps py_repr is_space
        model json_log_write word st in
    (S k < MAX_RETRIES ->
     result
     = retry_loop json_loads json_dumps py_repr is_space model
         json_log_write word (seq (S (S k)) (MAX_RETRIES - S k)) raw_k
         (sleep RETRY_DELAY_SECONDS (print MsgRetrying caught)) /\
     exists rest,
       trace (snd result)
       = trace caught
         ++ [Printed MsgRetrying; Slept RETRY_DELAY_SECONDS;
             Printed (MsgProcessingAttempt word (S (S k)));
             ModelQueried word]
         ++ rest) /\
    (S k = MAX_RETRIES ->
     result
     = (false,
        log_error word (UnexpectedAfterMaxRetries e)
          (JStr (if truthy (JStr raw_k) then raw_k
                 else u "No raw output captured due to early exception."))
          caught)) /\
    forall (model2 : pystr -> nat -> api_result) (chunks : list pystr),
      (forall n, n <> api_calls st + k -> model2 word n = model word n) ->
      model2 word (api_calls st + k) = ApiChunks chunks ->
      no_content is_space (concat chunks) = false ->
      truthy (parse_result json_loads (concat chunks)) = false ->
      let result2 :=
        process_word_with_retries json_loads json_dumps py_repr is_space
          model2 json_log_write word st in
      fst result = fst result2 /\ same_course (snd result) (snd result2).
Proof.
  destruct (retry_loop_failures json_loads json_dumps py_repr is_space model
              json_log_write word k 1 (S (MAX_RETRIES - S k)) [] st)
    as (raw_k & st_k & d_k & E & A & Q & Z & SL & L);
    [lia | exact earlier_fail |].
  exists raw_k, st_k, d_k.
  repeat (split; [assumption|]). cbv zeta.
  assert (P : process_word_with_retries json_loads json_dumps py_repr
                is_space model json_log_write word st
              = retry_loop json_loads json_dumps py_repr is_space model
                  json_log_write word (seq (1 + k) (S (MAX_RETRIES - S k)))
                  raw_k st_k).
  { unfold process_word_with_retries. rewrite <- E. do 2 f_equal. lia. }
  assert (R : model word (api_calls st_k) = ApiRaises e).
  { destruct A as (_ & _ & ->). exact raises. }
  cbn [seq retry_loop] in P.
  rewrite (attempt_once_raises json_loads json_dumps py_repr is_space model
             json_log_write word (1 + k) raw_k st_k e R) in P.
  change (1 + k) with (S k) in P.
  split; [|split].
  - intros Hlt. apply Nat.ltb_lt in Hlt. rewrite Hlt in P.
    assert (P' : process_word_with_retries json_loads json_dumps py_repr
                   is_space model json_log_write word st
                 = retry_loop json_loads json_dumps py_repr is_space model
                     json_log_write word (seq (S (S k)) (MAX_RETRIES - S k))
                     raw_k
                     (sleep RETRY_DELAY_SECONDS
                        (print MsgRetrying
                           {| sql_insert_statements :=
                                sql_insert_statements st_k;
                              trace :=
                                trace st_k
                                ++ [Printed (MsgProcessingAttempt word (S k));
                                    ModelQueried word;
                                    Printed (MsgUnexpectedError word (S k) e)];
                              api_calls := S (api_calls st_k) |}))).
    { rewrite P. f_equal. unfold sleep, print, emit. simpl.
      now rewrite <- !app_assoc. }
    split; [exact P'|].
    rewrite P'. apply Nat.ltb_lt in Hlt.
    destruct (MAX_RETRIES - S k) as [|m] eqn:Hm; [lia|].
    cbn [seq].
    match goal with
    | |- context [retry_loop _ _ _ _ _ _ _ (?a :: ?r) ?raw ?s] =>
      destruct (retry_loop_begins json_loads json_dumps py_repr is_space
                  model json_log_write word a r raw s) as (rest & T)
    end.
    exists rest. rewrite T. unfold sleep, print, emit. simpl.
    now rewrite <- !app_assoc.
  - intros Hlast.
    assert (Hge : (S k <? MAX_RETRIES) = false) by (apply Nat.ltb_ge; lia).
    rewrite Hge in P. rewrite P. f_equal.
    unfold log_error, print, emit. simpl. now rewrite <- !app_assoc.
  - intros model2 chunks agree reply Hnc Hparse. cbv zeta.
    unfold process_word_with_retries.
    apply (retry_loop_alike model model2 word (seq 1 MAX_RETRIES) [] [] st
             st (same_course_refl st)).
    intros n Hn. destruct (Nat.eq_dec n (api_calls st + k)) as [->|Hne].
    + right. rewrite raises, reply. split; [reflexivity|].
      cbn [retryable]. now rewrite Hnc, Hparse.
    + left. now apply agree.
Qed.

End ExceptionAndParseFailure.

(** ** Sample runs of the retry loop *)

Lemma exhausted_retries_log_one_error_witness :
  (forall k, k < MAX_RETRIES ->
     retryable sample_json_loads latin_isspace
       (silent_model (u "hund") (api_calls empty_world + k)) = true) /\
  exists st' d,
    process_word_with_retries sample_json_loads sample_json_dumps
      sample_py_repr latin_isspace silent_model json_log_writable (u "hund")
      empty_world
    = (false, st') /\
    advances empty_world st' d MAX_RETRIES /\
    length (model_queries d) = MAX_RETRIES /\
    length (sleeps d) = MAX_RETRIES - 1 /\
    success_log d = [] /\
    exists e, error_log d = [ErrorLogged e] /\ err_word e = u "hund".
Proof.
  split; [intros; reflexivity|].
  apply (exhausted_retries_log_one_error sample_json_loads sample_json_dumps
           sample_py_repr latin_isspace silent_model json_log_writable
           (u "hund") empty_world).
  intros; reflexivity.
Defined.

Lemma unexpected_exception_retried_like_parse_failure_witness :
  4 < MAX_RETRIES /\
  (forall i, i < 4 ->
     retryable sample_json_loads latin_isspace
       (failing_model (u "hund") (api_calls empty_world + i)) = true) /\
  failing_model (u "hund") (api_calls empty_world + 4)
  = ApiRaises (ApiError (u "deadline exceeded")) /\
  fst (process_word_with_retries sample_json_loads sample_json_dumps
         sample_py_repr latin_isspace failing_model json_log_writable
         (u "hund") empty_world)
  = false.
Proof.
  assert (H1 : 4 < MAX_RETRIES) by (unfold MAX_RETRIES; lia).
  assert (H2 : forall i, i < 4 ->
            retryable sample_json_loads latin_isspace
              (failing_model (u "hund") (api_calls empty_world + i)) = true)
    by (intros; reflexivity).
  repeat (split; [assumption || reflexivity|]).
  destruct (unexpected_exception_retried_like_parse_failure
              sample_json_loads sample_json_dumps sample_py_repr
              latin_isspace json_log_writable failing_model (u "hund")
              empty_world 4 (ApiError (u "deadline exceeded")) H1 H2 eq_refl)
    as (raw_k & st_k & d_k & _ & _ & _ & _ & H).
  cbv zeta in H. destruct H as (_ & H & _).
  rewrite (H eq_refl). reflexivity.
Defined.

Lemma sql_generation_failure_returns_at_once_witness :
  null_info_model (u "hund") (api_calls empty_world + 0)
  = ApiChunks [null_info_text] /\
  no_content latin_isspace (concat [null_info_text]) = false /\
  truthy (parse_result sample_json_loads (concat [null_info_text])) = true /\
  (forall st_in,
     fst (extract_and_generate_sql_for_word sample_json_dumps sample_py_repr
            (parse_result sample_json_loads (concat [null_info_text]))
            (u "hund") st_in) = false) /\
  exists st',
    process_word_with_retries sample_json_loads sample_json_dumps
      sample_py_repr latin_isspace null_info_model json_log_writable
      (u "hund") empty_world
    = (false, st') /\
    api_calls st' = 1 /\ sleeps (trace st') = [] /\
    success_log (trace st') = [] /\
    exists entries e,
      error_log (trace st') = entries ++ [ErrorLogged e] /\
      err_word e = u "hund" /\ err_data e = null_info_json.
Proof.
  assert (H1 : no_content latin_isspace (concat [null_info_text]) = false)
    by (vm_compute; reflexivity).
  assert (H2 : truthy (parse_result sample_json_loads
                         (concat [null_info_text])) = true)
    by (vm_compute; reflexivity).
  assert (H3 : forall st_in,
     fst (extract_and_generate_sql_for_word sample_json_dumps sample_py_repr
            (parse_result sample_json_loads (concat [null_info_text]))
            (u "hund") st_in) = false)
    by (intros; vm_compute; reflexivity).
  repeat (split; [assumption || reflexivity|]).
  destruct (sql_generation_failure_returns_at_once sample_json_loads
              sample_json_dumps sample_py_repr latin_isspace null_info_model
              json_log_writable (u "hund") empty_world 0 [null_info_text])
    as (st_in & d_in & A & Z & L & R & C & S & G & _ & _ & F);
    try assumption; try reflexivity.
  - unfold MAX_RETRIES. lia.
  - intros i Hi. lia.
  - eexists. split; [exact R|]. split; [exact C|].
    split; [rewrite S; simpl; destruct (sleeps d_in);
            [reflexivity|discriminate Z]|].
    split; [exact G|].
    destruct F as (d_sql & e & _ & We & De & Le).
    exists (error_log d_sql), e. split; [exact Le|]. split; [exact We|].
    exact De.
Defined.

(** ** The main loop *)

Lemma pauses_after_plain d : forall c r,
  forallb plain d = true ->
  pauses_after c false (d ++ r) = pauses_after c false r.
Proof.
  induction d as [|e d IH]; intros c r; simpl; [reflexivity|].
  rewrite andb_true_iff. intros [He Hd].
  destruct e as [m| | | |]; try (now apply IH).
  destruct m; try discriminate; now apply IH.
Qed.

Lemma pauses_after_announce c b index total word r :
  pauses_after c b (Printed (MsgProcessingWord index total word) :: r)
  = pauses_after index false r.
Proof. reflexivity. Qed.

Lemma pauses_after_result c line word r :
  line = MsgWordProcessed word \/ line = MsgWordFailed word ->
  pauses_after c false (Printed line :: r) = pauses_after c true r.
Proof. intros [->| ->]; reflexivity. Qed.

Lemma pauses_after_pause c n r :
  pauses_after c true (Printed MsgPausing :: Slept n :: r)
  = c :: pauses_after c true r.
Proof. reflexivity. Qed.

Lemma filter_cons_eq {A} (f : A -> bool) x l :
  filter f (x :: l) = if f x then x :: filter f l else filter f l.
Proof. reflexivity. Qed.

Section MainLoopFacts.

Variable json_loads : pystr -> option json.
Variable json_dumps : json -> pystr.
Variable py_repr : json -> pystr.
Variable is_space : N -> bool.
Variable model : pystr -> nat -> api_result.
Variable json_log_write : pystr -> json -> option exn.

Local Abbreviation attempt_once' :=
  (attempt_once json_loads json_dumps py_repr is_space model json_log_write).
Local Abbreviation retry_loop' :=
  (retry_loop json_loads json_dumps py_repr is_space model json_log_write).
Local Abbreviation process_word' :=
  (process_word_with_retries json_loads json_dumps py_repr is_space model
     json_log_write).

Lemma parse_plain raw st :
  exists d,
    trace (snd (parse_model_output_for_assistant_content json_loads raw st))
    = trace st ++ d /\ forallb plain d = true.
Proof.
  unfold parse_model_output_for_assistant_content.
  destruct (json_loads raw) as [j|].
  - destruct (py_in (u "word_info") j) as [[|]|e]; simpl.
    + exists []. now rewrite app_nil_r.
    + exists []. now rewrite app_nil_r.
    + now eexists [_].
  - now eexists [_].
Qed.

Ltac plain_delta :=
  eexists; split;
  [unfold log_error, sleep, print, emit; simpl;
   repeat rewrite <- app_assoc; reflexivity
  |reflexivity].

(** What process_word_with_retries prints is none of the lines of the
    main loop. *)
Lemma attempt_once_plain word attempt raw st :
  exists d,
    trace (snd (attempt_once' word attempt raw st)) = trace st ++ d /\
    forallb plain d = true.
Proof.
  unfold attempt_once, get_translation_from_model.
  change (api_calls (print (MsgProcessingAttempt word attempt) st))
    with (api_calls st).
  destruct (model word (api_calls st)) as [e|chunks].
  - destruct (attempt <? MAX_RETRIES); plain_delta.
  - destruct (no_content is_space (concat chunks)).
    + destruct (attempt <? MAX_RETRIES); plain_delta.
    + match goal with
      | |- context [parse_model_output_for_assistant_content _ _ ?s] =>
        destruct (parse_plain (concat chunks) s) as (d1 & T1 & L1);
        destruct (parse_model_output_for_assistant_content json_loads
                    (concat chunks) s) as [j st1]
      end.
      simpl in T1.
      destruct (truthy j).
      * destruct (extract_confined plain (fun _ => eq_refl)
                    (fun _ => eq_refl) json_dumps py_repr j word
                    (print (MsgParsed word attempt) st1))
          as (_ & d2 & T2 & L2).
        destruct (extract_and_generate_sql_for_word json_dumps py_repr j
                    word (print (MsgParsed word attempt) st1))
          as [generated st2].
        simpl in T2. rewrite T1 in T2.
        destruct generated; [destruct (json_log_write word j)|]; eexists;
          (split;
           [unfold print, emit; simpl; rewrite T2;
            repeat rewrite <- app_assoc; reflexivity|]);
          simpl; rewrite !forallb_app, L1; simpl; rewrite forallb_app, L2;
          reflexivity.
      * destruct (attempt <? MAX_RETRIES); eexists; (split;
          [unfold log_error, sleep, print, emit; simpl; rewrite T1;
           repeat rewrite <- app_assoc; reflexivity|]);
          simpl; rewrite !forallb_app, L1; reflexivity.
Qed.

Lemma retry_loop_plain word attempts : forall raw st,
  exists d,
    trace (snd (retry_loop' word attempts raw st)) = trace st ++ d /\
    forallb plain d = true.
Proof.
  induction attempts as [|a rest IH]; intros raw st; cbn [retry_loop].
  - exists []. simpl. now rewrite app_nil_r.
  - destruct (attempt_once_plain word a raw st) as (d1 & T1 & L1).
    destruct (attempt_once' word a raw st) as [[[|b] raw1] st1];
      simpl in T1.
    + destruct (IH raw1 st1) as (d2 & T2 & L2).
      exists (d1 ++ d2). rewrite T2, T1, app_assoc, forallb_app, L1, L2.
      now split.
    + now exists d1.
Qed.

(** The events of one round of the main loop: the line that announces the
    word, what process_word_with_retries does, the line that reports the
    result, and then the announced pause exactly when the guard holds. *)
Lemma process_indexed_word_trace total i word counts st :
  exists d line,
    trace (snd (process_indexed_word json_loads json_dumps py_repr is_space
                  model json_log_write total i word counts st))
    = trace st
      ++ [Printed (MsgProcessingWord (i + 1) total word)] ++ d
      ++ [Printed line]
      ++ (if ((i + 1) mod 10 =? 0) && (10 <? total)
          then [Printed MsgPausing; Slept RETRY_DELAY_SECONDS] else []) /\
    forallb plain d = true /\
    (line = MsgWordProcessed word \/ line = MsgWordFailed word).
Proof.
  unfold process_indexed_word. destruct counts as [ok ko].
  destruct (retry_loop_plain word (seq 1 MAX_RETRIES) []
              (print (MsgProcessingWord (i + 1) total word) st))
    as (d1 & T1 & L1).
  fold (process_word' word (print (MsgProcessingWord (i + 1) total word) st))
    in T1.
  destruct (process_word' word
              (print (MsgProcessingWord (i + 1) total word) st))
    as [processed st1].
  simpl in T1.
  destruct processed;
    destruct (((i + 1) mod 10 =? 0) && (10 <? total));
    eexists d1, _;
    (split;
     [unfold sleep, print, emit; simpl; rewrite T1;
      repeat rewrite <- app_assoc; simpl; rewrite ?app_nil_r; reflexivity
     |split; [exact L1|]]);
    first [left; reflexivity | right; reflexivity].
Qed.

Lemma main_loop_pauses total words : forall i counts st,
  exists d,
    trace (snd (main_loop json_loads json_dumps py_repr is_space model
                  json_log_write total i words counts st)) = trace st ++ d /\
    forall c b,
      pauses_after c b d
      = filter (fun j => (j mod 10 =? 0) && (10 <? total))
          (seq (S i) (length words)).
Proof.
  induction words as [|w rest IH]; intros i counts st; cbn [main_loop].
  - exists []. simpl. split; [now rewrite app_nil_r|].
    intros c b. now destruct b.
  - destruct (process_indexed_word_trace total i w counts st)
      as (d1 & line & T1 & L1 & Hline).
    destruct (process_indexed_word json_loads json_dumps py_repr is_space
                model json_log_write total i w counts st) as [counts1 st1].
    cbn [snd] in T1. rewrite Nat.add_1_r in T1.
    destruct (IH (S i) counts1 st1) as (d2 & T2 & P2).
    change (seq (S i) (length (w :: rest)))
      with (S i :: seq (S (S i)) (length rest)).
    rewrite filter_cons_eq.
    remember ((S i mod 10 =? 0) && (10 <? total)) as guard.
    exists ([Printed (MsgProcessingWord (S i) total w)] ++ d1
            ++ [Printed line]
            ++ (if guard
                then [Printed MsgPausing; Slept RETRY_DELAY_SECONDS]
                else [])
            ++ d2).
    split.
    { rewrite T2, T1. now rewrite <- !app_assoc. }
    intros c b.
    change (pauses_after c b ([?e] ++ ?r)) with (pauses_after c b (e :: r)).
    rewrite pauses_after_announce, (pauses_after_plain _ _ _ L1).
    change ([Printed line] ++ ?r) with (Printed line :: r).
    rewrite (pauses_after_result _ _ _ _ Hline).
    destruct guard; cbn [app]; rewrite ?pauses_after_pause; now rewrite P2.
Qed.

(** C5 (amended).  The main loop pauses after word [i], counted from 1, if
    and only if [i] is a multiple of ten and more than ten words are to be
    processed; it pauses at most once after a word.  The pauses meant are
    the calls of [time.sleep] between the result of a word and the next
    word, not those between the attempts for a word. *)
Theorem pause_after_each_tenth_of_many_words
    (words_to_process_query : list pystr) (st : world) :
  exists d,
    trace (snd (process_all_words json_loads json_dumps py_repr is_space
                  model json_log_write words_to_process_query st))
    = trace st ++ d /\
    NoDup (pauses_after 0 false d) /\
    forall i,
      In i (pauses_after 0 false d) <->
      1 <= i <= length words_to_process_query /\ i mod 10 = 0 /\
      10 < length words_to_process_query.
Proof.
  unfold process_all_words.
  destruct (main_loop_pauses (length words_to_process_query)
              words_to_process_query 0 (0, 0) st) as (d & T & P).
  exists d. split; [exact T|]. rewrite P.
  split; [apply NoDup_filter, seq_NoDup|].
  intros i. rewrite filter_In, in_seq, andb_true_iff, Nat.eqb_eq, Nat.ltb_lt.
  lia.
Qed.

End MainLoopFacts.

(** C5 as stated fails: with ten words to process there is no pause after
    the tenth, nor after any other word, although the endpoint is silent
    and every word takes its four pauses between attempts. *)
Lemma no_pause_after_tenth_of_ten_words :
  10 mod 10 = 0 /\
  let t :=
    trace (snd (process_all_words sample_json_loads sample_json_dumps
                  sample_py_repr latin_isspace silent_model json_log_writable
                  (repeat (u "hund") 10) empty_world)) in
  pauses_after 0 false t = [] /\ length (sleeps t) = 40.
Proof. split; [|split]; vm_compute; reflexivity. Qed.

(** ** Counting the statements *)

Lemma word_statement_kind repr q b p i :
  let stmt := word_statement repr q b p i in
  is_word_insert stmt = true /\ is_translation_insert stmt = false /\
  is_example_insert stmt = false.
Proof.
  cbv zeta. unfold word_statement.
  generalize (u "(" ++ escape_sql_string repr (JStr q) ++ u ", "
              ++ escape_sql_string repr (JStr b) ++ u ", "
              ++ escape_sql_string repr p ++ u ", "
              ++ escape_sql_string repr (JStr i) ++ u ");").
  intros r. repeat split; vm_compute; reflexivity.
Qed.

Lemma translation_statement_kind repr wid m a t :
  let stmt := translation_statement repr wid m a t in
  is_word_insert stmt = false /\ is_translation_insert stmt = true /\
  is_example_insert stmt = false.
Proof.
  cbv zeta. unfold translation_statement.
  generalize (u "(" ++ wid ++ u ", " ++ escape_sql_string repr m ++ u ", "
              ++ escape_sql_string repr a ++ u ", "
              ++ escape_sql_string repr t ++ u ");").
  intros r. repeat split; vm_compute; reflexivity.
Qed.

Lemma example_statement_form repr tid s t :
  example_form (example_statement repr tid s t).
Proof.
  unfold example_form, example_statement.
  generalize (u "(" ++ tid ++ u ", " ++ escape_sql_string repr s ++ u ", "
              ++ escape_sql_string repr t ++ u ");").
  intros r. repeat split; vm_compute; reflexivity.
Qed.

Lemma example_forms_count xs :
  Forall example_form xs ->
  count_where is_word_insert xs = 0 /\
  count_where is_translation_insert xs = 0 /\
  count_where is_example_insert xs = length xs.
Proof.
  unfold count_where.
  induction 1 as [|x xs (W & T & E) _ (IW & IT & IE)]; simpl; [auto|].
  rewrite W, T, E. simpl. auto.
Qed.

Lemma count_where_app {A} (f : A -> bool) a b :
  count_where f (a ++ b) = count_where f a + count_where f b.
Proof. unfold count_where. now rewrite filter_app, length_app. Qed.

Lemma nonempty_str_truthy v : is_nonempty_str v = true -> truthy v = true.
Proof. destruct v as [| | | |[|c s]| |]; simpl; congruence. Qed.

Lemma transformed_is_nonempty_str v v' :
  truthy v = true -> transform_example_text v = Ok v' ->
  is_nonempty_str v = true.
Proof. destruct v as [| | | |[|c s]| |]; simpl; congruence. Qed.

Lemma count_where_cons {A} (f : A -> bool) x l :
  count_where f (x :: l) = (if f x then 1 else 0) + count_where f l.
Proof. unfold count_where. simpl. now destruct (f x). Qed.

Lemma effect_ok f st st' : effect f st = (Ok tt, st') -> st' = f st.
Proof. unfold effect. now intros [= <-]. Qed.

Lemma ret_ok {A} (a b : A) st st' : ret a st = (Ok b, st') -> st' = st.
Proof. unfold ret. now intros [= _ <-]. Qed.

Section GenerationFacts.

Variable json_dumps : json -> pystr.
Variable py_repr : json -> pystr.

Lemma for_example_ok subq ex st st' :
  for_example py_repr subq ex st = (Ok tt, st') ->
  trace st' = trace st /\
  exists stmts,
    sql_insert_statements st' = sql_insert_statements st ++ stmts /\
    Forall example_form stmts /\
    length stmts = if example_complete ex then 1 else 0.
Proof.
  unfold for_example. intros H.
  apply bind_ok in H as (src & s1 & H1 & H). apply lift_ok in H1 as [H1 ->].
  apply bind_ok in H as (tgt & s2 & H2 & H). apply lift_ok in H2 as [H2 ->].
  assert (Hc : example_complete ex
               = is_nonempty_str src && is_nonempty_str tgt).
  { unfold example_complete, field. now rewrite H1, H2. }
  rewrite Hc. clear Hc.
  destruct (truthy src && truthy tgt) eqn:Hb.
  - apply andb_true_iff in Hb as [Hs Ht].
    apply bind_ok in H as (src' & s3 & H3 & H).
    apply lift_ok in H3 as [H3 ->].
    apply bind_ok in H as (tgt' & s4 & H4 & H).
    apply lift_ok in H4 as [H4 ->].
    apply effect_ok in H. subst st'.
    rewrite (transformed_is_nonempty_str _ _ Hs H3),
      (transformed_is_nonempty_str _ _ Ht H4).
    split; [reflexivity|]. eexists [_].
    split; [reflexivity|]. split; [|reflexivity].
    constructor; [apply example_statement_form|constructor].
  - apply ret_ok in H. subst st'.
    assert (Hn : is_nonempty_str src && is_nonempty_str tgt = false).
    { destruct (is_nonempty_str src) eqn:Es; [|reflexivity].
      destruct (is_nonempty_str tgt) eqn:Et; [|reflexivity].
      now rewrite (nonempty_str_truthy _ Es), (nonempty_str_truthy _ Et)
        in Hb. }
    rewrite Hn. split; [reflexivity|]. exists [].
    rewrite app_nil_r. repeat split. constructor.
Qed.

Lemma for_examples_ok subq exs : forall st st',
  for_each exs (for_example py_repr subq) st = (Ok tt, st') ->
  trace st' = trace st /\
  exists stmts,
    sql_insert_statements st' = sql_insert_statements st ++ stmts /\
    Forall example_form stmts /\
    length stmts = count_where example_complete exs.
Proof.
  induction exs as [|ex exs IH]; intros st st' H; cbn [for_each] in H.
  - apply ret_ok in H. subst st'. split; [reflexivity|]. exists [].
    rewrite app_nil_r. repeat split. constructor.
  - apply bind_ok in H as ([] & s1 & H1 & H).
    apply for_example_ok in H1 as (T1 & x1 & Q1 & F1 & L1).
    apply IH in H as (T2 & x2 & Q2 & F2 & L2).
    split; [congruence|]. exists (x1 ++ x2).
    split; [rewrite Q2, Q1; now rewrite app_assoc|].
    split; [now apply Forall_app|].
    rewrite length_app, count_where_cons. lia.
Qed.

Lemma for_translation_ok w wid t st st' :
  for_translation py_repr w wid t st = (Ok tt, st') ->
  exists stmts d,
    sql_insert_statements st' = sql_insert_statements st ++ stmts /\
    trace st' = trace st ++ d /\
    translation_outcome w t stmts d.
Proof.
  unfold for_translation. intros H.
  apply bind_ok in H as (m & s1 & H1 & H). apply lift_ok in H1 as [H1 ->].
  apply bind_ok in H as (a & s2 & H2 & H). apply lift_ok in H2 as [H2 ->].
  apply bind_ok in H as (y & s3 & H3 & H). apply lift_ok in H3 as [H3 ->].
  assert (Hm : has_meaning t = match m with JNull => false | _ => true end).
  { unfold has_meaning, field. now rewrite H1. }
  unfold translation_outcome. rewrite Hm. clear Hm.
  destruct m.
  1: { apply effect_ok in H. subst st'. exists []. eexists.
       split; [now rewrite app_nil_r|].
       split; [apply log_error_trace|].
       simpl. rewrite str_eqb_refl. repeat split. }
  all: apply bind_ok in H as ([] & s4 & H4 & H);
    apply effect_ok in H4; subst s4;
    apply bind_ok in H as (exv & s5 & H5 & H);
    apply lift_ok in H5 as [H5 ->];
    apply bind_ok in H as (exs & s6 & H6 & H);
    apply lift_ok in H6 as [H6 ->];
    apply for_examples_ok in H as (T & ex_stmts & Q & F & L);
    assert (He : examples_of t = exs)
      by (unfold examples_of, field, elements; now rewrite H5, H6);
    rewrite He;
    destruct (example_forms_count ex_stmts F) as (CW & CT & CE);
    match type of Q with
    | _ = sql_insert_statements
            (append_sql (translation_statement _ _ ?mm _ _) _) ++ _ =>
      exists (translation_statement py_repr wid mm a y :: ex_stmts), [];
      pose proof (translation_statement_kind py_repr wid mm a y)
        as (KW & KT & KE)
    end;
    cbv zeta in KW, KT, KE;
    (split; [rewrite Q; simpl; now rewrite <- app_assoc|]);
    (split; [simpl in T; now rewrite app_nil_r|]);
    rewrite !count_where_cons, KW, KT, KE, CW, CT, CE; simpl;
    repeat split; lia.
Qed.

Lemma for_translations_ok w wid ts : forall st st',
  for_each ts (for_translation py_repr w wid) st = (Ok tt, st') ->
  exists stmts d,
    sql_insert_statements st' = sql_insert_statements st ++ stmts /\
    trace st' = trace st ++ d /\
    translations_outcome w ts stmts d.
Proof.
  induction ts as [|t ts IH]; intros st st' H; cbn [for_each] in H.
  - apply ret_ok in H. subst st'. exists [], [].
    rewrite !app_nil_r. repeat split.
  - apply bind_ok in H as ([] & s1 & H1 & H).
    apply for_translation_ok in H1
      as (x1 & d1 & Q1 & T1 & W1 & N1 & E1 & L1 & G1 & K1).
    apply IH in H as (x2 & d2 & Q2 & T2 & W2 & N2 & E2 & L2 & G2 & K2).
    exists (x1 ++ x2), (d1 ++ d2).
    split; [rewrite Q2, Q1; now rewrite app_assoc|].
    split; [rewrite T2, T1; now rewrite app_assoc|].
    unfold translations_outcome, complete_examples in *.
    rewrite !count_where_app, error_log_app, !length_app, forallb_app,
      !count_where_cons, W1, W2, N1, N2, E1, E2, L1, L2, G1, G2, K1, K2.
    cbn [filter]. destruct (has_meaning t); cbn [negb map];
      unfold list_sum; cbn [fold_right];
      repeat split; try reflexivity; lia.
Qed.

Lemma primary_type_pure wi st o st1 :
  primary_type wi st = (o, st1) -> st1 = st.
Proof.
  unfold primary_type, bind, lift, ret.
  destruct (method_get wi (u "base_form") JNull) as [bf|e];
    [|now intros [= _ <-]].
  destruct bf; try (now intros [= _ <-]).
  destruct (method_get wi (u "additional_info") JNull) as [ai|e];
    now intros [= _ <-].
Qed.

Lemma generate_sql_ok j w st st' :
  generate_sql json_dumps py_repr j w st = (Ok tt, st') ->
  exists stmts d,
    sql_insert_statements st' = sql_insert_statements st ++ stmts /\
    trace st' = trace st ++ d /\
    count_where is_word_insert stmts = 1 /\
    count_where is_translation_insert stmts
    = count_where has_meaning (translations_of j) /\
    count_where is_example_insert stmts
    = complete_examples (translations_of j) /\
    length stmts
    = 1 + count_where has_meaning (translations_of j)
      + complete_examples (translations_of j) /\
    length (error_log d)
    = count_where (fun t => negb (has_meaning t)) (translations_of j) /\
    forallb (is_skip_entry w) (error_log d) = true.
Proof.
  unfold generate_sql. intros H.
  apply bind_ok in H as (wi & s1 & H1 & H). apply lift_ok in H1 as [H1 ->].
  apply bind_ok in H as (tv & s2 & H2 & H). apply lift_ok in H2 as [H2 ->].
  apply bind_ok in H as (bf & s3 & H3 & H). apply lift_ok in H3 as [H3 ->].
  apply bind_ok in H as (ai & s4 & H4 & H). apply lift_ok in H4 as [H4 ->].
  apply bind_ok in H as (pt & s5 & H5 & H).
  apply primary_type_pure in H5. subst s5.
  apply bind_ok in H as ([] & s6 & H6 & H). apply effect_ok in H6. subst s6.
  apply bind_ok in H as (ts & s7 & H7 & H). apply lift_ok in H7 as [H7 ->].
  apply for_translations_ok in H
    as (x2 & d2 & Q2 & T2 & W2 & N2 & E2 & L2 & G2 & K2).
  assert (Ht : translations_of j = ts)
    by (unfold translations_of, field, elements; now rewrite H2, H7).
  rewrite Ht.
  pose proof (word_statement_kind py_repr w (json_dumps bf) pt
                (json_dumps ai)) as (KW & KT & KE).
  cbv zeta in KW, KT, KE.
  exists (word_statement py_repr w (json_dumps bf) pt (json_dumps ai) :: x2),
    d2.
  split; [rewrite Q2; simpl; now rewrite <- app_assoc|].
  split; [exact T2|].
  cbn [length].
  rewrite !count_where_cons, KW, KT, KE, W2, N2, E2, L2, G2, K2.
  repeat split; lia.
Qed.

(** C4 (amended).  When SQL generation succeeds on a parsed response, it
    has appended exactly one INSERT OR IGNORE for the word row, one INSERT
    for each translation whose meaning is present and not null, and one
    INSERT for each example, of such a translation, whose source and target
    text are both non-empty, and nothing else; for each translation without
    a meaning it has written one skip entry to the error log, and nothing
    else there.  A translation object without a meaning is skipped with
    that entry and does not raise. *)
Theorem successful_generation_statement_counts
    (assistant_content_json : json) (original_queried_word : pystr)
    (st st' : world)
    (generated :
       extract_and_generate_sql_for_word json_dumps py_repr
         assistant_content_json original_queried_word st = (true, st')) :
  (exists stmts d,
     sql_insert_statements st' = sql_insert_statements st ++ stmts /\
     trace st' = trace st ++ d /\
     count_where is_word_insert stmts = 1 /\
     count_where is_translation_insert stmts
     = count_where has_meaning (translations_of assistant_content_json) /\
     count_where is_example_insert stmts
     = complete_examples (translations_of assistant_content_json) /\
     length stmts
     = 1 + count_where has_meaning (translations_of assistant_content_json)
       + complete_examples (translations_of assistant_content_json) /\
     length (error_log d)
     = count_where (fun t => negb (has_meaning t))
         (translations_of assistant_content_json) /\
     forallb (is_skip_entry original_queried_word) (error_log d) = true) /\
  forall (kvs : list (pystr * json)) (word_id_subquery : pystr)
         (st0 : world),
    has_meaning (JObj kvs) = false ->
    for_translation py_repr original_queried_word word_id_subquery
      (JObj kvs) st0
    = (Ok tt,
       log_error original_queried_word SkippingTranslation (JObj kvs) st0).
Proof.
  split.
  - apply generate_sql_ok.
    unfold extract_and_generate_sql_for_word in generated.
    destruct (generate_sql json_dumps py_repr assistant_content_json
                original_queried_word st) as [[[]|e] s1].
    + now injection generated as <-.
    + destruct e; discriminate.
  - intros kvs wid st0 Hm. unfold has_meaning, field in Hm.
    unfold for_translation, bind, lift, method_get in *.
    destruct (dict_lookup (u "meaning") kvs) as [m|].
    + destruct m; try discriminate.
      destruct (dict_lookup (u "additionalInfo") kvs),
        (dict_lookup (u "type") kvs); reflexivity.
    + destruct (dict_lookup (u "additionalInfo") kvs),
        (dict_lookup (u "type") kvs); reflexivity.
Qed.

End GenerationFacts.

Lemma successful_generation_statement_counts_witness :
  let run :=
    extract_and_generate_sql_for_word sample_json_dumps sample_py_repr
      haus_json (u "haus") empty_world in
  run = (true, snd run) /\
  exists stmts d,
    sql_insert_statements (snd run)
    = sql_insert_statements empty_world ++ stmts /\
    trace (snd run) = trace empty_world ++ d /\
    count_where is_word_insert stmts = 1 /\
    count_where is_translation_insert stmts
    = count_where has_meaning (translations_of haus_json) /\
    count_where is_example_insert stmts
    = complete_examples (translations_of haus_json) /\
    length stmts
    = 1 + count_where has_meaning (translations_of haus_json)
      + complete_examples (translations_of haus_json) /\
    length (error_log d)
    = count_where (fun t => negb (has_meaning t)) (translations_of haus_json)
    /\
    forallb (is_skip_entry (u "haus")) (error_log d) = true.
Proof.
  cbv zeta.
  assert (E : extract_and_generate_sql_for_word sample_json_dumps
                sample_py_repr haus_json (u "haus") empty_world
              = (true,
                 snd (extract_and_generate_sql_for_word sample_json_dumps
                        sample_py_repr haus_json (u "haus") empty_world)))
    by (vm_compute; reflexivity).
  split; [exact E|].
  exact (proj1 (successful_generation_statement_counts sample_json_dumps
                  sample_py_repr haus_json (u "haus") empty_world _ E)).
Defined.

Example haus_counts :
  count_where has_meaning (translations_of haus_json) = 1 /\
  complete_examples (translations_of haus_json) = 1 /\
  count_where (fun t => negb (has_meaning t)) (translations_of haus_json) = 1.
Proof. repeat split; vm_compute; reflexivity. Qed.

(** C4 as stated fails.  The response whose word_info is null is accepted
    by the parser, yet SQL generation raises on it and appends no statement
    for the word row.  And on a response whose only translation lacks a
    meaning, generation succeeds without a statement for the example of
    that translation, although its source and target text are non-empty. *)
Lemma accepted_response_without_word_row :
  (parse_result sample_json_loads null_info_text = null_info_json /\
   truthy null_info_json = true /\
   extract_and_generate_sql_for_word sample_json_dumps sample_py_repr
     null_info_json (u "hund") empty_world
   = (false,
      log_error (u "hund") (UnexpectedDuringSqlGeneration AttributeError)
        null_info_json empty_world) /\
   count_where is_word_insert
     (sql_insert_statements
        (snd (extract_and_generate_sql_for_word sample_json_dumps
                sample_py_repr null_info_json (u "hund") empty_world))) = 0)
  /\
  (fst (extract_and_generate_sql_for_word sample_json_dumps sample_py_repr
          orphan_example_json (u "haus") empty_world) = true /\
   list_sum
     (map (fun t => count_where example_complete (examples_of t))
        (translations_of orphan_example_json)) = 1 /\
   count_where is_example_insert
     (sql_insert_statements
        (snd (extract_and_generate_sql_for_word sample_json_dumps
                sample_py_repr orphan_example_json (u "haus") empty_world)))
   = 0).
Proof. repeat split; vm_compute; reflexivity. Qed.

(** * Further properties *)

(** ** Tokens in their context *)

Section TokenContext.

Variable is_alnum : N -> bool.

(** Every letter of the token pattern is a word character, as in the
    Unicode tables of Python. *)
Hypothesis class_is_alnum :
  forall c, in_token_class c = true -> is_alnum c = true.

Local Abbreviation is_word c := (word_char is_alnum (Some c)).

Lemma class_is_word c : in_token_class c = true -> is_word c = true.
Proof. intros H. simpl. now rewrite (class_is_alnum _ H). Qed.

Lemma non_word_not_class c : is_word c = false -> in_token_class c = false.
Proof.
  intros H. destruct (in_token_class c) eqn:E; [|reflexivity].
  now rewrite (class_is_word _ E) in H.
Qed.

Lemma findall_from_substring prev skip s w :
  In w (findall_from is_alnum prev skip s) ->
  exists pre post, s = pre ++ w ++ post.
Proof.
  clear class_is_alnum. revert prev skip.
  induction s as [|c t IH]; intros prev skip; cbn [findall_from];
    [intros []|].
  assert (Hrec : forall p k,
    In w (findall_from is_alnum p k t) ->
    exists pre post, c :: t = pre ++ w ++ post).
  { intros p k Hw. destruct (IH _ _ Hw) as (pre & post & ->).
    now exists (c :: pre), post. }
  destruct skip as [|k]; [|apply Hrec].
  destruct (match_here is_alnum prev (c :: t)) as [m|] eqn:Hm;
    [|apply Hrec].
  intros [<-|Hw]; [|eapply Hrec; eauto].
  destruct (match_here_prefix _ _ _ _ Hm) as (_ & _ & r & Hr).
  exists [], r. exact Hr.
Qed.

(** After the letter [last], a run of letters that ends at a character
    that is no word character, or at the end of the text, is matched. *)
Lemma match_run_delimited w : forall last tail,
  is_word last = true ->
  Forall (fun c => in_token_class c = true) w ->
  match tail with
  | [] => True
  | sep :: _ => is_word sep = false
  end ->
  match_run is_alnum last (w ++ tail) = Some w.
Proof.
  induction w as [|c w IH]; intros last tail Hlast Hw Htail.
  - destruct tail as [|sep rest]; cbn [app match_run].
    + unfold at_boundary. cbn [word_char] in *. now rewrite Hlast.
    + rewrite (non_word_not_class _ Htail).
      unfold at_boundary. now rewrite Hlast, Htail.
  - inversion Hw as [|? ? Hc Hw']; subst. cbn [app match_run].
    rewrite Hc, (IH c tail (class_is_word _ Hc) Hw' Htail). reflexivity.
Qed.

(** After the letter [last], a run of letters that runs into a word
    character outside the pattern is not matched, however short the
    engine makes it. *)
Lemma match_run_glued w : forall last x rest,
  is_word last = true ->
  Forall (fun c => in_token_class c = true) w ->
  is_word x = true -> in_token_class x = false ->
  match_run is_alnum last (w ++ x :: rest) = None.
Proof.
  induction w as [|c w IH]; intros last x rest Hlast Hw Hx Hxc.
  - cbn [app match_run]. rewrite Hxc. unfold at_boundary.
    now rewrite Hlast, Hx.
  - inversion Hw as [|? ? Hc Hw']; subst. cbn [app match_run].
    rewrite Hc, (IH c x rest (class_is_word _ Hc) Hw' Hx Hxc).
    unfold at_boundary. now rewrite Hlast, (class_is_word _ Hc).
Qed.

Lemma findall_from_skip a : forall prev r,
  findall_from is_alnum prev (length a) (a ++ r)
  = findall_from is_alnum (prev_after prev a) 0 r.
Proof.
  clear class_is_alnum.
  induction a as [|c a IH]; intros prev r; [reflexivity|].
  cbn [length app findall_from]. apply IH.
Qed.

Lemma prev_after_letters c w :
  Forall (fun c => in_token_class c = true) (c :: w) ->
  exists l, prev_after (Some c) w = Some l /\ is_word l = true.
Proof.
  revert c. induction w as [|d w IH]; intros c Hw;
    inversion Hw as [|? ? Hc Hw']; subst.
  - exists c. split; [reflexivity|now apply class_is_word].
  - apply (IH d Hw').
Qed.

Lemma findall_inside_glued w : forall prev x rest,
  word_char is_alnum prev = true ->
  Forall (fun c => in_token_class c = true) w ->
  in_token_class x = false ->
  findall_from is_alnum prev 0 (w ++ x :: rest)
  = findall_from is_alnum (Some x) 0 rest.
Proof.
  induction w as [|c w IH]; intros prev x rest Hprev Hw Hxc.
  - cbn [app findall_from match_here]. now rewrite Hxc, andb_false_r.
  - inversion Hw as [|? ? Hc Hw']; subst.
    cbn [app findall_from match_here]. unfold at_boundary.
    rewrite Hprev, (class_is_word _ Hc). cbn [xorb andb].
    apply IH; auto. now apply class_is_word.
Qed.

(** X2.  In the text handed to [re.findall], letters that run into a
    word character outside the pattern (a digit, an underscore, another
    letter) give no token at all: the scan goes on behind that
    character. *)
Theorem letters_glued_to_a_word_character_are_dropped
    (prev : option N) (w : pystr) (x : N) (rest : pystr)
    (w_letters : letters w)
    (x_word : is_word x = true) (x_outside : in_token_class x = false) :
  findall_from is_alnum prev 0 (w ++ x :: rest)
  = findall_from is_alnum (Some x) 0 rest.
Proof.
  destruct w_letters as [Hne Hw]. destruct w as [|c w]; [congruence|].
  inversion Hw as [|? ? Hc Hw']; subst.
  cbn [app findall_from match_here].
  rewrite Hc, (match_run_glued w c x rest (class_is_word _ Hc) Hw' x_word
                 x_outside).
  destruct (at_boundary is_alnum prev (Some c)); cbn [andb option_map];
    apply findall_inside_glued; auto; now apply class_is_word.
Qed.

(** X3.  Letters that stand between characters that are no word
    characters, or between such a character and an end of the text, are
    one token, and the scan goes on behind them. *)
Theorem delimited_letters_are_one_token
    (prev : option N) (w : pystr)
    (prev_no_word : word_char is_alnum prev = false)
    (w_letters : letters w) :
  findall_from is_alnum prev 0 w = [w] /\
  forall sep rest,
    is_word sep = false ->
    findall_from is_alnum prev 0 (w ++ sep :: rest)
    = w :: findall_from is_alnum (Some sep) 0 rest.
Proof.
  destruct w_letters as [Hne Hw]. destruct w as [|c w]; [congruence|].
  inversion Hw as [|? ? Hc Hw']; subst.
  assert (Hb : at_boundary is_alnum prev (Some c) = true).
  { unfold at_boundary. now rewrite prev_no_word, (class_is_word _ Hc). }
  split.
  - cbn [findall_from match_here]. rewrite Hb, Hc. cbn [andb].
    pose proof (match_run_delimited w c [] (class_is_word _ Hc) Hw' I) as M.
    rewrite app_nil_r in M. rewrite M. cbn [option_map].
    replace (length (c :: w) - 1) with (length w) by (cbn [length]; lia).
    f_equal.
    rewrite <- (app_nil_r w) at 2. now rewrite findall_from_skip.
  - intros sep rest Hsep. cbn [app findall_from match_here].
    rewrite Hb, Hc. cbn [andb].
    rewrite (match_run_delimited w c (sep :: rest) (class_is_word _ Hc) Hw'
               Hsep).
    cbn [option_map].
    replace (length (c :: w) - 1) with (length w) by (cbn [length]; lia).
    f_equal.
    rewrite findall_from_skip.
    destruct (prev_after_letters c w Hw) as (l & -> & Hl).
    cbn [findall_from match_here].
    now rewrite (non_word_not_class _ Hsep), andb_false_r.
Qed.

End TokenContext.

(** X1.  Each extracted word is a contiguous piece of the lowercased
    content of the file. *)
Theorem extracted_words_occur_in_lowercased_text
    (str_lower : pystr -> pystr) (is_alnum : N -> bool)
    (text file_path : pystr) :
  Forall (fun w => exists pre post, str_lower text = pre ++ w ++ post)
    (read_and_extract_words_from_text_file str_lower is_alnum
       (fun _ => FileText text) file_path).
Proof.
  apply Forall_forall. intros w Hw.
  unfold read_and_extract_words_from_text_file in Hw.
  apply (proj1 (sorted_set_In _ _)) in Hw.
  eapply findall_from_substring, Hw.
Qed.

Lemma latin_class_is_alnum c :
  in_token_class c = true -> latin_isalnum c = true.
Proof.
  unfold in_token_class, in_lower_class, in_upper_class, latin_isalnum.
  to_prop. lia.
Qed.

Lemma letters_glued_to_a_word_character_are_dropped_witness :
  (forall c, in_token_class c = true -> latin_isalnum c = true) /\
  letters (u "abc") /\
  word_char latin_isalnum (Some 49%N) = true /\
  in_token_class 49%N = false /\
  findall_from latin_isalnum None 0 (u "abc" ++ 49%N :: u " x")
  = findall_from latin_isalnum (Some 49%N) 0 (u " x").
Proof.
  assert (H1 : letters (u "abc"))
    by (split; [vm_compute; discriminate|vm_compute; repeat constructor]).
  repeat (split; [exact latin_class_is_alnum || exact H1 || reflexivity|]).
  exact (letters_glued_to_a_word_character_are_dropped latin_isalnum
           latin_class_is_alnum None (u "abc") 49%N (u " x") H1 eq_refl
           eq_refl).
Defined.

Lemma delimited_letters_are_one_token_witness :
  (forall c, in_token_class c = true -> latin_isalnum c = true) /\
  word_char latin_isalnum None = false /\
  letters (u "hund") /\
  findall_from latin_isalnum None 0 (u "hund") = [u "hund"].
Proof.
  assert (H1 : letters (u "hund"))
    by (split; [vm_compute; discriminate|vm_compute; repeat constructor]).
  repeat (split; [exact latin_class_is_alnum || exact H1 || reflexivity|]).
  exact (proj1 (delimited_letters_are_one_token latin_isalnum
                  latin_class_is_alnum None (u "hund") eq_refl H1)).
Defined.

(** ** Filtering, further *)

Lemma get_new_words_as_filter (str_lower : pystr -> pystr) words rows path :
  get_new_words_not_in_db str_lower words (fun _ => DbRows rows) path
  = filter
      (fun w =>
         negb (existsb (fun r => str_eqb (str_lower w) (str_lower r)) rows))
      words.
Proof.
  unfold get_new_words_not_in_db.
  destruct words as [|w ws] eqn:E; [reflexivity|].
  rewrite <- E. clear E.
  rewrite fold_left_append_filter. simpl.
  apply filter_ext. intros a. now rewrite set_mem_fold.
Qed.

Lemma filter_idempotent {A} (f : A -> bool) l :
  filter f (filter f l) = filter f l.
Proof.
  induction l as [|x l IH]; [reflexivity|]. simpl.
  destruct (f x) eqn:E; simpl; rewrite ?E, IH; reflexivity.
Qed.

Lemma filter_strictly_sorted (f : pystr -> bool) l :
  StronglySorted str_lt l -> StronglySorted str_lt (filter f l).
Proof.
  induction 1 as [|x l Hs IH Hx]; simpl; [constructor|].
  destruct (f x); [|assumption].
  constructor; [assumption|].
  rewrite Forall_forall in *. intros y Hy.
  apply filter_In in Hy as [Hy _]. now apply Hx.
Qed.

(** X4.  Filtering again against the same rows changes nothing, and no
    word that is left equals a stored queried_word when case is ignored. *)
Theorem filtering_is_idempotent_and_removes_known_words
    (str_lower : pystr -> pystr) (words_from_text rows : list pystr)
    (db_path : pystr) :
  let new_words :=
    get_new_words_not_in_db str_lower words_from_text
      (fun _ => DbRows rows) db_path in
  get_new_words_not_in_db str_lower new_words (fun _ => DbRows rows) db_path
  = new_words /\
  Forall (fun w => forall r, In r rows -> str_lower w <> str_lower r)
    new_words.
Proof.
  cbv zeta. rewrite !get_new_words_as_filter. split.
  - apply filter_idempotent.
  - apply Forall_forall. intros w Hw r Hr E.
    apply filter_In in Hw as [_ Hw]. apply negb_true_iff in Hw.
    assert (X : existsb (fun r => str_eqb (str_lower w) (str_lower r)) rows
                = true).
    { apply existsb_exists. exists r. split; [exact Hr|].
      now apply str_eqb_eq. }
    congruence.
Qed.

Lemma get_new_words_filter_or_all (str_lower : pystr -> pystr) words db path :
  get_new_words_not_in_db str_lower words db path = words \/
  exists f, get_new_words_not_in_db str_lower words db path = filter f words.
Proof.
  unfold get_new_words_not_in_db.
  destruct words as [|w ws]; [now left|].
  destruct (db path) as [rows| |]; [|now left|now left].
  right. eexists. rewrite fold_left_append_filter. reflexivity.
Qed.

(** X5.  The words left by the filter come in the order of extraction:
    whatever the file and the database are, the list handed to the main
    loop is strictly ascending, so no word is queried twice. *)
Theorem words_to_process_are_strictly_sorted
    (str_lower : pystr -> pystr) (is_alnum : N -> bool)
    (fs : pystr -> file_read) (file_path : pystr)
    (db : pystr -> db_outcome) (db_path : pystr) :
  let words_to_process_query :=
    get_new_words_not_in_db str_lower
      (read_and_extract_words_from_text_file str_lower is_alnum fs file_path)
      db db_path in
  StronglySorted str_lt words_to_process_query /\
  NoDup words_to_process_query.
Proof.
  cbv zeta.
  set (all_words :=
         read_and_extract_words_from_text_file str_lower is_alnum fs
           file_path).
  assert (Hs : StronglySorted str_lt all_words).
  { unfold all_words, read_and_extract_words_from_text_file.
    destruct (fs file_path); try constructor. apply sorted_set_strict. }
  assert (Hn : NoDup all_words).
  { unfold all_words, read_and_extract_words_from_text_file.
    destruct (fs file_path); try constructor.
    apply sorted_NoDup, NoDup_nodup. }
  destruct (get_new_words_filter_or_all str_lower all_words db db_path)
    as [Hk|[f Hk]]; rewrite Hk; [now split|].
  split; [now apply filter_strictly_sorted|now apply NoDup_filter].
Qed.

(** X6.  With an empty words table, or when SQLite raises an error other
    than an operational one, every extracted word is kept. *)
Theorem empty_table_or_other_error_keeps_all_words
    (str_lower : pystr -> pystr) (words_from_text : list pystr)
    (db_path : pystr) :
  get_new_words_not_in_db str_lower words_from_text (fun _ => DbRows [])
    db_path = words_from_text /\
  get_new_words_not_in_db str_lower words_from_text (fun _ => DbOtherError)
    db_path = words_from_text.
Proof.
  split.
  - rewrite get_new_words_as_filter. simpl.
    induction words_from_text as [|w ws IH]; simpl; congruence.
  - unfold get_new_words_not_in_db. now destruct words_from_text.
Qed.

(** ** Escaping, further *)

Lemma sql_literal_body_doubled s :
  sql_literal_body
    (flat_map (fun c => if (c =? QUOTE)%N then [QUOTE; QUOTE] else [c]) s
     ++ [QUOTE]) = Some s.
Proof.
  induction s as [|c s IH]; [reflexivity|].
  cbn [flat_map]. destruct (c =? QUOTE)%N eqn:E.
  - apply N.eqb_eq in E. subst c.
    cbn [app sql_literal_body]. rewrite N.eqb_refl, IH. reflexivity.
  - cbn [app sql_literal_body]. rewrite E, IH. reflexivity.
Qed.

(** X7.  What [escape_sql_string] returns for a value other than [None]
    is a well-formed SQL string literal that reads back as the string form
    of the value; NULL is not a string literal. *)
Theorem escaped_string_reads_back (py_repr : json -> pystr) (value : json) :
  sql_literal_value (escape_sql_string py_repr value)
  = match value with
    | JNull => None
    | _ => Some (py_str py_repr value)
    end.
Proof.
  assert (H : forall s,
    sql_literal_value ([QUOTE] ++ str_replace [QUOTE] [QUOTE; QUOTE] s
                       ++ [QUOTE]) = Some s).
  { intros s. rewrite replace_quote_doubles.
    cbn [app sql_literal_value]. rewrite N.eqb_refl.
    apply sql_literal_body_doubled. }
  destruct value; try apply H. reflexivity.
Qed.

(** ** Inline markup, further *)

Lemma sub_em_no_pipe s : no_pipe s -> sub_em_from 0 s = s.
Proof.
  intros H. rewrite <- (app_nil_r s) at 1.
  rewrite (sub_em_plain s [] H). now rewrite app_nil_r.
Qed.

Lemma sub_em_unmatched c t :
  match_span (c :: t) = None ->
  sub_em_from 0 (c :: t) = c :: sub_em_from 0 t.
Proof. intros H. cbn [sub_em_from]. now rewrite H. Qed.

(** X8.  Text in which no span is closed is left as it is: text without
    a pipe, and text with a single pipe.  Two pipes in a row are no span:
    the first one stays and the second may open a span. *)
Theorem text_without_closed_span_is_unchanged
    (pre post : pystr) (pre_plain : no_pipe pre) (post_plain : no_pipe post) :
  transform_example_text (JStr pre) = Ok (JStr pre) /\
  transform_example_text (JStr (pre ++ PIPE :: post))
  = Ok (JStr (pre ++ PIPE :: post)) /\
  forall rest,
    sub_em_from 0 (PIPE :: PIPE :: rest) = PIPE :: sub_em_from 0 (PIPE :: rest).
Proof.
  unfold transform_example_text. split; [|split].
  - now rewrite sub_em_no_pipe.
  - rewrite (sub_em_plain _ _ pre_plain). do 3 f_equal.
    destruct post as [|c post]; [reflexivity|].
    inversion post_plain as [|? ? Hc Hp]; subst.
    rewrite sub_em_unmatched; [now rewrite (sub_em_no_pipe _ post_plain)|].
    cbn [match_span]. rewrite N.eqb_refl.
    apply N.eqb_neq in Hc. rewrite Hc. cbn [negb andb].
    now rewrite (span_rest_open _ Hp).
  - intros rest. apply sub_em_unmatched. cbn [match_span].
    now rewrite N.eqb_refl.
Qed.

Lemma text_without_closed_span_is_unchanged_witness :
  no_pipe (u "Das Haus ") /\ no_pipe (u " ist groß") /\
  transform_example_text (JStr (u "Das Haus " ++ PIPE :: u " ist groß"))
  = Ok (JStr (u "Das Haus " ++ PIPE :: u " ist groß")).
Proof.
  assert (H1 : no_pipe (u "Das Haus "))
    by (vm_compute; repeat constructor; discriminate).
  assert (H2 : no_pipe (u " ist groß"))
    by (vm_compute; repeat constructor; discriminate).
  repeat (split; [assumption|]).
  exact (proj1 (proj2 (text_without_closed_span_is_unchanged
                         (u "Das Haus ") (u " ist groß") H1 H2))).
Defined.

(** ** Parsing, further *)

Lemma word_info_in_truthy j :
  py_in (u "word_info") j = Ok true -> truthy j = true.
Proof.
  destruct j as [| | | |s|xs|kvs]; try discriminate.
  - destruct s; [|reflexivity]. vm_compute. discriminate.
  - destruct xs; [|reflexivity]. vm_compute. discriminate.
  - destruct kvs; [|reflexivity]. vm_compute. discriminate.
Qed.

(** X9.  The parser never raises and touches neither the statements nor
    the count of requests.  What it returns is [None], or the value that
    [json.loads] produced, in which word_info occurs and which counts as
    true: the test [if assistant_content_json] then tells exactly whether
    the parser accepted the output. *)
Theorem parser_returns_none_or_accepted_value
    (json_loads : pystr -> option json) (raw : pystr) (st : world) :
  let (j, st') :=
    parse_model_output_for_assistant_content json_loads raw st in
  sql_insert_statements st' = sql_insert_statements st /\
  api_calls st' = api_calls st /\
  (j = JNull \/
   json_loads raw = Some j /\ py_in (u "word_info") j = Ok true /\
   truthy j = true).
Proof.
  unfold parse_model_output_for_assistant_content.
  destruct (json_loads raw) as [j|]; [|repeat split; now left].
  destruct (py_in (u "word_info") j) as [[|]|e] eqn:E;
    repeat split; try (now left).
  right. repeat split; auto using word_info_in_truthy.
Qed.

(** ** SQL generation, further *)

Lemma appending_ret {A} (a : A) : appending (ret a).
Proof. intros st. exists []. simpl. now rewrite app_nil_r. Qed.

Lemma appending_lift {A} (o : outcome A) : appending (lift o).
Proof. intros st. exists []. simpl. now rewrite app_nil_r. Qed.

Lemma appending_append_sql stmt : appending (effect (append_sql stmt)).
Proof. intros st. now exists [stmt]. Qed.

Lemma appending_log_error w r data : appending (effect (log_error w r data)).
Proof. intros st. exists []. simpl. now rewrite app_nil_r. Qed.

Lemma appending_bind {A B} (m : M A) (k : A -> M B) :
  appending m -> (forall a, appending (k a)) -> appending (bind m k).
Proof.
  intros Hm Hk st. unfold bind. destruct (Hm st) as (x1 & Q1).
  destruct (m st) as [[a|e] st1]; simpl in *.
  - destruct (Hk a st1) as (x2 & Q2). exists (x1 ++ x2).
    rewrite Q2, Q1. now rewrite app_assoc.
  - now exists x1.
Qed.

Lemma appending_for_each {A} (xs : list A) (body : A -> M unit) :
  (forall x, appending (body x)) -> appending (for_each xs body).
Proof.
  intros Hb. induction xs as [|x xs IH]; simpl.
  - apply appending_ret.
  - apply appending_bind; auto.
Qed.

Ltac appending_steps :=
  repeat first
    [ apply appending_bind; [|intros]
    | apply appending_ret
    | apply appending_lift
    | apply appending_append_sql
    | apply appending_log_error
    | match goal with
      | |- appending (match ?x with _ => _ end) => destruct x
      | |- appending (if ?b then _ else _) => destruct b
      end ].

Lemma silent_for_each {A} (xs : list A) (body : A -> M unit) :
  Forall (fun x => silent (body x)) xs -> silent (for_each xs body).
Proof.
  induction 1 as [|x xs Hx _ IH]; intros st; cbn [for_each].
  - now exists st.
  - unfold bind. destruct (Hx st) as (st1 & -> & T1 & C1).
    destruct (IH st1) as (st2 & E2 & T2 & C2).
    exists st2. rewrite E2. repeat split; congruence.
Qed.

Section GenerationFurther.

Variable json_dumps : json -> pystr.
Variable py_repr : json -> pystr.

Lemma appending_for_example subq ex :
  appending (for_example py_repr subq ex).
Proof. unfold for_example. appending_steps. Qed.

Lemma appending_for_translation w wid t :
  appending (for_translation py_repr w wid t).
Proof.
  unfold for_translation. appending_steps;
    apply appending_for_each; intros; apply appending_for_example.
Qed.

Lemma appending_primary_type wi : appending (primary_type wi).
Proof. unfold primary_type. appending_steps. Qed.

Lemma appending_generate_sql j w :
  appending (generate_sql json_dumps py_repr j w).
Proof.
  unfold generate_sql. appending_steps; try apply appending_primary_type.
  apply appending_for_each; intros; apply appending_for_translation.
Qed.

(** X10.  SQL generation never removes or changes a statement that is
    already in the list, sends no request and only writes log entries.
    When it fails, the last thing it does is to log one entry for the
    word that carries the whole response; statements appended before the
    failure stay in the list. *)
Theorem generation_only_appends_and_logs_its_failure
    (assistant_content_json : json) (original_queried_word : pystr)
    (st : world) :
  let (generated, st') :=
    extract_and_generate_sql_for_word json_dumps py_repr
      assistant_content_json original_queried_word st in
  api_calls st' = api_calls st /\
  exists stmts d,
    sql_insert_statements st' = sql_insert_statements st ++ stmts /\
    trace st' = trace st ++ d /\
    only_logs d /\
    (generated = false ->
     exists d0 e,
       d = d0 ++ [ErrorLogged e; Printed (MsgLoggedError original_queried_word)]
       /\ err_word e = original_queried_word
       /\ err_data e = assistant_content_json).
Proof.
  unfold extract_and_generate_sql_for_word.
  destruct (confined_generate_sql logs_only (fun _ => eq_refl)
              (fun _ => eq_refl) json_dumps py_repr assistant_content_json
              original_queried_word st) as (C & d0 & T & L).
  destruct (appending_generate_sql assistant_content_json
              original_queried_word st) as (stmts & Q).
  destruct (generate_sql json_dumps py_repr assistant_content_json
              original_queried_word st) as [[[]|e] st1]; simpl in C, T, Q.
  - split; [exact C|]. exists stmts, d0.
    repeat split; auto; try (now apply forallb_logs_only). discriminate.
  - assert (E : forall r,
      api_calls (log_error original_queried_word r assistant_content_json
                   st1) = api_calls st /\
      exists stmts d,
        sql_insert_statements
          (log_error original_queried_word r assistant_content_json st1)
        = sql_insert_statements st ++ stmts /\
        trace (log_error original_queried_word r assistant_content_json st1)
        = trace st ++ d /\
        only_logs d /\
        (false = false ->
         exists d1 e1,
           d = d1 ++ [ErrorLogged e1;
                      Printed (MsgLoggedError original_queried_word)]
           /\ err_word e1 = original_queried_word
           /\ err_data e1 = assistant_content_json)).
    { intros r. split; [exact C|]. exists stmts. eexists.
      split; [exact Q|]. rewrite log_error_trace, T, <- app_assoc.
      split; [reflexivity|]. split.
      - apply forallb_logs_only. rewrite forallb_app, L. reflexivity.
      - intros _. eexists d0, _. repeat split. }
    destruct e; apply E.
Qed.

Lemma primary_type_truthy wi st pt st' :
  primary_type wi st = (Ok pt, st') -> truthy pt = true.
Proof.
  unfold primary_type, bind, lift, ret.
  assert (K : forall x,
    truthy (if truthy x then x else JStr (u "unknown")) = true).
  { intros x. destruct (truthy x) eqn:E; [exact E|reflexivity]. }
  destruct (method_get wi (u "base_form") JNull) as [bf|e]; [|discriminate].
  destruct bf; try (intros [= <- _]; first [apply K | reflexivity]).
  destruct (method_get wi (u "additional_info") JNull) as [ai|e];
    [|intros H; cbv beta iota in H; discriminate H].
  intros [= <- _]. apply K.
Qed.

Lemma escape_truthy_not_null v :
  truthy v = true -> escape_sql_string py_repr v <> u "NULL".
Proof.
  destruct v; try discriminate; intros _ H; unfold escape_sql_string in H;
    vm_compute in H; discriminate H.
Qed.

(** X11.  When SQL generation succeeds, the statement for the word row
    is the first one it appended and the only one of its kind, and the
    primary type written in it is never NULL: where the response gives
    none, it is 'unknown'. *)
Theorem word_row_comes_first_with_a_primary_type
    (assistant_content_json : json) (original_queried_word : pystr)
    (st st' : world)
    (generated :
       extract_and_generate_sql_for_word json_dumps py_repr
         assistant_content_json original_queried_word st = (true, st')) :
  exists word_info db_primary_type rest,
    subscript assistant_content_json (u "word_info") = Ok word_info /\
    sql_insert_statements st'
    = sql_insert_statements st
      ++ word_statement py_repr original_queried_word
           (json_dumps (field (u "base_form") JNull word_info))
           db_primary_type
           (json_dumps (field (u "additional_info") JNull word_info))
         :: rest /\
    truthy db_primary_type = true /\
    escape_sql_string py_repr db_primary_type <> u "NULL" /\
    count_where is_word_insert rest = 0.
Proof.
  assert (H : generate_sql json_dumps py_repr assistant_content_json
                original_queried_word st = (Ok tt, st')).
  { unfold extract_and_generate_sql_for_word in generated.
    destruct (generate_sql json_dumps py_repr assistant_content_json
                original_queried_word st) as [[[]|e] s1].
    - now injection generated as <-.
    - destruct e; discriminate. }
  unfold generate_sql in H.
  apply bind_ok in H as (wi & s1 & H1 & H). apply lift_ok in H1 as [H1 ->].
  apply bind_ok in H as (tv & s2 & H2 & H). apply lift_ok in H2 as [H2 ->].
  apply bind_ok in H as (bf & s3 & H3 & H). apply lift_ok in H3 as [H3 ->].
  apply bind_ok in H as (ai & s4 & H4 & H). apply lift_ok in H4 as [H4 ->].
  apply bind_ok in H as (pt & s5 & H5 & H).
  pose proof (primary_type_truthy _ _ _ _ H5) as Hpt.
  apply primary_type_pure in H5. subst s5.
  apply bind_ok in H as ([] & s6 & H6 & H). apply effect_ok in H6. subst s6.
  apply bind_ok in H as (ts & s7 & H7 & H). apply lift_ok in H7 as [H7 ->].
  apply (for_translations_ok py_repr) in H
    as (x2 & d2 & Q2 & T2 & W2 & _).
  exists wi, pt, x2. split; [exact H1|].
  split.
  { rewrite Q2. cbn [append_sql sql_insert_statements].
    rewrite <- app_assoc. unfold field. now rewrite H3, H4. }
  split; [exact Hpt|]. split; [now apply escape_truthy_not_null|exact W2].
Qed.

Lemma method_get_obj kvs k d :
  method_get (JObj kvs) k d = Ok (field k d (JObj kvs)).
Proof. unfold field, method_get. now destruct (dict_lookup k kvs). Qed.

(** X12.  A response that is no object, that lacks word_info, or whose
    word_info is no object makes SQL generation fail before anything is
    appended: the result is False and the world has one more entry in the
    error log, with the missing key or the exception as its reason. *)
Theorem response_without_word_info_object_is_rejected
    (assistant_content_json : json) (original_queried_word : pystr)
    (st : world) :
  let rejected r :=
    extract_and_generate_sql_for_word json_dumps py_repr
      assistant_content_json original_queried_word st
    = (false,
       log_error original_queried_word r assistant_content_json st) in
  match subscript assistant_content_json (u "word_info") with
  | Raise (KeyError k) => rejected (MissingKey k)
  | Raise e => rejected (UnexpectedDuringSqlGeneration e)
  | Ok (JObj _) => True
  | Ok _ => rejected (UnexpectedDuringSqlGeneration AttributeError)
  end.
Proof.
  cbv zeta.
  unfold extract_and_generate_sql_for_word, generate_sql, bind, lift,
    subscript.
  destruct assistant_content_json as [| | | | | |kvs]; try reflexivity.
  destruct (dict_lookup (u "word_info") kvs) as [wi|]; [|reflexivity].
  rewrite method_get_obj. cbv beta iota.
  destruct wi; try exact I; reflexivity.
Qed.

Lemma silent_for_example subq ex :
  wf_example ex = true -> silent (for_example py_repr subq ex).
Proof.
  destruct ex as [| | | | | |kvs]; try discriminate.
  unfold wf_example, for_example, bind, lift. rewrite !method_get_obj.
  intros H st. apply andb_true_iff in H as [Hs Ht].
  destruct (field (u "source") JNull (JObj kvs)) as [| | | |s| |];
    try discriminate;
    destruct (field (u "target") JNull (JObj kvs)) as [| | | |t| |];
    try discriminate;
    try destruct s; try destruct t; eexists;
    (split; [reflexivity|split; reflexivity]).
Qed.

Lemma silent_for_translation w wid t :
  wf_translation t = true -> has_meaning t = true ->
  silent (for_translation py_repr w wid t).
Proof.
  destruct t as [| | | | | |kvs]; try discriminate.
  unfold wf_translation, has_meaning, for_translation, bind, lift.
  rewrite !method_get_obj. intros H Hm st.
  destruct (field (u "examples") (JArr []) (JObj kvs))
    as [| | | | |exs|]; try discriminate.
  assert (Hex : forall subq, silent (for_each exs (for_example py_repr subq))).
  { intros subq. apply silent_for_each. apply Forall_forall.
    intros ex Hin. apply silent_for_example.
    rewrite forallb_forall in H. now apply H. }
  destruct (field (u "meaning") JNull (JObj kvs)); try discriminate Hm;
    cbv beta iota; unfold effect, py_iter; cbv beta iota;
    match goal with
    | |- context [for_each exs (for_example py_repr ?q) ?s] =>
      destruct (Hex q s) as (st1 & E & T & C)
    end;
    exists st1; (split; [exact E|split; [exact T|exact C]]).
Qed.

Lemma silent_generation
    (assistant_content_json : json) (original_queried_word : pystr)
    (st : world)
    (well_formed : wf_response assistant_content_json = true)
    (meanings :
       forallb has_meaning (translations_of assistant_content_json) = true) :
  exists st',
    extract_and_generate_sql_for_word json_dumps py_repr
      assistant_content_json original_queried_word st = (true, st') /\
    trace st' = trace st /\ api_calls st' = api_calls st.
Proof.
  destruct assistant_content_json as [| | | | | |kvs]; try discriminate.
  unfold wf_response in well_formed. unfold translations_of in meanings.
  assert (Hs : subscript (JObj kvs) (u "word_info")
               = Ok (field (u "word_info") JNull (JObj kvs))
               \/ field (u "word_info") JNull (JObj kvs) = JNull).
  { unfold subscript, field, method_get.
    destruct (dict_lookup (u "word_info") kvs); auto. }
  destruct (field (u "word_info") JNull (JObj kvs))
    as [| | | | | |wkvs] eqn:Ewi; try discriminate.
  destruct Hs as [Hs|Hs]; [|discriminate].
  destruct (field (u "translations") (JArr []) (JObj kvs))
    as [| | | | |ts|] eqn:Ets; try discriminate.
  cbn [elements py_iter] in meanings.
  unfold extract_and_generate_sql_for_word, generate_sql, bind, lift.
  rewrite Hs, !method_get_obj, Ets.
  cbv beta iota.
  destruct (primary_type (JObj wkvs) st) as [[pt|e] s1] eqn:Ept.
  - apply primary_type_pure in Ept as Hp. subst s1.
    unfold effect, py_iter. cbv beta iota.
    match goal with
    | |- context [for_each ts ?body ?s] =>
      destruct (silent_for_each ts body) with (st := s)
        as (st1 & -> & T & C)
    end.
    + apply Forall_forall. intros t Hin.
      rewrite forallb_forall in well_formed, meanings.
      apply silent_for_translation; auto.
    + exists st1. split; [reflexivity|]. split; [exact T|exact C].
  - exfalso. revert Ept. unfold primary_type, bind, lift, ret.
    rewrite !method_get_obj. cbv beta iota.
    destruct (field (u "base_form") JNull (JObj wkvs)); discriminate.
Qed.

(** X13.  SQL generation succeeds, without a call of log_error and without
    a line on the console, on every response that follows the data model:
    an object with an object as word_info whose translations, when
    present, are a list of objects that each have a meaning, the examples
    of each, when present, being a list of objects with a string, null or
    nothing as source and as target. *)
Theorem well_formed_response_generates
    (assistant_content_json : json) (original_queried_word : pystr)
    (st : world)
    (well_formed : wf_response assistant_content_json = true)
    (meanings :
       forallb has_meaning (translations_of assistant_content_json) = true) :
  exists st',
    extract_and_generate_sql_for_word json_dumps py_repr
      assistant_content_json original_queried_word st = (true, st') /\
    trace st' = trace st /\ api_calls st' = api_calls st.
Proof.
  now apply silent_generation.
Qed.

End GenerationFurther.

Lemma well_formed_response_generates_witness :
  wf_response hund_json = true /\
  forallb has_meaning (translations_of hund_json) = true /\
  exists st',
    extract_and_generate_sql_for_word sample_json_dumps sample_py_repr
      hund_json (u "hund") empty_world = (true, st') /\
    trace st' = trace empty_world /\ api_calls st' = api_calls empty_world.
Proof.
  assert (H : wf_response hund_json = true) by (vm_compute; reflexivity).
  assert (K : forallb has_meaning (translations_of hund_json) = true)
    by (vm_compute; reflexivity).
  split; [exact H|]. split; [exact K|].
  exact (well_formed_response_generates sample_json_dumps sample_py_repr
           hund_json (u "hund") empty_world H K).
Defined.

Lemma word_row_comes_first_with_a_primary_type_witness :
  let run :=
    extract_and_generate_sql_for_word sample_json_dumps sample_py_repr
      haus_json (u "haus") empty_world in
  run = (true, snd run) /\
  exists word_info db_primary_type rest,
    subscript haus_json (u "word_info") = Ok word_info /\
    sql_insert_statements (snd run)
    = sql_insert_statements empty_world
      ++ word_statement sample_py_repr (u "haus")
           (sample_json_dumps (field (u "base_form") JNull word_info))
           db_primary_type
           (sample_json_dumps (field (u "additional_info") JNull word_info))
         :: rest /\
    truthy db_primary_type = true /\
    escape_sql_string sample_py_repr db_primary_type <> u "NULL" /\
    count_where is_word_insert rest = 0.
Proof.
  cbv zeta.
  assert (E : extract_and_generate_sql_for_word sample_json_dumps
                sample_py_repr haus_json (u "haus") empty_world
              = (true,
                 snd (extract_and_generate_sql_for_word sample_json_dumps
                        sample_py_repr haus_json (u "haus") empty_world)))
    by (vm_compute; reflexivity).
  split; [exact E|].
  exact (word_row_comes_first_with_a_primary_type sample_json_dumps
           sample_py_repr haus_json (u "haus") empty_world _ E).
Defined.

(** ** Retries, further *)

Lemma forallb_traced d :
  forallb traced d = true -> only_logs d /\ json_log_warnings d = [].
Proof.
  intros H. split.
  - apply forallb_logs_only. rewrite forallb_forall in *. intros e He.
    specialize (H e He). unfold traced in H.
    now apply andb_true_iff in H as [H _].
  - unfold json_log_warnings. induction d as [|e d IH]; [reflexivity|].
    cbn [forallb] in H. apply andb_true_iff in H as [He Hd].
    cbn [filter]. unfold traced in He. apply andb_true_iff in He as [_ He].
    apply negb_true_iff in He. rewrite He. now apply IH.
Qed.

Lemma extract_effects json_dumps py_repr j w st :
  let run := extract_and_generate_sql_for_word json_dumps py_repr j w st in
  api_calls (snd run) = api_calls st /\
  exists stmts d,
    sql_insert_statements (snd run) = sql_insert_statements st ++ stmts /\
    trace (snd run) = trace st ++ d /\
    only_logs d /\
    (fst run = false -> 1 <= length (error_log d)) /\
    json_log_warnings d = [].
Proof.
  cbv zeta.
  destruct (extract_confined traced (fun _ => eq_refl) (fun _ => eq_refl)
              json_dumps py_repr j w st) as (_ & d1 & T1 & L1).
  apply forallb_traced in L1 as [_ W].
  unfold extract_and_generate_sql_for_word in *.
  destruct (confined_generate_sql logs_only (fun _ => eq_refl)
              (fun _ => eq_refl) json_dumps py_repr j w st)
    as (C & d0 & T & L).
  destruct (appending_generate_sql json_dumps py_repr j w st) as (stmts & Q).
  destruct (generate_sql json_dumps py_repr j w st) as [[[]|e] st1];
    simpl in C, T, Q.
  - split; [exact C|]. exists stmts, d0. cbn [snd] in T1.
    rewrite T in T1. apply app_inv_head in T1. subst d1.
    repeat split; auto; try (now apply forallb_logs_only). discriminate.
  - assert (E : forall r,
      trace (snd (false, log_error w r j st1)) = trace st ++ d1 ->
      api_calls (snd (false, log_error w r j st1)) = api_calls st /\
      exists stmts d,
        sql_insert_statements (snd (false, log_error w r j st1))
        = sql_insert_statements st ++ stmts /\
        trace (snd (false, log_error w r j st1)) = trace st ++ d /\
        only_logs d /\
        (fst (false, log_error w r j st1) = false ->
         1 <= length (error_log d)) /\
        json_log_warnings d = []).
    { intros r Tr. cbn [fst snd] in *. split; [exact C|]. exists stmts.
      eexists.
      split; [exact Q|]. rewrite log_error_trace, T, <- app_assoc.
      split; [reflexivity|].
      rewrite log_error_trace, T, <- app_assoc in Tr.
      apply app_inv_head in Tr. rewrite Tr.
      split; [|split; [|exact W]].
      - rewrite <- Tr. apply forallb_logs_only.
        rewrite forallb_app, L. reflexivity.
      - intros _. rewrite <- Tr, error_log_app, length_app. simpl. lia. }
    destruct e; apply E; exact T1.
Qed.

Ltac log_norm :=
  repeat (progress
            (rewrite ?model_queries_app, ?sleeps_app, ?success_log_app,
               ?error_log_app, ?length_app; simpl)).

Lemma json_log_warnings_app a b :
  json_log_warnings (a ++ b) = json_log_warnings a ++ json_log_warnings b.
Proof. apply filter_app. Qed.

Lemma recorded_after json_log_write word d1 d2 :
  success_log d1 = [] -> json_log_warnings d1 = [] ->
  recorded json_log_write word d2 ->
  recorded json_log_write word (d1 ++ d2).
Proof.
  intros S1 W1 (j & H). exists j.
  rewrite success_log_app, json_log_warnings_app, S1, W1. exact H.
Qed.

Section RetryFurther.

Variable json_loads : pystr -> option json.
Variable json_dumps : json -> pystr.
Variable py_repr : json -> pystr.
Variable is_space : N -> bool.
Variable model : pystr -> nat -> api_result.
Variable json_log_write : pystr -> json -> option exn.

Local Abbreviation attempt_once' :=
  (attempt_once json_loads json_dumps py_repr is_space model json_log_write).
Local Abbreviation retry_loop' :=
  (retry_loop json_loads json_dumps py_repr is_space model json_log_write).
Local Abbreviation attempt_summary' := (attempt_summary json_log_write).
Local Abbreviation recorded' := (recorded json_log_write).

Lemma parse_quiet raw st :
  exists st' d,
    parse_model_output_for_assistant_content json_loads raw st
    = (parse_result json_loads raw, st') /\
    advances st st' d 0 /\
    error_log d = [] /\ success_log d = [] /\ sleeps d = [] /\
    model_queries d = [] /\ json_log_warnings d = [].
Proof.
  unfold parse_model_output_for_assistant_content, parse_result, advances.
  destruct (json_loads raw) as [j|].
  - destruct (py_in (u "word_info") j) as [[|]|e].
    + exists st, []. rewrite app_nil_r, Nat.add_0_r. repeat split.
    + exists st, []. rewrite app_nil_r, Nat.add_0_r. repeat split.
    + eexists _, [_]. simpl. rewrite Nat.add_0_r. repeat split.
  - eexists _, [_]. simpl. rewrite Nat.add_0_r. repeat split.
Qed.

Ltac attempt_delta :=
  eexists _, _, _, _, [];
  (split; [reflexivity|]);
  (split; [reflexivity|]);
  (split; [now rewrite app_nil_r|]);
  (split;
   [unfold log_error, sleep, print, emit; simpl;
    repeat rewrite <- app_assoc; reflexivity|]);
  unfold attempt_summary; simpl; repeat split;
  try assumption; try lia; repeat constructor.

Lemma attempt_once_summary word attempt raw st :
  exists ctl raw' st' d stmts,
    attempt_once' word attempt raw st = (ctl, raw', st') /\
    api_calls st' = S (api_calls st) /\
    sql_insert_statements st' = sql_insert_statements st ++ stmts /\
    trace st' = trace st ++ d /\
    attempt_summary' word attempt ctl d.
Proof.
  unfold attempt_once, get_translation_from_model.
  change (api_calls (print (MsgProcessingAttempt word attempt) st))
    with (api_calls st).
  destruct (model word (api_calls st)) as [e|chunks].
  - destruct (attempt <? MAX_RETRIES) eqn:Hlt;
      [apply Nat.ltb_lt in Hlt|]; attempt_delta.
  - destruct (no_content is_space (concat chunks)).
    + destruct (attempt <? MAX_RETRIES) eqn:Hlt;
        [apply Nat.ltb_lt in Hlt|]; attempt_delta.
    + match goal with
      | |- context [parse_model_output_for_assistant_content _ _ ?s] =>
        destruct (parse_quiet (concat chunks) s)
          as (st1 & d1 & -> & (P1 & P2 & P3) & Q1 & Q2 & Q3 & Q4 & Q5)
      end.
      simpl in P1, P2, P3.
      destruct (truthy (parse_result json_loads (concat chunks))).
      * destruct (extract_effects json_dumps py_repr
                    (parse_result json_loads (concat chunks)) word
                    (print (MsgParsed word attempt) st1))
          as (C & stmts & d2 & Q & T & (Ls & Lq & Lm) & F & W).
        destruct (extract_and_generate_sql_for_word json_dumps py_repr
                    (parse_result json_loads (concat chunks)) word
                    (print (MsgParsed word attempt) st1))
          as [generated st2].
        cbn [fst snd] in C, Q, T, F.
        cbn [print emit api_calls sql_insert_statements trace] in C, Q, T.
        rewrite P1 in Q. rewrite P2 in T. rewrite P3 in C.
        destruct generated;
          [destruct (json_log_write word
                       (parse_result json_loads (concat chunks))) eqn:Hw|];
          eexists _, _, _, _, stmts;
          (split; [reflexivity|]);
          (split; [cbn [print emit api_calls]; lia|]);
          (split; [exact Q|]);
          (split;
           [unfold print, emit; cbn [trace]; rewrite T;
            repeat rewrite <- app_assoc; reflexivity|]);
          unfold attempt_summary, recorded; log_norm;
          rewrite ?json_log_warnings_app; simpl;
          rewrite ?json_log_warnings_app; simpl;
          rewrite ?Q1, ?Q2, ?Q3, ?Q4, ?Q5, ?Ls, ?Lq, ?Lm, ?W; simpl;
          repeat split; try constructor;
          try (specialize (F eq_refl); lia);
          try (exists (parse_result json_loads (concat chunks));
               rewrite Hw; split; reflexivity).
      * destruct (attempt <? MAX_RETRIES) eqn:Hlt;
          [apply Nat.ltb_lt in Hlt|];
          eexists _, _, _, _, [];
          (split; [reflexivity|]);
          (split; [cbn [log_error sleep print emit api_calls]; lia|]);
          (split;
           [cbn [log_error sleep print emit sql_insert_statements];
            now rewrite app_nil_r|]);
          (split;
           [unfold log_error, sleep, print, emit; cbn [trace]; rewrite P2;
            repeat rewrite <- app_assoc; reflexivity|]);
          unfold attempt_summary; log_norm;
          rewrite ?json_log_warnings_app; simpl;
          rewrite ?json_log_warnings_app; simpl;
          rewrite ?Q1, ?Q2, ?Q3, ?Q4, ?Q5; simpl;
          repeat split; try assumption; try lia; repeat constructor.
Qed.

Lemma retry_loop_summary word n : forall a raw st,
  a + n = S MAX_RETRIES -> 1 <= n ->
  exists b st' d stmts r,
    retry_loop' word (seq a n) raw st = (b, st') /\
    1 <= r <= n /\
    api_calls st' = api_calls st + r /\
    sql_insert_statements st' = sql_insert_statements st ++ stmts /\
    trace st' = trace st ++ d /\
    length (model_queries d) = r /\
    length (sleeps d) = r - 1 /\
    Forall (fun e => e = Slept RETRY_DELAY_SECONDS) (sleeps d) /\
    (if b then recorded' word d
     else success_log d = [] /\ json_log_warnings d = [] /\
          1 <= length (error_log d)).
Proof.
  induction n as [|n IH]; intros a raw st Ha Hn; [lia|].
  cbn [seq retry_loop].
  destruct (attempt_once_summary word a raw st)
    as (ctl & raw1 & st1 & d1 & x1 & E & C & Q & T & M & Z & K).
  rewrite E. destruct ctl as [|b].
  - destruct K as (Hlt & S1 & G1 & W1).
    destruct (IH (S a) raw1 st1) as
      (b & st2 & d2 & x2 & r & E2 & R2 & C2 & Q2 & T2 & M2 & S2 & Z2 & K2);
      [lia|lia|].
    exists b, st2, (d1 ++ d2), (x1 ++ x2), (S r).
    split; [exact E2|]. split; [lia|]. split; [lia|].
    split; [rewrite Q2, Q; now rewrite app_assoc|].
    split; [rewrite T2, T; now rewrite app_assoc|].
    rewrite model_queries_app, sleeps_app, !length_app, M, S1, M2, S2.
    split; [lia|]. split; [lia|].
    split; [now apply Forall_app|].
    destruct b; [now apply recorded_after|].
    destruct K2 as (K2 & K3 & K4).
    rewrite success_log_app, json_log_warnings_app, error_log_app,
      length_app, G1, W1, K2, K3.
    repeat split. lia.
  - exists b, st1, d1, x1, 1.
    split; [reflexivity|]. split; [lia|]. split; [lia|].
    split; [exact Q|]. split; [exact T|]. split; [exact M|].
    destruct b.
    + destruct K as (S1 & K). rewrite S1 in *. repeat split; auto.
    + destruct K as (S1 & G1 & W1 & K). rewrite S1 in *. repeat split; auto.
Qed.

(** X14.  Whatever the endpoint answers, a word costs at least one and at
    most MAX_RETRIES requests, and there is one pause of
    RETRY_DELAY_SECONDS between two requests and none after the last. *)
Theorem word_costs_between_one_and_max_requests
    (original_word_to_query : pystr) (st : world) :
  let st' :=
    snd (process_word_with_retries json_loads json_dumps py_repr is_space
           model json_log_write original_word_to_query st) in
  exists r d,
    1 <= r <= MAX_RETRIES /\
    api_calls st' = api_calls st + r /\
    trace st' = trace st ++ d /\
    length (model_queries d) = r /\
    length (sleeps d) = r - 1 /\
    Forall (fun e => e = Slept RETRY_DELAY_SECONDS) (sleeps d).
Proof.
  cbv zeta. unfold process_word_with_retries.
  destruct (retry_loop_summary original_word_to_query MAX_RETRIES 1 [] st)
    as (b & st2 & d & x & r & E & R & C & Q & T & M & S1 & Z & K);
    [reflexivity|unfold MAX_RETRIES; lia|].
  rewrite E. exists r, d. cbn [snd]. repeat split; auto; lia.
Qed.

(** X15.  The result for a word is always on record, and nothing that
    was there before is lost.  When the result is True, one response for
    that word has been appended to the log of successful responses, or
    that write failed and the warning was printed instead; nothing else
    reaches that log.  When the result is False, the log of successful
    responses is as before, no such warning was printed, and the error
    log has at least one more entry.  The statements found in the list
    are still its first ones. *)
Theorem result_for_a_word_is_always_recorded
    (original_word_to_query : pystr) (st : world) :
  let (processed, st') :=
    process_word_with_retries json_loads json_dumps py_repr is_space model
      json_log_write original_word_to_query st in
  exists stmts d,
    sql_insert_statements st' = sql_insert_statements st ++ stmts /\
    trace st' = trace st ++ d /\
    if processed
    then
      exists response,
        match json_log_write original_word_to_query response with
        | None =>
          success_log d = [SuccessLogged original_word_to_query response] /\
          json_log_warnings d = []
        | Some log_e =>
          success_log d = [] /\
          json_log_warnings d = [Printed (MsgJsonLogWarning log_e)]
        end
    else
      success_log d = [] /\ json_log_warnings d = [] /\
      1 <= length (error_log d).
Proof.
  unfold process_word_with_retries.
  destruct (retry_loop_summary original_word_to_query MAX_RETRIES 1 [] st)
    as (b & st2 & d & x & r & E & R & C & Q & T & M & S1 & Z & K);
    [reflexivity|unfold MAX_RETRIES; lia|].
  rewrite E. exists x, d. split; [exact Q|]. split; [exact T|exact K].
Qed.

End RetryFurther.

Section RetrySuccess.

Variable json_loads : pystr -> option json.
Variable json_dumps : json -> pystr.
Variable py_repr : json -> pystr.
Variable is_space : N -> bool.
Variable model : pystr -> nat -> api_result.
Variable json_log_write : pystr -> json -> option exn.

(** X16.  When, after [k] attempts that could not succeed, attempt
    [k + 1] parses the model output and SQL generation succeeds without a
    call of log_error, the word is done: the result is True, [k + 1]
    requests have been sent, the only pauses are the [k] ones of the
    earlier attempts, no later attempt is made and the error log is as
    before.  After everything SQL generation did, the parsed response is
    appended to the log of successful responses, or, when that write
    fails, the warning is printed and the log stays as it was. *)
Theorem word_succeeds_on_first_usable_reply
    (word : pystr) (st : world) (k : nat) (chunks : list pystr)
    (attempts_remain : k < MAX_RETRIES)
    (earlier_fail :
       forall i, i < k ->
         retryable json_loads is_space (model word (api_calls st + i))
         = true)
    (reply : model word (api_calls st + k) = ApiChunks chunks)
    (has_content : no_content is_space (concat chunks) = false)
    (parses : truthy (parse_result json_loads (concat chunks)) = true)
    (sql_succeeds :
       forall st_in,
         fst (extract_and_generate_sql_for_word json_dumps py_repr
                (parse_result json_loads (concat chunks)) word st_in)
         = true /\
         error_log
           (trace
              (snd (extract_and_generate_sql_for_word json_dumps py_repr
                      (parse_result json_loads (concat chunks)) word
                      st_in)))
         = error_log (trace st_in)) :
  exists st_in d_in,
    advances st st_in d_in (S k) /\
    length (sleeps d_in) = k /\ error_log d_in = [] /\
    success_log d_in = [] /\
    let response := parse_result json_loads (concat chunks) in
    let st_sql :=
      snd (extract_and_generate_sql_for_word json_dumps py_repr response
             word st_in) in
    let st' :=
      match json_log_write word response with
      | None => emit (SuccessLogged word response) st_sql
      | Some log_e => print (MsgJsonLogWarning log_e) st_sql
      end in
    process_word_with_retries json_loads json_dumps py_repr is_space model
      json_log_write word st = (true, st') /\
    api_calls st' = api_calls st + S k /\
    sleeps (trace st') = sleeps (trace st) ++ sleeps d_in /\
    error_log (trace st') = error_log (trace st) /\
    success_log (trace st')
    = success_log (trace st)
      ++ match json_log_write word response with
         | None => [SuccessLogged word response]
         | Some _ => []
         end.
Proof.
  unfold process_word_with_retries.
  replace (seq 1 MAX_RETRIES) with (seq 1 (k + S (MAX_RETRIES - k - 1)))
    by (f_equal; lia).
  destruct (retry_loop_failures json_loads json_dumps py_repr is_space model
              json_log_write word k 1 (S (MAX_RETRIES - k - 1)) [] st)
    as (raw1 & st1 & d1 & E1 & A1 & Q1 & Z1 & S1 & L1);
    [lia | exact earlier_fail |].
  rewrite E1. cbn [seq retry_loop].
  destruct (attempt_once_parsed json_loads json_dumps py_repr is_space model
              json_log_write word (1 + k) raw1 st1 chunks)
    as (st_in & d2 & A2 & Q2 & Z2 & S2 & L2 & _ & E2); auto.
  { destruct A1 as (_ & _ & ->). exact reply. }
  rewrite E2. cbv zeta.
  pose proof (advances_trans _ _ _ _ _ _ _ A1 A2) as A.
  replace (k + 1) with (S k) in A by lia.
  exists st_in, (d1 ++ d2).
  split; [exact A|].
  rewrite sleeps_app, error_log_app, success_log_app, length_app, Z1, Z2, L1,
    L2, S1, S2.
  split; [simpl; lia|]. split; [reflexivity|]. split; [reflexivity|].
  destruct (extract_only_logs json_dumps py_repr
              (parse_result json_loads (concat chunks)) word st_in)
    as (C & d & T & Ls & Lq & Lm).
  destruct (sql_succeeds st_in) as [Hok Hlog].
  destruct (extract_and_generate_sql_for_word json_dumps py_repr
              (parse_result json_loads (concat chunks)) word st_in)
    as [generated st_sql].
  cbn [fst snd] in *. subst generated.
  destruct A as (_ & AT & AC).
  split; [reflexivity|].
  destruct (json_log_write word (parse_result json_loads (concat chunks)));
    unfold print, emit; cbn [trace api_calls];
    rewrite !error_log_app, Hlog, AT; rewrite T, AT;
    rewrite !sleeps_app, !success_log_app, !error_log_app, Ls, Lq, Z2, S1,
      S2, L1, L2;
    simpl; rewrite !app_nil_r;
    repeat split; try reflexivity; lia.
Qed.

End RetrySuccess.

Lemma word_succeeds_on_first_usable_reply_witness :
  2 < MAX_RETRIES /\
  (forall i, i < 2 ->
     retryable hund_json_loads latin_isspace
       (slow_hund_model (u "hund") (api_calls empty_world + i)) = true) /\
  slow_hund_model (u "hund") (api_calls empty_world + 2)
  = ApiChunks [hund_text] /\
  no_content latin_isspace (concat [hund_text]) = false /\
  truthy (parse_result hund_json_loads (concat [hund_text])) = true /\
  exists st',
    process_word_with_retries hund_json_loads sample_json_dumps
      sample_py_repr latin_isspace slow_hund_model json_log_unwritable
      (u "hund") empty_world
    = (true, st') /\
    api_calls st' = 3 /\ length (sleeps (trace st')) = 2 /\
    error_log (trace st') = [] /\ success_log (trace st') = [].
Proof.
  assert (H0 : 2 < MAX_RETRIES) by (unfold MAX_RETRIES; lia).
  assert (H1 : forall i, i < 2 ->
     retryable hund_json_loads latin_isspace
       (slow_hund_model (u "hund") (api_calls empty_world + i)) = true).
  { intros i Hi. destruct i as [|[|i]]; [reflexivity|reflexivity|lia]. }
  assert (H2 : no_content latin_isspace (concat [hund_text]) = false)
    by (vm_compute; reflexivity).
  assert (H3 : truthy (parse_result hund_json_loads (concat [hund_text]))
               = true) by (vm_compute; reflexivity).
  assert (H4 : parse_result hund_json_loads (concat [hund_text])
               = hund_json) by (vm_compute; reflexivity).
  assert (H5 : wf_response hund_json = true) by (vm_compute; reflexivity).
  assert (H6 : forallb has_meaning (translations_of hund_json) = true)
    by (vm_compute; reflexivity).
  repeat (split; [assumption || reflexivity|]).
  destruct (word_succeeds_on_first_usable_reply hund_json_loads
              sample_json_dumps sample_py_repr latin_isspace slow_hund_model
              json_log_unwritable (u "hund") empty_world 2 [hund_text] H0 H1
              eq_refl H2 H3)
    as (st_in & d_in & A & Z & L & G & R & C & S & E & U).
  { intros st_in. rewrite H4.
    destruct (silent_generation sample_json_dumps sample_py_repr hund_json
                (u "hund") st_in H5 H6) as (st2 & -> & T & _).
    cbn [fst snd]. now rewrite T. }
  cbv zeta in R, C, S, E, U.
  match type of R with _ = (true, ?s) => exists s end.
  split; [exact R|]. split; [exact C|].
  split; [rewrite S, length_app, Z; reflexivity|].
  split; [rewrite E; reflexivity|]. rewrite U. reflexivity.
Defined.

(** ** The main loop and the script, further *)

Section LoopFurther.

Variable json_loads : pystr -> option json.
Variable json_dumps : json -> pystr.
Variable py_repr : json -> pystr.
Variable is_space : N -> bool.
Variable model : pystr -> nat -> api_result.
Variable json_log_write : pystr -> json -> option exn.

Lemma recorded_once word d :
  recorded json_log_write word d ->
  length (success_log d) + length (json_log_warnings d) = 1.
Proof.
  intros (j & H). destruct (json_log_write word j);
    destruct H as [-> ->]; reflexivity.
Qed.

Lemma process_indexed_word_summary total i w s f st :
  exists (b : bool) st' d x r,
    process_indexed_word json_loads json_dumps py_repr is_space model
      json_log_write total i w (s, f) st
    = ((if b then (S s, f) else (s, S f)), st') /\
    1 <= r <= MAX_RETRIES /\
    api_calls st' = api_calls st + r /\
    sql_insert_statements st' = sql_insert_statements st ++ x /\
    trace st' = trace st ++ d /\
    length (success_log d) + length (json_log_warnings d)
    = (if b then 1 else 0) /\
    (if b then True else 1 <= length (error_log d)).
Proof.
  unfold process_indexed_word, process_word_with_retries.
  destruct (retry_loop_summary json_loads json_dumps py_repr is_space model
              json_log_write w MAX_RETRIES 1 []
              (print (MsgProcessingWord (i + 1) total w) st))
    as (b & st1 & d & x & r & E & R & C & Q & T & M & S1 & Z & K);
    [reflexivity|unfold MAX_RETRIES; lia|].
  rewrite E. cbn [print emit api_calls sql_insert_statements trace] in C, Q, T.
  exists b.
  assert (G : length (success_log d) + length (json_log_warnings d)
              = (if b then 1 else 0) /\
              (if b then True else 1 <= length (error_log d))).
  { destruct b; [split; [now apply (recorded_once w)|exact I]|].
    destruct K as (-> & -> & K). now split. }
  destruct G as [G1 G2].
  destruct b; destruct (((i + 1) mod 10 =? 0) && (10 <? total));
    eexists _, _, x, r;
    (split; [reflexivity|]); (split; [exact R|]);
    (split; [cbn [sleep print emit api_calls]; exact C|]);
    (split; [cbn [sleep print emit sql_insert_statements]; exact Q|]);
    (split;
     [unfold sleep, print, emit; cbn [trace]; rewrite T;
      repeat rewrite <- app_assoc; reflexivity|]);
    rewrite !success_log_app, !json_log_warnings_app, ?error_log_app,
      !length_app; simpl; split; try exact I; lia.
Qed.

Lemma main_loop_summary total words : forall i s f st,
  exists s' f' st' d x r,
    main_loop json_loads json_dumps py_repr is_space model json_log_write
      total i words (s, f) st = ((s', f'), st') /\
    s' + f' = s + f + length words /\
    s' = s + length (success_log d) + length (json_log_warnings d) /\
    f <= f' /\ f' - f <= length (error_log d) /\
    length words <= r <= MAX_RETRIES * length words /\
    api_calls st' = api_calls st + r /\
    sql_insert_statements st' = sql_insert_statements st ++ x /\
    trace st' = trace st ++ d.
Proof.
  induction words as [|w rest IH]; intros i s f st; cbn [main_loop].
  - exists s, f, st, [], [], 0. rewrite !app_nil_r. simpl.
    repeat split; lia.
  - destruct (process_indexed_word_summary total i w s f st)
      as (b & st1 & d1 & x1 & r1 & E & R & C & Q & T & G & K).
    rewrite E.
    assert (Hc : exists s1 f1,
      (if b then (S s, f) else (s, S f)) = (s1, f1) /\
      s1 + f1 = S (s + f) /\
      s1 = s + length (success_log d1) + length (json_log_warnings d1) /\
      f <= f1 /\ f1 - f <= length (error_log d1)).
    { destruct b; eexists _, _; (split; [reflexivity|]); lia. }
    destruct Hc as (s1 & f1 & -> & B1 & B2 & B3 & B4).
    destruct (IH (S i) s1 f1 st1)
      as (s' & f' & st' & d2 & x2 & r2 & E2 & A1 & A2 & A3 & A4 & A5 & C2
          & Q2 & T2).
    exists s', f', st', (d1 ++ d2), (x1 ++ x2), (r1 + r2).
    split; [exact E2|].
    rewrite success_log_app, json_log_warnings_app, error_log_app,
      !length_app. cbn [length].
    unfold MAX_RETRIES in *.
    repeat split; try lia.
    + rewrite Q2, Q. now rewrite app_assoc.
    + rewrite T2, T. now rewrite app_assoc.
Qed.

(** X17.  The main loop counts every word once, as a success or as a
    failure.  The successes are as many as the entries added to the log of
    successful responses together with the warnings that such an entry
    could not be written, each failure left at least one entry in the
    error log, and between one and MAX_RETRIES requests were sent per
    word. *)
Theorem main_loop_counts_every_word_once
    (words_to_process_query : list pystr) (st : world) :
  let '((successful_words, failed_words_count), st') :=
    process_all_words json_loads json_dumps py_repr is_space model
      json_log_write words_to_process_query st in
  successful_words + failed_words_count = length words_to_process_query /\
  exists d r,
    trace st' = trace st ++ d /\
    length (success_log d) + length (json_log_warnings d)
    = successful_words /\
    failed_words_count <= length (error_log d) /\
    api_calls st' = api_calls st + r /\
    length words_to_process_query <= r
    <= MAX_RETRIES * length words_to_process_query.
Proof.
  unfold process_all_words.
  destruct (main_loop_summary (length words_to_process_query)
              words_to_process_query 0 0 0 st)
    as (s' & f' & st' & d & x & r & E & A1 & A2 & A3 & A4 & A5 & C & Q & T).
  rewrite E. split; [lia|]. exists d, r. repeat split; try lia; auto.
Qed.

End LoopFurther.

Section ScriptFacts.

Variable str_lower : pystr -> pystr.
Variable is_alnum : N -> bool.
Variable json_loads : pystr -> option json.
Variable json_dumps : json -> pystr.
Variable py_repr : json -> pystr.
Variable is_space : N -> bool.
Variable model : pystr -> nat -> api_result.
Variable json_log_write : pystr -> json -> option exn.

Local Abbreviation script' :=
  (script str_lower is_alnum json_loads json_dumps py_repr is_space
    model json_log_write).
Local Abbreviation all_words fs :=
  (read_and_extract_words_from_text_file str_lower is_alnum fs
     TEXT_FILE_PATH).

(** X18.  On every path the script writes the SQL file, and what it
    writes is the statements of the list, each followed by a newline, the
    schema being the first: a failure to create the client, or words that
    fail, never cost the statements gathered so far. *)
Theorem sql_file_is_always_written_schema_first
    (fs : pystr -> file_read) (db : pystr -> db_outcome)
    (client_init : option exn) :
  let run := script' fs db client_init in
  run_sql_file run
  = map (fun stmt => stmt ++ NEWLINE)
      (sql_insert_statements (run_world run)) /\
  exists stmts,
    sql_insert_statements (run_world run) = generate_schema_sql :: stmts.
Proof.
  cbv zeta. unfold script.
  destruct (all_words fs) as [|w ws]; [split; [reflexivity|now exists []]|].
  destruct (get_new_words_not_in_db str_lower (w :: ws) db DB_NAME)
    as [|v vs]; [split; [reflexivity|now exists []]|].
  destruct client_init as [e|]; [split; [reflexivity|now exists []]|].
  unfold process_all_words.
  destruct (main_loop_summary json_loads json_dumps py_repr is_space
    model json_log_write
              (length (v :: vs)) (v :: vs) 0 0 0
              (append_sql generate_schema_sql empty_world))
    as (s' & f' & st' & d & x & r & E & _ & _ & _ & _ & _ & _ & Q & _).
  rewrite E. split; [reflexivity|].
  exists x. exact Q.
Qed.

(** X19.  The script ends in a NameError for words_to_process_query
    exactly when no word was extracted from the text file, the name being
    assigned only where words were extracted.  By then the SQL file has
    been written with the schema alone, and no request was sent. *)
Theorem no_extracted_word_ends_in_name_error
    (fs : pystr -> file_read) (db : pystr -> db_outcome)
    (client_init : option exn) :
  let run := script' fs db client_init in
  (run_end run = NameError (u "words_to_process_query") <->
   all_words fs = []) /\
  (all_words fs = [] ->
   run_sql_file run = [generate_schema_sql ++ NEWLINE] /\
   api_calls (run_world run) = 0 /\ run_critical run = None).
Proof.
  cbv zeta. unfold script.
  destruct (all_words fs) as [|w ws].
  - repeat split; reflexivity.
  - split; [|discriminate].
    destruct (get_new_words_not_in_db str_lower (w :: ws) db DB_NAME)
      as [|v vs]; [split; discriminate|].
    destruct client_init as [e|]; [split; discriminate|].
    destruct (process_all_words json_loads json_dumps py_repr is_space
                model json_log_write (v :: vs)
                (append_sql generate_schema_sql empty_world))
      as [counts st']. split; discriminate.
Qed.

(** X20.  When the client cannot be created, no request is sent and
    nothing is processed: the SQL file holds the schema alone, and the
    exception is logged as critical exactly when there were words to
    process. *)
Theorem client_failure_sends_nothing
    (fs : pystr -> file_read) (db : pystr -> db_outcome) (e : exn) :
  let run := script' fs db (Some e) in
  run_world run = append_sql generate_schema_sql empty_world /\
  run_sql_file run = [generate_schema_sql ++ NEWLINE] /\
  (run_critical run = Some e <->
   get_new_words_not_in_db str_lower (all_words fs) db DB_NAME <> []).
Proof.
  cbv zeta. unfold script.
  destruct (all_words fs) as [|w ws].
  - repeat split; try reflexivity; [discriminate|]. intros H. now elim H.
  - destruct (get_new_words_not_in_db str_lower (w :: ws) db DB_NAME)
      as [|v vs].
    + repeat split; try reflexivity; [discriminate|]. intros H. now elim H.
    + repeat split; try reflexivity. discriminate.
Qed.

End ScriptFacts.

Lemma no_extracted_word_ends_in_name_error_witness :
  read_and_extract_words_from_text_file latin_lower latin_isalnum
    (fun _ => FileNotFoundError) TEXT_FILE_PATH = [] /\
  let run :=
    script latin_lower latin_isalnum sample_json_loads sample_json_dumps
      sample_py_repr latin_isspace silent_model json_log_writable
      (fun _ => FileNotFoundError) (fun _ => DbRows []) None in
  run_end run = NameError (u "words_to_process_query") /\
  run_sql_file run = [generate_schema_sql ++ NEWLINE] /\
  api_calls (run_world run) = 0 /\ run_critical run = None.
Proof.
  split; [reflexivity|]. cbv zeta.
  destruct (no_extracted_word_ends_in_name_error latin_lower latin_isalnum
              sample_json_loads sample_json_dumps sample_py_repr
              latin_isspace
                silent_model json_log_writable (fun _ => FileNotFoundError)
              (fun _ => DbRows []) None) as [[_ H1] H2].
  split; [apply H1; reflexivity|]. apply H2. reflexivity.
Defined.

(** ** The primary type and the cost of a run *)

Lemma insert_sorted_perm x l : Permutation (x :: l) (insert_sorted x l).
Proof.
  induction l as [|y l IH]; simpl; [reflexivity|].
  destruct (str_leb x y); [reflexivity|].
  rewrite perm_swap. now constructor.
Qed.

Lemma sorted_perm l : Permutation l (sorted l).
Proof.
  induction l as [|x l IH]; simpl; [reflexivity|].
  rewrite <- insert_sorted_perm. now constructor.
Qed.

Lemma str_le_antisym a b : str_le a b -> str_le b a -> a = b.
Proof.
  unfold str_le, str_leb. rewrite !negb_true_iff. intros H1 H2.
  now apply str_trichotomy.
Qed.

Lemma sorted_unique l1 : forall l2,
  StronglySorted str_le l1 -> StronglySorted str_le l2 ->
  Permutation l1 l2 -> l1 = l2.
Proof.
  induction l1 as [|a l1 IH]; intros l2 S1 S2 P.
  - apply Permutation_nil in P. now subst.
  - destruct l2 as [|b l2];
      [apply Permutation_sym, Permutation_nil in P; discriminate|].
    inversion S1 as [|? ? S1' F1]; inversion S2 as [|? ? S2' F2]; subst.
    assert (a = b).
    { assert (Ia : In a (b :: l2))
        by (eapply Permutation_in; [exact P|now left]).
      assert (Ib : In b (a :: l1))
        by (eapply Permutation_in;
            [apply Permutation_sym; exact P|now left]).
      rewrite Forall_forall in F1, F2.
      destruct Ia as [->|Ia]; [reflexivity|].
      destruct Ib as [->|Ib]; [reflexivity|].
      apply str_le_antisym; [now apply F1|now apply F2]. }
    subst b. f_equal. apply IH; auto.
    now apply Permutation_cons_inv in P.
Qed.

Lemma sorted_of_permutation l1 l2 :
  Permutation l1 l2 -> sorted l1 = sorted l2.
Proof.
  intros P. apply sorted_unique; try apply sorted_sorted.
  rewrite <- (sorted_perm l1), <- (sorted_perm l2). exact P.
Qed.

(** X21.  When the base form of a word is an object, the primary type
    depends on the set of its keys only, not on the order in which the
    model lists them: the keys are sorted before they are joined. *)
Theorem primary_type_ignores_the_order_of_forms
    (forms1 forms2 : list (pystr * json))
    (rest1 rest2 : list (pystr * json)) (st : world)
    (same_keys : Permutation (dict_keys forms1) (dict_keys forms2)) :
  primary_type (JObj ((u "base_form", JObj forms1) :: rest1)) st
  = primary_type (JObj ((u "base_form", JObj forms2) :: rest2)) st.
Proof.
  unfold primary_type, bind, lift, ret, method_get.
  cbn [dict_lookup]. rewrite str_eqb_refl.
  rewrite (sorted_of_permutation _ _ same_keys).
  destruct (dict_keys forms1) as [|k1 ks1] eqn:E1;
    destruct (dict_keys forms2) as [|k2 ks2] eqn:E2; try reflexivity.
  apply Permutation_nil in same_keys. discriminate.
Qed.

Lemma primary_type_ignores_the_order_of_forms_witness :
  Permutation (dict_keys [(u "verb", JNull); (u "noun", JNull)])
    (dict_keys [(u "noun", JNull); (u "verb", JNull)]) /\
  primary_type
    (JObj [(u "base_form", JObj [(u "verb", JNull); (u "noun", JNull)])])
    empty_world
  = primary_type
      (JObj [(u "base_form", JObj [(u "noun", JNull); (u "verb", JNull)])])
      empty_world.
Proof.
  assert (P : Permutation (dict_keys [(u "verb", JNull); (u "noun", JNull)])
                (dict_keys [(u "noun", JNull); (u "verb", JNull)]))
    by apply perm_swap.
  split; [exact P|].
  exact (primary_type_ignores_the_order_of_forms _ _ [] [] empty_world P).
Defined.

Section ScriptBudget.

Variable str_lower : pystr -> pystr.
Variable is_alnum : N -> bool.
Variable json_loads : pystr -> option json.
Variable json_dumps : json -> pystr.
Variable py_repr : json -> pystr.
Variable is_space : N -> bool.
Variable model : pystr -> nat -> api_result.
Variable json_log_write : pystr -> json -> option exn.

(** X22.  A run of the script sends at most MAX_RETRIES requests for each
    word extracted from the text file, and at most one entry per extracted
    word reaches the log of successful responses. *)
Theorem script_request_budget
    (fs : pystr -> file_read) (db : pystr -> db_outcome)
    (client_init : option exn) :
  let run :=
    script str_lower is_alnum json_loads json_dumps py_repr is_space
      model json_log_write
      fs db client_init in
  let all_words_from_text :=
    read_and_extract_words_from_text_file str_lower is_alnum fs
      TEXT_FILE_PATH in
  api_calls (run_world run) <= MAX_RETRIES * length all_words_from_text /\
  length (success_log (trace (run_world run))) <= length all_words_from_text.
Proof.
  cbv zeta. unfold script.
  destruct (read_and_extract_words_from_text_file str_lower is_alnum fs
              TEXT_FILE_PATH) as [|w ws] eqn:Ew; [simpl; lia|].
  assert (Hlen : length (get_new_words_not_in_db str_lower (w :: ws) db
                           DB_NAME) <= length (w :: ws)).
  { destruct (get_new_words_filter_or_all str_lower (w :: ws) db DB_NAME)
      as [->|[f ->]]; [lia|apply filter_length_le]. }
  destruct (get_new_words_not_in_db str_lower (w :: ws) db DB_NAME)
    as [|v vs]; [simpl; lia|].
  destruct client_init as [e|]; [simpl; lia|].
  unfold process_all_words.
  destruct (main_loop_summary json_loads json_dumps py_repr is_space
    model json_log_write
              (length (v :: vs)) (v :: vs) 0 0 0
              (append_sql generate_schema_sql empty_world))
    as (s' & f' & st' & d & x & r & E & A1 & A2 & A3 & A4 & A5 & C & Q & T).
  rewrite E. cbn [run_world]. rewrite C, T.
  cbn [append_sql empty_world api_calls trace app].
  unfold MAX_RETRIES in *. split; [nia|]. lia.
Qed.

End ScriptBudget.
